(** * Permission engine of backend-bgestion: a shallow embedding

    The development follows the Express handlers of the repository
    ([middleware/auth.middleware], [routes/permission.routes],
    [routes/member.routes], [routes/workspace.routes]), the CSV branch of
    [routes/export.routes] and the table declarations of
    [database/migrate.js].

    - Tables are lists of rows; a SQL statement is a function on the store.
      UNIQUE / NOT NULL constraints and the ON DELETE CASCADE clauses of the
      tables that the handlers write are part of the statement semantics.
      Foreign keys are not validated when a row is inserted.
    - A handler is a computation in a state-and-exception monad whose state
      holds the committed store, the working copy of the open transaction,
      the logger output and a fault oracle for the storage layer.
    - Socket.IO broadcasts and HTTP response payloads that no property reads
      are left out. *)

From Stdlib Require Import List String Ascii Bool Arith Lia.
Import ListNotations.
Local Open Scope string_scope.
Local Open Scope list_scope.

Set Implicit Arguments.

(** ** JavaScript values *)

Definition uuid := string.

(** [a || b] on two possibly-undefined strings: the empty string is falsy. *)
Definition js_or (a b : option string) : option string :=
  match a with
  | Some s => if s =? EmptyString then b else Some s
  | None => b
  end.

(** The guard [if (!x) return ...] on a possibly-undefined string: what is
    left of [x] once the guard is passed. *)
Definition truthy (a : option string) : option string :=
  match a with
  | Some s => if s =? EmptyString then None else Some s
  | None => None
  end.

(** [xs.includes(x)] *)
Definition includes (xs : list string) (x : string) : bool :=
  existsb (fun y => y =? x) xs.

Definition dquote : string := String (ascii_of_nat 34) EmptyString.

(** ** Tables ([database/migrate.js]) *)

Record workspaces_row := {
  w_id : uuid;
  w_name : string;
  w_owner_id : uuid }.

Record workspace_members_row := {
  wm_workspace_id : uuid;
  wm_user_id : uuid;
  wm_role : string;
  wm_invited_by : option uuid }.

Record boards_row := {
  b_id : uuid;
  b_workspace_id : uuid }.

Record sdsi_projects_row := {
  sp_id : uuid;
  sp_workspace_id : uuid }.

Record workspace_roles_row := {
  r_id : uuid;
  r_workspace_id : uuid;
  r_name : string;
  r_description : option string;
  r_color : string }.

Record permissions_row := {
  p_id : uuid;
  p_code : string }.

Record role_permissions_row := {
  rp_role_id : uuid;
  rp_permission_id : uuid }.

Record user_roles_row := {
  ur_user_id : uuid;
  ur_workspace_id : uuid;
  ur_role_id : uuid;
  ur_assigned_by : uuid }.

(** [board_permissions] and [project_permissions] have the same shape. *)
Record resource_permissions_row := {
  xp_resource_id : uuid;
  xp_user_id : uuid;
  xp_permission_level : string;
  xp_granted_by : uuid }.

Record user_groups_row := {
  ug_id : uuid;
  ug_workspace_id : uuid }.

Record user_group_members_row := {
  ugm_group_id : uuid;
  ugm_user_id : uuid }.

Record board_group_permissions_row := {
  bgp_board_id : uuid;
  bgp_group_id : uuid;
  bgp_permission_level : string }.

(** The JSONB snapshots written to the audit table. *)
Inductive json :=
| JRole (name : string) (permissions : option (list string)).

Record permission_audit_logs_row := {
  al_workspace_id : uuid;
  al_action : string;
  al_entity_type : string;
  al_entity_id : uuid;
  al_target_user_id : option uuid;
  al_performed_by : uuid;
  al_old_value : option json;
  al_new_value : option json }.

Record DB := {
  workspaces : list workspaces_row;
  workspace_members : list workspace_members_row;
  boards : list boards_row;
  sdsi_projects : list sdsi_projects_row;
  workspace_roles : list workspace_roles_row;
  permissions : list permissions_row;
  role_permissions : list role_permissions_row;
  user_roles : list user_roles_row;
  board_permissions : list resource_permissions_row;
  project_permissions : list resource_permissions_row;
  user_groups : list user_groups_row;
  user_group_members : list user_group_members_row;
  board_group_permissions : list board_group_permissions_row;
  permission_audit_logs : list permission_audit_logs_row }.

Definition empty_DB : DB :=
  {| workspaces := []; workspace_members := []; boards := [];
     sdsi_projects := []; workspace_roles := []; permissions := [];
     role_permissions := []; user_roles := []; board_permissions := [];
     project_permissions := []; user_groups := []; user_group_members := [];
     board_group_permissions := []; permission_audit_logs := [] |}.

Definition set_workspaces v (d : DB) : DB :=
  {| workspaces := v; workspace_members := workspace_members d;
     boards := boards d; sdsi_projects := sdsi_projects d;
     workspace_roles := workspace_roles d; permissions := permissions d;
     role_permissions := role_permissions d; user_roles := user_roles d;
     board_permissions := board_permissions d;
     project_permissions := project_permissions d;
     user_groups := user_groups d;
     user_group_members := user_group_members d;
     board_group_permissions := board_group_permissions d;
     permission_audit_logs := permission_audit_logs d |}.

Definition set_workspace_members v (d : DB) : DB :=
  {| workspaces := workspaces d; workspace_members := v;
     boards := boards d; sdsi_projects := sdsi_projects d;
     workspace_roles := workspace_roles d; permissions := permissions d;
     role_permissions := role_permissions d; user_roles := user_roles d;
     board_permissions := board_permissions d;
     project_permissions := project_permissions d;
     user_groups := user_groups d;
     user_group_members := user_group_members d;
     board_group_permissions := board_group_permissions d;
     permission_audit_logs := permission_audit_logs d |}.

Definition set_workspace_roles v (d : DB) : DB :=
  {| workspaces := workspaces d; workspace_members := workspace_members d;
     boards := boards d; sdsi_projects := sdsi_projects d;
     workspace_roles := v; permissions := permissions d;
     role_permissions := role_permissions d; user_roles := user_roles d;
     board_permissions := board_permissions d;
     project_permissions := project_permissions d;
     user_groups := user_groups d;
     user_group_members := user_group_members d;
     board_group_permissions := board_group_permissions d;
     permission_audit_logs := permission_audit_logs d |}.

Definition set_role_permissions v (d : DB) : DB :=
  {| workspaces := workspaces d; workspace_members := workspace_members d;
     boards := boards d; sdsi_projects := sdsi_projects d;
     workspace_roles := workspace_roles d; permissions := permissions d;
     role_permissions := v; user_roles := user_roles d;
     board_permissions := board_permissions d;
     project_permissions := project_permissions d;
     user_groups := user_groups d;
     user_group_members := user_group_members d;
     board_group_permissions := board_group_permissions d;
     permission_audit_logs := permission_audit_logs d |}.

Definition set_user_roles v (d : DB) : DB :=
  {| workspaces := workspaces d; workspace_members := workspace_members d;
     boards := boards d; sdsi_projects := sdsi_projects d;
     workspace_roles := workspace_roles d; permissions := permissions d;
     role_permissions := role_permissions d; user_roles := v;
     board_permissions := board_permissions d;
     project_permissions := project_permissions d;
     user_groups := user_groups d;
     user_group_members := user_group_members d;
     board_group_permissions := board_group_permissions d;
     permission_audit_logs := permission_audit_logs d |}.

Definition set_board_permissions v (d : DB) : DB :=
  {| workspaces := workspaces d; workspace_members := workspace_members d;
     boards := boards d; sdsi_projects := sdsi_projects d;
     workspace_roles := workspace_roles d; permissions := permissions d;
     role_permissions := role_permissions d; user_roles := user_roles d;
     board_permissions := v;
     project_permissions := project_permissions d;
     user_groups := user_groups d;
     user_group_members := user_group_members d;
     board_group_permissions := board_group_permissions d;
     permission_audit_logs := permission_audit_logs d |}.

Definition set_project_permissions v (d : DB) : DB :=
  {| workspaces := workspaces d; workspace_members := workspace_members d;
     boards := boards d; sdsi_projects := sdsi_projects d;
     workspace_roles := workspace_roles d; permissions := permissions d;
     role_permissions := role_permissions d; user_roles := user_roles d;
     board_permissions := board_permissions d;
     project_permissions := v;
     user_groups := user_groups d;
     user_group_members := user_group_members d;
     board_group_permissions := board_group_permissions d;
     permission_audit_logs := permission_audit_logs d |}.

Definition set_user_group_members v (d : DB) : DB :=
  {| workspaces := workspaces d; workspace_members := workspace_members d;
     boards := boards d; sdsi_projects := sdsi_projects d;
     workspace_roles := workspace_roles d; permissions := permissions d;
     role_permissions := role_permissions d; user_roles := user_roles d;
     board_permissions := board_permissions d;
     project_permissions := project_permissions d;
     user_groups := user_groups d;
     user_group_members := v;
     board_group_permissions := board_group_permissions d;
     permission_audit_logs := permission_audit_logs d |}.

Definition set_board_group_permissions v (d : DB) : DB :=
  {| workspaces := workspaces d; workspace_members := workspace_members d;
     boards := boards d; sdsi_projects := sdsi_projects d;
     workspace_roles := workspace_roles d; permissions := permissions d;
     role_permissions := role_permissions d; user_roles := user_roles d;
     board_permissions := board_permissions d;
     project_permissions := project_permissions d;
     user_groups := user_groups d;
     user_group_members := user_group_members d;
     board_group_permissions := v;
     permission_audit_logs := permission_audit_logs d |}.

Definition set_permission_audit_logs v (d : DB) : DB :=
  {| workspaces := workspaces d; workspace_members := workspace_members d;
     boards := boards d; sdsi_projects := sdsi_projects d;
     workspace_roles := workspace_roles d; permissions := permissions d;
     role_permissions := role_permissions d; user_roles := user_roles d;
     board_permissions := board_permissions d;
     project_permissions := project_permissions d;
     user_groups := user_groups d;
     user_group_members := user_group_members d;
     board_group_permissions := board_group_permissions d;
     permission_audit_logs := v |}.

(** ** The handler monad *)

(** The relation a statement addresses; the fault oracle is asked per
    statement, with the statement's position in the run. *)
Inductive relation :=
| Pool | Transaction
| Workspaces | WorkspaceMembers | Boards | SdsiProjects
| WorkspaceRoles | Permissions | RolePermissions | UserRoles
| BoardPermissions | ProjectPermissions | UserGroupMembers
| PermissionAuditLogs.

(** What a handler can catch: a PostgreSQL error carrying a [code], a
    [TypeError] from reading a property of [undefined], or a failure of the
    storage layer itself. *)
Inductive js_error :=
| PgError (code : string)
| TypeError
| StorageFault.

Definition error_code (e : js_error) : option string :=
  match e with
  | PgError c => Some c
  | TypeError => None
  | StorageFault => None
  end.

(** [error.code === c] *)
Definition code_is (e : js_error) (c : string) : bool :=
  match error_code e with
  | Some c' => c' =? c
  | None => false
  end.

Definition unique_violation : js_error := PgError "23505".
Definition not_null_violation : js_error := PgError "23502".

Inductive log_level := LogError | LogWarn | LogInfo.

Record world := {
  store : DB;
  txn : option DB;
  clock : nat;
  faults : nat -> relation -> bool;
  uuid_generate_v4 : nat -> uuid;
  console : list (log_level * string) }.

Inductive outcome (A : Type) :=
| Done (a : A) (w : world)
| Thrown (e : js_error) (w : world).

Arguments Thrown {A} e w.

Definition M (A : Type) := world -> outcome A.

Definition ret {A} (a : A) : M A := fun w => Done a w.

Definition bind {A B} (m : M A) (k : A -> M B) : M B :=
  fun w => match m w with
           | Done a w' => k a w'
           | Thrown e w' => Thrown e w'
           end.

Definition throw {A} (e : js_error) : M A := fun w => Thrown e w.

(** [try { m } catch (e) { h e }] *)
Definition try_catch {A} (m : M A) (h : js_error -> M A) : M A :=
  fun w => match m w with
           | Done a w' => Done a w'
           | Thrown e w' => h e w'
           end.

(** [try { m } finally { f }] *)
Definition try_finally {A} (m : M A) (f : M unit) : M A :=
  fun w => match m w with
           | Done a w' =>
               match f w' with
               | Done _ w'' => Done a w''
               | Thrown e w'' => Thrown e w''
               end
           | Thrown e w' =>
               match f w' with
               | Done _ w'' => Thrown e w''
               | Thrown e' w'' => Thrown e' w''
               end
           end.

Notation "x <- m ;; k" := (bind m (fun x => k))
  (at level 61, m at next level, right associativity).
Notation "m ;;; k" := (bind m (fun _ => k))
  (at level 61, right associativity).

(** [for (const x of xs) { body x }] *)
Fixpoint for_of {A} (xs : list A) (body : A -> M unit) : M unit :=
  match xs with
  | [] => ret tt
  | x :: rest => body x ;;; for_of rest body
  end.

Definition world_of {A} (o : outcome A) : world :=
  match o with
  | Done _ w => w
  | Thrown _ w => w
  end.

Definition value_of {A} (o : outcome A) : option A :=
  match o with
  | Done a _ => Some a
  | Thrown _ _ => None
  end.

Definition with_store (d : DB) (w : world) : world :=
  {| store := d; txn := txn w; clock := clock w; faults := faults w;
     uuid_generate_v4 := uuid_generate_v4 w; console := console w |}.

Definition with_txn (t : option DB) (w : world) : world :=
  {| store := store w; txn := t; clock := clock w; faults := faults w;
     uuid_generate_v4 := uuid_generate_v4 w; console := console w |}.

(** Every round trip to the storage layer advances the clock and may be
    refused by the oracle. *)
Definition tick (w : world) : world :=
  {| store := store w; txn := txn w; clock := S (clock w);
     faults := faults w; uuid_generate_v4 := uuid_generate_v4 w;
     console := console w |}.

Definition round_trip (rel : relation) : M unit :=
  fun w =>
    if faults w (clock w) rel then Thrown StorageFault (tick w)
    else Done tt (tick w).

(** [logger.error(msg, error)] and friends. *)
Definition logger (lvl : log_level) (msg : string) : M unit :=
  fun w => Done tt {| store := store w; txn := txn w; clock := clock w;
                      faults := faults w;
                      uuid_generate_v4 := uuid_generate_v4 w;
                      console := console w ++ [(lvl, msg)] |}.

(** The value [DEFAULT uuid_generate_v4()] yields for the next statement. *)
Definition next_uuid : M uuid :=
  fun w => Done (uuid_generate_v4 w (clock w)) w.

(** The meaning of one statement: an error, or a result and a new store. *)
Definition statement (A : Type) := DB -> js_error + (A * DB).

(** [db.query(...)]: a pooled connection in autocommit mode. *)
Definition db_query {A} (rel : relation) (s : statement A) : M A :=
  round_trip rel ;;;
  (fun w => match s (store w) with
            | inl e => Thrown e w
            | inr (a, d) => Done a (with_store d w)
            end).

(** [client.query(...)]: the checked-out client; inside BEGIN ... COMMIT it
    works on the transaction's private copy. *)
Definition client_query {A} (rel : relation) (s : statement A) : M A :=
  round_trip rel ;;;
  (fun w => match txn w with
            | Some t =>
                match s t with
                | inl e => Thrown e w
                | inr (a, t') => Done a (with_txn (Some t') w)
                end
            | None =>
                match s (store w) with
                | inl e => Thrown e w
                | inr (a, d) => Done a (with_store d w)
                end
            end).

Definition pool_connect : M unit := round_trip Pool.

Definition client_BEGIN : M unit :=
  round_trip Transaction ;;;
  (fun w => Done tt (with_txn (Some (store w)) w)).

Definition client_COMMIT : M unit :=
  round_trip Transaction ;;;
  (fun w => match txn w with
            | Some t => Done tt (with_txn None (with_store t w))
            | None => Done tt w
            end).

Definition client_ROLLBACK : M unit :=
  round_trip Transaction ;;;
  (fun w => Done tt (with_txn None w)).

(** The connection goes back to the pool; an open transaction on it is
    never committed. *)
Definition client_release : M unit :=
  fun w => Done tt (with_txn None w).

(** A SELECT. *)
Definition reading {A} (f : DB -> A) : statement A :=
  fun d => inr (f d, d).

(** A write that cannot violate a constraint. *)
Definition writing (f : DB -> DB) : statement unit :=
  fun d => inr (tt, f d).

(** A world in which the storage layer never fails. *)
Definition quiet (ids : nat -> uuid) (d : DB) : world :=
  {| store := d; txn := None; clock := 0; faults := fun _ _ => false;
     uuid_generate_v4 := ids; console := [] |}.

(** ** Responses *)

Inductive payload :=
| ErrorBody (error : string)
| MessageBody (message : string)
| ValidationErrors
| RoleBody (id name : string) (description : option string)
           (color : string) (permissions : list string)
| WorkspaceBody (id name : string) (ownerId : uuid).

(** What a middleware or a handler does with the request: hand over to the
    next handler, or answer. *)
Inductive reply (A : Type) :=
| Next (a : A)
| Send (status : nat) (body : payload).

Arguments Send {A} status body.

Definition response := reply unit.

(** Run a middleware, then the handler it guards. *)
Definition guarded {A} (mw : M (reply A)) (h : A -> M response) : M response :=
  r <- mw ;;
  match r with
  | Next a => h a
  | Send s b => ret (Send s b)
  end.

(** [a || dflt] where [dflt] is a non-empty literal. *)
Definition js_or_default (a : option string) (dflt : string) : string :=
  match a with
  | Some s => if s =? EmptyString then dflt else s
  | None => dflt
  end.

Definition owner_or_admin : list string := ["owner"; "admin"].

(** ** Statements *)

(** SELECT role FROM workspace_members WHERE workspace_id = $1 AND user_id = $2 *)
Definition select_member_role (workspaceId userId : uuid) (d : DB)
  : list string :=
  map wm_role
    (filter (fun wm => (wm_workspace_id wm =? workspaceId)
                       && (wm_user_id wm =? userId))
            (workspace_members d)).

(** SELECT b.*, wm.role as workspace_role FROM boards b
    JOIN workspace_members wm ON wm.workspace_id = b.workspace_id
    WHERE b.id = $1 AND wm.user_id = $2 *)
Definition select_board_with_role (boardId userId : uuid) (d : DB)
  : list (boards_row * string) :=
  flat_map
    (fun b =>
       map (fun wm => (b, wm_role wm))
           (filter (fun wm => (wm_workspace_id wm =? b_workspace_id b)
                              && (wm_user_id wm =? userId))
                   (workspace_members d)))
    (filter (fun b => b_id b =? boardId) (boards d)).

(** SELECT COUNT( * ) FROM user_roles ur
    JOIN role_permissions rp ON rp.role_id = ur.role_id
    JOIN permissions p ON p.id = rp.permission_id
    WHERE ur.user_id = $1 AND ur.workspace_id = $2 AND p.code = $3 *)
Definition count_user_permission (userId workspaceId : uuid)
  (permissionCode : string) (d : DB) : nat :=
  List.length
    (flat_map
       (fun ur =>
          flat_map
            (fun rp =>
               filter (fun p => (p_id p =? rp_permission_id rp)
                                && (p_code p =? permissionCode))
                      (permissions d))
            (filter (fun rp => rp_role_id rp =? ur_role_id ur)
                    (role_permissions d)))
       (filter (fun ur => (ur_user_id ur =? userId)
                          && (ur_workspace_id ur =? workspaceId))
               (user_roles d))).

(** SELECT id FROM permissions WHERE code = $1 *)
Definition select_permission_id (permCode : string) (d : DB) : list uuid :=
  map p_id (filter (fun p => p_code p =? permCode) (permissions d)).

(** INSERT INTO workspace_roles (workspace_id, name, description, color)
    VALUES ($1, $2, $3, $4) RETURNING *
    with id DEFAULT uuid_generate_v4(), PRIMARY KEY (id) and
    UNIQUE(workspace_id, name). *)
Definition insert_workspace_role (id workspaceId : uuid) (name : string)
  (description : option string) (color : string)
  : statement workspace_roles_row :=
  fun d =>
    if existsb (fun r => (r_id r =? id)
                         || ((r_workspace_id r =? workspaceId)
                             && (r_name r =? name)))
               (workspace_roles d)
    then inl unique_violation
    else
      let row := {| r_id := id; r_workspace_id := workspaceId;
                    r_name := name; r_description := description;
                    r_color := color |} in
      inr (row, set_workspace_roles (workspace_roles d ++ [row]) d).

Definition has_role_permission (roleId permissionId : uuid) (d : DB) : bool :=
  existsb (fun rp => (rp_role_id rp =? roleId)
                     && (rp_permission_id rp =? permissionId))
          (role_permissions d).

Definition add_role_permission (roleId permissionId : uuid) (d : DB) : DB :=
  set_role_permissions
    (role_permissions d
       ++ [{| rp_role_id := roleId; rp_permission_id := permissionId |}]) d.

(** INSERT INTO role_permissions (role_id, permission_id) VALUES ($1, $2)
    ON CONFLICT DO NOTHING, under UNIQUE(role_id, permission_id). *)
Definition insert_role_permission_do_nothing (roleId permissionId : uuid)
  : statement unit :=
  fun d =>
    if has_role_permission roleId permissionId d then inr (tt, d)
    else inr (tt, add_role_permission roleId permissionId d).

(** INSERT INTO role_permissions (role_id, permission_id) VALUES ($1, $2),
    under UNIQUE(role_id, permission_id). *)
Definition insert_role_permission (roleId permissionId : uuid)
  : statement unit :=
  fun d =>
    if has_role_permission roleId permissionId d then inl unique_violation
    else inr (tt, add_role_permission roleId permissionId d).

(** DELETE FROM role_permissions WHERE role_id = $1 *)
Definition delete_role_permissions (roleId : uuid) : statement unit :=
  writing (fun d =>
    set_role_permissions
      (filter (fun rp => negb (rp_role_id rp =? roleId)) (role_permissions d))
      d).

(** INSERT INTO permission_audit_logs (...) VALUES (...) *)
Definition insert_audit_log (row : permission_audit_logs_row)
  : statement unit :=
  writing (fun d =>
    set_permission_audit_logs (permission_audit_logs d ++ [row]) d).

(** SELECT r.*, wm.role as member_role FROM workspace_roles r
    JOIN workspace_members wm
      ON wm.workspace_id = r.workspace_id AND wm.user_id = $2
    WHERE r.id = $1 *)
Definition select_role_with_member_role (roleId userId : uuid) (d : DB)
  : list (workspace_roles_row * string) :=
  flat_map
    (fun r =>
       map (fun wm => (r, wm_role wm))
           (filter (fun wm => (wm_workspace_id wm =? r_workspace_id r)
                              && (wm_user_id wm =? userId))
                   (workspace_members d)))
    (filter (fun r => r_id r =? roleId) (workspace_roles d)).

Definition or_keep {A} (v : option A) (old : A) : A :=
  match v with
  | Some x => x
  | None => old
  end.

(** UPDATE workspace_roles SET name = .., description = .., color = ..
    WHERE id = $n, listing only the fields that are not undefined;
    UNIQUE(workspace_id, name) is checked for the rows it changes. *)
Definition update_workspace_role (roleId : uuid)
  (name description color : option string) : statement unit :=
  fun d =>
    let clash :=
      match name with
      | None => false
      | Some n =>
          existsb
            (fun r =>
               (r_id r =? roleId)
               && existsb (fun r' => negb (r_id r' =? roleId)
                                     && (r_workspace_id r' =? r_workspace_id r)
                                     && (r_name r' =? n))
                          (workspace_roles d))
            (workspace_roles d)
      end in
    if clash then inl unique_violation
    else
      inr (tt,
           set_workspace_roles
             (map (fun r =>
                     if r_id r =? roleId
                     then {| r_id := r_id r;
                             r_workspace_id := r_workspace_id r;
                             r_name := or_keep name (r_name r);
                             r_description :=
                               match description with
                               | Some x => Some x
                               | None => r_description r
                               end;
                             r_color := or_keep color (r_color r) |}
                     else r)
                  (workspace_roles d))
             d).

(** DELETE FROM workspace_roles WHERE id = $1; role_permissions.role_id and
    user_roles.role_id both REFERENCES workspace_roles(id) ON DELETE CASCADE. *)
Definition delete_workspace_role (roleId : uuid) : statement unit :=
  writing (fun d =>
    set_workspace_roles
      (filter (fun r => negb (r_id r =? roleId)) (workspace_roles d))
      (set_role_permissions
         (filter (fun rp => negb (rp_role_id rp =? roleId))
                 (role_permissions d))
         (set_user_roles
            (filter (fun ur => negb (ur_role_id ur =? roleId)) (user_roles d))
            d))).

(** INSERT INTO user_roles (user_id, workspace_id, role_id, assigned_by)
    VALUES ($1, $2, $3, $4)
    ON CONFLICT (user_id, workspace_id, role_id) DO NOTHING *)
Definition insert_user_role (userId workspaceId roleId assignedBy : uuid)
  : statement unit :=
  writing (fun d =>
    if existsb (fun ur => (ur_user_id ur =? userId)
                          && (ur_workspace_id ur =? workspaceId)
                          && (ur_role_id ur =? roleId))
               (user_roles d)
    then d
    else set_user_roles
           (user_roles d
              ++ [{| ur_user_id := userId; ur_workspace_id := workspaceId;
                     ur_role_id := roleId; ur_assigned_by := assignedBy |}])
           d).

(** DELETE FROM user_roles
    WHERE user_id = $1 AND role_id = $2 AND workspace_id = $3 *)
Definition delete_user_role (userId roleId workspaceId : uuid)
  : statement unit :=
  writing (fun d =>
    set_user_roles
      (filter (fun ur => negb ((ur_user_id ur =? userId)
                               && (ur_role_id ur =? roleId)
                               && (ur_workspace_id ur =? workspaceId)))
              (user_roles d))
      d).

(** The right-hand side of a LEFT JOIN: the matching rows, or one NULL. *)
Definition left_join {A B} (rows : list A) (f : A -> B) : list (option B) :=
  match rows with
  | [] => [None]
  | _ => map (fun r => Some (f r)) rows
  end.

(** SELECT bp.permission_level, b.workspace_id FROM boards b
    LEFT JOIN board_permissions bp ON bp.board_id = b.id AND bp.user_id = $2
    LEFT JOIN workspace_members wm
      ON wm.workspace_id = b.workspace_id AND wm.user_id = $2
    WHERE b.id = $1 *)

Definition select_board_level (boardId userId : uuid) (d : DB)
  : list (option string * uuid) :=
  flat_map
    (fun b =>
       flat_map
         (fun lvl =>
            map (fun _ => (lvl, b_workspace_id b))
                (left_join
                   (filter (fun wm => (wm_workspace_id wm =? b_workspace_id b)
                                      && (wm_user_id wm =? userId))
                           (workspace_members d))
                   wm_role))
         (left_join
            (filter (fun bp => (xp_resource_id bp =? b_id b)
                               && (xp_user_id bp =? userId))
                    (board_permissions d))
            xp_permission_level))
    (filter (fun b => b_id b =? boardId) (boards d)).

(** INSERT INTO t (resource_id, user_id, permission_level, granted_by)
    VALUES ($1, $2, $3, $4)
    ON CONFLICT (resource_id, user_id) DO UPDATE SET permission_level = $3,
    with permission_level NOT NULL. *)
Definition upsert_rows (resourceId userId : uuid) (level : string)
  (grantedBy : uuid) (rows : list resource_permissions_row)
  : list resource_permissions_row :=
  if existsb (fun x => (xp_resource_id x =? resourceId)
                       && (xp_user_id x =? userId)) rows
  then map (fun x =>
              if (xp_resource_id x =? resourceId) && (xp_user_id x =? userId)
              then {| xp_resource_id := xp_resource_id x;
                      xp_user_id := xp_user_id x;
                      xp_permission_level := level;
                      xp_granted_by := xp_granted_by x |}
              else x) rows
  else rows ++ [{| xp_resource_id := resourceId; xp_user_id := userId;
                   xp_permission_level := level;
                   xp_granted_by := grantedBy |}].

Definition upsert_board_permission (boardId userId : uuid)
  (permissionLevel : option string) (grantedBy : uuid) : statement unit :=
  fun d =>
    match permissionLevel with
    | None => inl not_null_violation
    | Some level =>
        inr (tt, set_board_permissions
                   (upsert_rows boardId userId level grantedBy
                                (board_permissions d)) d)
    end.

Definition upsert_project_permission (projectId userId : uuid)
  (permissionLevel : option string) (grantedBy : uuid) : statement unit :=
  fun d =>
    match permissionLevel with
    | None => inl not_null_violation
    | Some level =>
        inr (tt, set_project_permissions
                   (upsert_rows projectId userId level grantedBy
                                (project_permissions d)) d)
    end.

Definition delete_rows (resourceId userId : uuid)
  (rows : list resource_permissions_row) : list resource_permissions_row :=
  filter (fun x => negb ((xp_resource_id x =? resourceId)
                         && (xp_user_id x =? userId))) rows.

(** DELETE FROM board_permissions WHERE board_id = $1 AND user_id = $2 *)
Definition delete_board_permission (boardId userId : uuid) : statement unit :=
  writing (fun d =>
    set_board_permissions (delete_rows boardId userId (board_permissions d)) d).

(** DELETE FROM project_permissions WHERE project_id = $1 AND user_id = $2 *)
Definition delete_project_permission (projectId userId : uuid)
  : statement unit :=
  writing (fun d =>
    set_project_permissions
      (delete_rows projectId userId (project_permissions d)) d).

(** SELECT p.workspace_id FROM sdsi_projects p WHERE p.id = $1 *)
Definition select_project_workspace (projectId : uuid) (d : DB) : list uuid :=
  map sp_workspace_id (filter (fun p => sp_id p =? projectId) (sdsi_projects d)).

(** INSERT INTO user_group_members (group_id, user_id) VALUES ($1, $2)
    ON CONFLICT DO NOTHING, under UNIQUE(group_id, user_id). *)
Definition insert_group_member (groupId userId : uuid) : statement unit :=
  writing (fun d =>
    if existsb (fun m => (ugm_group_id m =? groupId)
                         && (ugm_user_id m =? userId))
               (user_group_members d)
    then d
    else set_user_group_members
           (user_group_members d
              ++ [{| ugm_group_id := groupId; ugm_user_id := userId |}]) d).

(** DELETE FROM user_group_members WHERE group_id = $1 AND user_id = $2 *)
Definition delete_group_member (groupId userId : uuid) : statement unit :=
  writing (fun d =>
    set_user_group_members
      (filter (fun m => negb ((ugm_group_id m =? groupId)
                              && (ugm_user_id m =? userId)))
              (user_group_members d)) d).

(** INSERT INTO workspaces (name, description, icon, color, owner_id)
    VALUES (...) RETURNING *, with id DEFAULT uuid_generate_v4() as the
    primary key. *)
Definition insert_workspace (id : uuid) (name : string) (ownerId : uuid)
  : statement workspaces_row :=
  fun d =>
    if existsb (fun w => w_id w =? id) (workspaces d)
    then inl unique_violation
    else
      let row := {| w_id := id; w_name := name; w_owner_id := ownerId |} in
      inr (row, set_workspaces (workspaces d ++ [row]) d).

(** INSERT INTO workspace_members (workspace_id, user_id, role)
    VALUES ($1, $2, $3), under UNIQUE(workspace_id, user_id). *)
Definition insert_workspace_member (workspaceId userId : uuid) (role : string)
  : statement unit :=
  fun d =>
    if existsb (fun wm => (wm_workspace_id wm =? workspaceId)
                          && (wm_user_id wm =? userId))
               (workspace_members d)
    then inl unique_violation
    else inr (tt, set_workspace_members
                    (workspace_members d
                       ++ [{| wm_workspace_id := workspaceId;
                              wm_user_id := userId; wm_role := role;
                              wm_invited_by := None |}]) d).

(** SELECT owner_id FROM workspaces WHERE id = $1 *)
Definition select_owner_id (workspaceId : uuid) (d : DB) : list uuid :=
  map w_owner_id (filter (fun w => w_id w =? workspaceId) (workspaces d)).

(** What UPDATE workspace_members SET role = $1
    WHERE workspace_id = $2 AND user_id = $3 does to one row. *)
Definition set_role_where (role : string) (workspaceId userId : uuid)
  (wm : workspace_members_row) : workspace_members_row :=
  if (wm_workspace_id wm =? workspaceId) && (wm_user_id wm =? userId)
  then {| wm_workspace_id := wm_workspace_id wm;
          wm_user_id := wm_user_id wm;
          wm_role := role;
          wm_invited_by := wm_invited_by wm |}
  else wm.

(** UPDATE workspace_members SET role = $1
    WHERE workspace_id = $2 AND user_id = $3 *)
Definition update_member_role (role : string) (workspaceId userId : uuid)
  : statement unit :=
  writing (fun d =>
    set_workspace_members
      (map (set_role_where role workspaceId userId) (workspace_members d)) d).

(** DELETE FROM workspace_members WHERE workspace_id = $1 AND user_id = $2 *)
Definition delete_workspace_member (workspaceId userId : uuid)
  : statement unit :=
  writing (fun d =>
    set_workspace_members
      (filter (fun wm => negb ((wm_workspace_id wm =? workspaceId)
                               && (wm_user_id wm =? userId)))
              (workspace_members d)) d).

(** UPDATE workspaces SET owner_id = $1 WHERE id = $2 *)
Definition update_workspace_owner (ownerId workspaceId : uuid)
  : statement unit :=
  writing (fun d =>
    set_workspaces
      (map (fun w =>
              if w_id w =? workspaceId
              then {| w_id := w_id w; w_name := w_name w;
                      w_owner_id := ownerId |}
              else w)
           (workspaces d)) d).

(** ** Middleware ([middleware/auth.middleware]) *)

Definition checkWorkspaceAccess (userId : uuid)
  (params_workspaceId body_workspaceId : option string) : M (reply string) :=
  try_catch
    (let workspaceId := js_or params_workspaceId body_workspaceId in
     match truthy workspaceId with
     | None => ret (Send 400 (ErrorBody "ID du workspace requis"))
     | Some workspaceId =>
         result <- db_query WorkspaceMembers
                     (reading (select_member_role workspaceId userId)) ;;
         match result with
         | [] => ret (Send 403 (ErrorBody "Accès au workspace non autorisé"))
         | role :: _ => ret (Next role)
         end
     end)
    (fun error =>
       logger LogError "Workspace access check error:" ;;;
       ret (Send 500 (ErrorBody "Erreur de vérification d'accès"))).

Definition checkBoardAccess (userId : uuid)
  (params_boardId body_boardId : option string)
  : M (reply (boards_row * string)) :=
  try_catch
    (let boardId := js_or params_boardId body_boardId in
     match truthy boardId with
     | None => ret (Send 400 (ErrorBody "ID du board requis"))
     | Some boardId =>
         result <- db_query Boards
                     (reading (select_board_with_role boardId userId)) ;;
         match result with
         | [] => ret (Send 403 (ErrorBody "Accès au board non autorisé"))
         | row :: _ => ret (Next row)
         end
     end)
    (fun error =>
       logger LogError "Board access check error:" ;;;
       ret (Send 500 (ErrorBody "Erreur de vérification d'accès"))).

Definition checkPermission (permissionCode : string) (userId : uuid)
  (params_workspaceId body_workspaceId : option string) : M (reply unit) :=
  try_catch
    (let workspaceId := js_or params_workspaceId body_workspaceId in
     match truthy workspaceId with
     | None => ret (Send 400 (ErrorBody "ID du workspace requis"))
     | Some workspaceId =>
         memberResult <- db_query WorkspaceMembers
                           (reading (select_member_role workspaceId userId)) ;;
         match memberResult with
         | [] => ret (Send 403 (ErrorBody "Accès au workspace non autorisé"))
         | wsRole :: _ =>
             if includes owner_or_admin wsRole then ret (Next tt)
             else
               count <- db_query UserRoles
                          (reading (count_user_permission
                                      userId workspaceId permissionCode)) ;;
               if Nat.ltb 0 count then ret (Next tt)
               else ret (Send 403
                           (ErrorBody ("Permission " ++ dquote
                                         ++ permissionCode ++ dquote
                                         ++ " requise")))
         end
     end)
    (fun error =>
       logger LogError "Permission check error:" ;;;
       ret (Send 500 (ErrorBody "Erreur de vérification des permissions"))).

(** ** Roles and overrides ([routes/permission.routes]) *)

(** [accessCheck.rows.length === 0 ||
     !['owner', 'admin'].includes(accessCheck.rows[0].role)] *)
Definition not_admin (rows : list string) : bool :=
  match rows with
  | [] => true
  | role :: _ => negb (includes owner_or_admin role)
  end.

(** POST /roles.  [errors_isEmpty] is the verdict of the express-validator
    chain (workspaceId is a UUID, the trimmed name is not empty). *)
Definition createRole (userId : uuid) (errors_isEmpty : bool)
  (workspaceId : uuid) (name : string) (description color : option string)
  (permissions : option (list string)) : M response :=
  try_catch
    (if negb errors_isEmpty then ret (Send 400 ValidationErrors)
     else
       accessCheck <- db_query WorkspaceMembers
                        (reading (select_member_role workspaceId userId)) ;;
       if not_admin accessCheck
       then ret (Send 403 (ErrorBody "Accès non autorisé"))
       else
         pool_connect ;;;
         try_finally
           (try_catch
              (client_BEGIN ;;;
               id <- next_uuid ;;
               role <- client_query WorkspaceRoles
                         (insert_workspace_role id workspaceId name description
                            (js_or_default color "#6366f1")) ;;
               match permissions with
               | Some ((_ :: _) as codes) =>
                   for_of codes (fun permCode =>
                     permResult <- client_query Permissions
                                     (reading (select_permission_id permCode)) ;;
                     match permResult with
                     | permission_id :: _ =>
                         client_query RolePermissions
                           (insert_role_permission_do_nothing
                              (r_id role) permission_id)
                     | [] => ret tt
                     end)
               | _ => ret tt
               end ;;;
               client_COMMIT ;;;
               db_query PermissionAuditLogs
                 (insert_audit_log
                    {| al_workspace_id := workspaceId;
                       al_action := "role_created";
                       al_entity_type := "role";
                       al_entity_id := r_id role;
                       al_target_user_id := None;
                       al_performed_by := userId;
                       al_old_value := None;
                       al_new_value := Some (JRole name permissions) |}) ;;;
               ret (Send 201
                      (RoleBody (r_id role) (r_name role) (r_description role)
                                (r_color role)
                                (match permissions with
                                 | Some codes => codes
                                 | None => []
                                 end))))
              (fun e => client_ROLLBACK ;;; throw e))
           client_release)
    (fun error =>
       logger LogError "Create role error:" ;;;
       if code_is error "23505"
       then ret (Send 400 (ErrorBody "Un rôle avec ce nom existe déjà"))
       else ret (Send 500 (ErrorBody "Erreur"))).

(** [roleCheck.rows.length === 0 ||
     !['owner', 'admin'].includes(roleCheck.rows[0].member_role)] *)
Definition role_not_admin (rows : list (workspace_roles_row * string)) : bool :=
  match rows with
  | [] => true
  | (_, member_role) :: _ => negb (includes owner_or_admin member_role)
  end.

Definition is_some {A} (o : option A) : bool :=
  match o with
  | Some _ => true
  | None => false
  end.

(** PUT /roles/:roleId: the statements from BEGIN to COMMIT and the answer
    that follows them. *)
Definition updateRole_block (roleId : uuid)
  (name description color : option string)
  (permissions : option (list string)) : M response :=
  client_BEGIN ;;;
  (if is_some name || is_some description || is_some color
   then client_query WorkspaceRoles
          (update_workspace_role roleId name description color)
   else ret tt) ;;;
  match permissions with
  | Some codes =>
      client_query RolePermissions (delete_role_permissions roleId) ;;;
      for_of codes (fun permCode =>
        permResult <- client_query Permissions
                        (reading (select_permission_id permCode)) ;;
        match permResult with
        | permission_id :: _ =>
            client_query RolePermissions
              (insert_role_permission roleId permission_id)
        | [] => ret tt
        end)
  | None => ret tt
  end ;;;
  client_COMMIT ;;;
  ret (Send 200 (MessageBody "Rôle mis à jour")).

(** PUT /roles/:roleId *)
Definition updateRole (userId roleId : uuid)
  (name description color : option string)
  (permissions : option (list string)) : M response :=
  try_catch
    (roleCheck <- db_query WorkspaceRoles
                    (reading (select_role_with_member_role roleId userId)) ;;
     if role_not_admin roleCheck
     then ret (Send 403 (ErrorBody "Accès non autorisé"))
     else
       pool_connect ;;;
       try_finally
         (try_catch
            (updateRole_block roleId name description color permissions)
            (fun e => client_ROLLBACK ;;; throw e))
         client_release)
    (fun error =>
       logger LogError "Update role error:" ;;;
       ret (Send 500 (ErrorBody "Erreur"))).

(** DELETE /roles/:roleId *)
Definition deleteRole (userId roleId : uuid) : M response :=
  try_catch
    (roleCheck <- db_query WorkspaceRoles
                    (reading (select_role_with_member_role roleId userId)) ;;
     if role_not_admin roleCheck
     then ret (Send 403 (ErrorBody "Accès non autorisé"))
     else
       db_query WorkspaceRoles (delete_workspace_role roleId) ;;;
       ret (Send 200 (MessageBody "Rôle supprimé")))
    (fun error =>
       logger LogError "Delete role error:" ;;;
       ret (Send 500 (ErrorBody "Erreur"))).

(** POST /users/:userId/roles *)
Definition assignRole (requester userId workspaceId roleId : uuid)
  : M response :=
  try_catch
    (accessCheck <- db_query WorkspaceMembers
                      (reading (select_member_role workspaceId requester)) ;;
     if not_admin accessCheck
     then ret (Send 403 (ErrorBody "Accès non autorisé"))
     else
       db_query UserRoles
         (insert_user_role userId workspaceId roleId requester) ;;;
       db_query PermissionAuditLogs
         (insert_audit_log
            {| al_workspace_id := workspaceId;
               al_action := "role_assigned";
               al_entity_type := "user_role";
               al_entity_id := roleId;
               al_target_user_id := Some userId;
               al_performed_by := requester;
               al_old_value := None;
               al_new_value := None |}) ;;;
       ret (Send 200 (MessageBody "Rôle assigné")))
    (fun error =>
       logger LogError "Assign role error:" ;;;
       ret (Send 500 (ErrorBody "Erreur"))).

(** DELETE /users/:userId/roles/:roleId *)
Definition removeRole (requester userId roleId workspaceId : uuid)
  : M response :=
  try_catch
    (accessCheck <- db_query WorkspaceMembers
                      (reading (select_member_role workspaceId requester)) ;;
     if not_admin accessCheck
     then ret (Send 403 (ErrorBody "Accès non autorisé"))
     else
       db_query UserRoles (delete_user_role userId roleId workspaceId) ;;;
       ret (Send 200 (MessageBody "Rôle retiré")))
    (fun error =>
       logger LogError "Remove role error:" ;;;
       ret (Send 500 (ErrorBody "Erreur"))).

(** POST /boards/:boardId/users/:userId *)
Definition setBoardPermission (requester boardId userId : uuid)
  (permissionLevel : option string) : M response :=
  try_catch
    (accessCheck <- db_query Boards
                      (reading (select_board_level boardId requester)) ;;
     match accessCheck with
     | [] => ret (Send 404 (ErrorBody "Tableau non trouvé"))
     | (board_permission_level, board_workspace_id) :: _ =>
         let isAdmin :=
           match board_permission_level with
           | Some level => level =? "admin"
           | None => false
           end in
         wsAdmin <- db_query WorkspaceMembers
                      (reading (select_member_role board_workspace_id
                                                   requester)) ;;
         let isWsAdmin := negb (not_admin wsAdmin) in
         if negb isAdmin && negb isWsAdmin
         then ret (Send 403 (ErrorBody "Accès non autorisé"))
         else
           db_query BoardPermissions
             (upsert_board_permission boardId userId permissionLevel
                                      requester) ;;;
           ret (Send 200 (MessageBody "Permission mise à jour"))
     end)
    (fun error =>
       logger LogError "Set board permission error:" ;;;
       ret (Send 500 (ErrorBody "Erreur"))).

(** DELETE /boards/:boardId/users/:userId *)
Definition removeBoardPermission (boardId userId : uuid) : M response :=
  try_catch
    (db_query BoardPermissions (delete_board_permission boardId userId) ;;;
     ret (Send 200 (MessageBody "Permission retirée")))
    (fun error =>
       logger LogError "Remove board permission error:" ;;;
       ret (Send 500 (ErrorBody "Erreur"))).

(** POST /projects/:projectId/users/:userId *)
Definition setProjectPermission (requester projectId userId : uuid)
  (permissionLevel : option string) : M response :=
  try_catch
    (projectCheck <- db_query SdsiProjects
                       (reading (select_project_workspace projectId)) ;;
     match projectCheck with
     | [] => ret (Send 404 (ErrorBody "Projet non trouvé"))
     | workspace_id :: _ =>
         wsAdmin <- db_query WorkspaceMembers
                      (reading (select_member_role workspace_id requester)) ;;
         if not_admin wsAdmin
         then ret (Send 403 (ErrorBody "Accès non autorisé"))
         else
           db_query ProjectPermissions
             (upsert_project_permission projectId userId permissionLevel
                                        requester) ;;;
           ret (Send 200 (MessageBody "Permission mise à jour"))
     end)
    (fun error =>
       logger LogError "Set project permission error:" ;;;
       ret (Send 500 (ErrorBody "Erreur"))).

(** DELETE /projects/:projectId/users/:userId *)
Definition removeProjectPermission (projectId userId : uuid) : M response :=
  try_catch
    (db_query ProjectPermissions
       (delete_project_permission projectId userId) ;;;
     ret (Send 200 (MessageBody "Permission retirée")))
    (fun error =>
       logger LogError "Remove project permission error:" ;;;
       ret (Send 500 (ErrorBody "Erreur"))).

(** POST /groups/:groupId/members/:userId *)
Definition addGroupMember (groupId userId : uuid) : M response :=
  try_catch
    (db_query UserGroupMembers (insert_group_member groupId userId) ;;;
     ret (Send 200 (MessageBody "Membre ajouté")))
    (fun error =>
       logger LogError "Add group member error:" ;;;
       ret (Send 500 (ErrorBody "Erreur"))).

(** DELETE /groups/:groupId/members/:userId *)
Definition removeGroupMember (groupId userId : uuid) : M response :=
  try_catch
    (db_query UserGroupMembers (delete_group_member groupId userId) ;;;
     ret (Send 200 (MessageBody "Membre retiré")))
    (fun error =>
       logger LogError "Remove group member error:" ;;;
       ret (Send 500 (ErrorBody "Erreur"))).

(** ** Workspaces and members ([routes/workspace.routes],
    [routes/member.routes]) *)

(** POST / (create workspace).  [errors_isEmpty]: the trimmed name is not
    empty. *)
Definition createWorkspace (userId : uuid) (errors_isEmpty : bool)
  (name : string) : M response :=
  try_catch
    (if negb errors_isEmpty then ret (Send 400 ValidationErrors)
     else
       id <- next_uuid ;;
       workspace <- db_query Workspaces (insert_workspace id name userId) ;;
       db_query WorkspaceMembers
         (insert_workspace_member (w_id workspace) userId "owner") ;;;
       logger LogInfo "Workspace created" ;;;
       ret (Send 201 (WorkspaceBody (w_id workspace) (w_name workspace)
                                    (w_owner_id workspace))))
    (fun error =>
       logger LogError "Create workspace error:" ;;;
       ret (Send 500 (ErrorBody "Erreur lors de la création du workspace"))).

(** [body('role').isIn(['admin', 'member', 'viewer'])] *)
Definition assignable_roles : list string := ["admin"; "member"; "viewer"].

(** [workspace.rows[0].owner_id]: reading a property of [undefined] throws. *)
Definition first_owner_id (rows : list uuid) : M uuid :=
  match rows with
  | [] => throw TypeError
  | owner_id :: _ => ret owner_id
  end.

(** PUT /workspace/:workspaceId/members/:memberId/role, behind
    checkWorkspaceAccess. *)
Definition updateMemberRole (userId workspaceId memberId : uuid)
  (role : string) : M response :=
  guarded (checkWorkspaceAccess userId (Some workspaceId) None)
    (fun workspaceRole =>
       try_catch
         (if negb (workspaceRole =? "owner")
          then ret (Send 403
                      (ErrorBody "Seul le propriétaire peut modifier les rôles"))
          else if negb (includes assignable_roles role)
          then ret (Send 400 ValidationErrors)
          else
            workspace <- db_query Workspaces
                           (reading (select_owner_id workspaceId)) ;;
            owner_id <- first_owner_id workspace ;;
            if owner_id =? memberId
            then ret (Send 400
                        (ErrorBody
                           "Impossible de modifier le rôle du propriétaire"))
            else
              db_query WorkspaceMembers
                (update_member_role role workspaceId memberId) ;;;
              ret (Send 200 (MessageBody "Rôle mis à jour")))
         (fun error =>
            logger LogError "Update member role error:" ;;;
            ret (Send 500
                   (ErrorBody "Erreur lors de la mise à jour du rôle")))).

(** [targetMember.rows[0]?.role === 'admin'] *)
Definition first_is_admin (rows : list string) : bool :=
  match rows with
  | [] => false
  | role :: _ => role =? "admin"
  end.

(** DELETE /workspace/:workspaceId/members/:memberId, behind
    checkWorkspaceAccess. *)
Definition removeMember (userId workspaceId memberId : uuid) : M response :=
  guarded (checkWorkspaceAccess userId (Some workspaceId) None)
    (fun workspaceRole =>
       try_catch
         (if negb (memberId =? userId)
             && negb (includes owner_or_admin workspaceRole)
          then ret (Send 403 (ErrorBody "Permission insuffisante"))
          else
            workspace <- db_query Workspaces
                           (reading (select_owner_id workspaceId)) ;;
            owner_id <- first_owner_id workspace ;;
            if owner_id =? memberId
            then ret (Send 400
                        (ErrorBody "Le propriétaire ne peut pas être retiré"))
            else
              blocked <-
                (if (workspaceRole =? "admin") && negb (memberId =? userId)
                 then
                   targetMember <- db_query WorkspaceMembers
                                     (reading (select_member_role workspaceId
                                                                  memberId)) ;;
                   ret (first_is_admin targetMember)
                 else ret false) ;;
              if (blocked : bool)
              then ret (Send 403
                          (ErrorBody
                             "Un admin ne peut pas retirer un autre admin"))
              else
                db_query WorkspaceMembers
                  (delete_workspace_member workspaceId memberId) ;;;
                ret (Send 200 (MessageBody "Membre retiré avec succès")))
         (fun error =>
            logger LogError "Remove member error:" ;;;
            ret (Send 500 (ErrorBody "Erreur lors du retrait du membre")))).

(** POST /workspace/:workspaceId/transfer-ownership, behind
    checkWorkspaceAccess.  [errors_isEmpty]: newOwnerId is a UUID.  Of
    memberCheck only the number of rows is read. *)
Definition transferOwnership (userId workspaceId : uuid)
  (errors_isEmpty : bool) (newOwnerId : uuid) : M response :=
  guarded (checkWorkspaceAccess userId (Some workspaceId) None)
    (fun workspaceRole =>
       try_catch
         (if negb (workspaceRole =? "owner")
          then ret (Send 403
                      (ErrorBody
                         "Seul le propriétaire peut transférer la propriété"))
          else if negb errors_isEmpty then ret (Send 400 ValidationErrors)
          else
            memberCheck <- db_query WorkspaceMembers
                             (reading (select_member_role workspaceId
                                                          newOwnerId)) ;;
            match memberCheck with
            | [] =>
                ret (Send 400
                       (ErrorBody
                          "L'utilisateur doit être membre du workspace"))
            | _ :: _ =>
                pool_connect ;;;
                try_finally
                  (try_catch
                     (client_BEGIN ;;;
                      client_query Workspaces
                        (update_workspace_owner newOwnerId workspaceId) ;;;
                      client_query WorkspaceMembers
                        (update_member_role "owner" workspaceId newOwnerId) ;;;
                      client_query WorkspaceMembers
                        (update_member_role "admin" workspaceId userId) ;;;
                      client_COMMIT ;;;
                      ret (Send 200
                             (MessageBody "Propriété transférée avec succès")))
                     (fun err => client_ROLLBACK ;;; throw err))
                  client_release
            end)
         (fun error =>
            logger LogError "Transfer ownership error:" ;;;
            ret (Send 500
                   (ErrorBody "Erreur lors du transfert de propriété")))).

(** ** The API as a whole *)

Inductive call :=
| CreateWorkspace (userId : uuid) (errors_isEmpty : bool) (name : string)
| UpdateMemberRole (userId workspaceId memberId : uuid) (role : string)
| RemoveMember (userId workspaceId memberId : uuid)
| TransferOwnership (userId workspaceId : uuid) (errors_isEmpty : bool)
                    (newOwnerId : uuid)
| CreateRole (userId : uuid) (errors_isEmpty : bool) (workspaceId : uuid)
             (name : string) (description color : option string)
             (permissions : option (list string))
| UpdateRole (userId roleId : uuid) (name description color : option string)
             (permissions : option (list string))
| DeleteRole (userId roleId : uuid)
| AssignRole (requester userId workspaceId roleId : uuid)
| RemoveRole (requester userId roleId workspaceId : uuid)
| SetBoardPermission (requester boardId userId : uuid)
                     (permissionLevel : option string)
| RemoveBoardPermission (boardId userId : uuid)
| SetProjectPermission (requester projectId userId : uuid)
                       (permissionLevel : option string)
| RemoveProjectPermission (projectId userId : uuid)
| AddGroupMember (groupId userId : uuid)
| RemoveGroupMember (groupId userId : uuid).

Definition serve (c : call) : M response :=
  match c with
  | CreateWorkspace u ok n => createWorkspace u ok n
  | UpdateMemberRole u ws m r => updateMemberRole u ws m r
  | RemoveMember u ws m => removeMember u ws m
  | TransferOwnership u ws ok n => transferOwnership u ws ok n
  | CreateRole u ok ws n de co ps => createRole u ok ws n de co ps
  | UpdateRole u r n de co ps => updateRole u r n de co ps
  | DeleteRole u r => deleteRole u r
  | AssignRole q u ws r => assignRole q u ws r
  | RemoveRole q u r ws => removeRole q u r ws
  | SetBoardPermission q b u l => setBoardPermission q b u l
  | RemoveBoardPermission b u => removeBoardPermission b u
  | SetProjectPermission q p u l => setProjectPermission q p u l
  | RemoveProjectPermission p u => removeProjectPermission p u
  | AddGroupMember g u => addGroupMember g u
  | RemoveGroupMember g u => removeGroupMember g u
  end.

(** A request starts on an idle connection pool. *)
Definition idle (w : world) : Prop := txn w = None.

Definition fault_free (w : world) : Prop :=
  forall n rel, faults w n rel = false.

(** UNIQUE(board_id, group_id) *)
Definition unique_group_keys (rows : list board_group_permissions_row)
  : Prop :=
  forall boardId groupId,
    List.length
      (filter (fun x => (bgp_board_id x =? boardId)
                        && (bgp_group_id x =? groupId)) rows) <= 1.

(** The stores the API can produce from one in which the two per-user
    override tables are still empty (boards, projects, members, roles and
    the group overrides, which no route writes, may exist), whatever the
    storage layer does. *)
Inductive reachable : DB -> Prop :=
| reachable_fresh d :
    board_permissions d = [] -> project_permissions d = [] ->
    unique_group_keys (board_group_permissions d) -> reachable d
| reachable_serve d c w :
    reachable d -> store w = d -> idle w ->
    reachable (store (world_of (serve c w))).

(** The rows of an override table that carry a given key. *)
Definition rows_for (resourceId userId : uuid)
  (rows : list resource_permissions_row) : list resource_permissions_row :=
  filter (fun x => (xp_resource_id x =? resourceId) && (xp_user_id x =? userId))
         rows.

(** UNIQUE(resource_id, user_id) *)
Definition unique_keys (rows : list resource_permissions_row) : Prop :=
  forall resourceId userId,
    List.length (rows_for resourceId userId rows) <= 1.

(** The members of a workspace who hold the role 'owner'. *)
Definition owners (workspaceId : uuid) (d : DB) : list uuid :=
  map wm_user_id
    (filter (fun wm => (wm_workspace_id wm =? workspaceId)
                       && (wm_role wm =? "owner"))
            (workspace_members d)).

(** The codes a role grants: role_permissions joined with permissions. *)
Definition role_grants (roleId : uuid) (d : DB) : list string :=
  flat_map
    (fun rp => map p_code
                 (filter (fun p => p_id p =? rp_permission_id rp)
                         (permissions d)))
    (filter (fun rp => rp_role_id rp =? roleId) (role_permissions d)).

(** The requested codes that the catalog knows. *)
Definition known_codes (codes : list string) (d : DB) : list string :=
  filter (fun c => existsb (fun p => p_code p =? c) (permissions d)) codes.

(** ** The decision procedures as the specification words them *)

Inductive reason :=
| NotMember | RoleBypass | CustomRole | NoPermission
| OverrideLevel | InsufficientLevel.

Inductive Decision :=
| Allow (why : reason)
| Deny (why : reason).

Definition Membership (d : DB) (workspaceId principal : uuid)
  : option string :=
  hd_error (select_member_role workspaceId principal d).

Definition RoleAssignments (d : DB) (principal workspaceId : uuid)
  : list uuid :=
  map ur_role_id
    (filter (fun ur => (ur_user_id ur =? principal)
                       && (ur_workspace_id ur =? workspaceId))
            (user_roles d)).

(** Section 4.1: DecideWorkspace. *)
Definition DecideWorkspace (d : DB) (principal workspaceId : uuid)
  (permissionCode : string) : Decision :=
  match Membership d workspaceId principal with
  | None => Deny NotMember
  | Some role =>
      if includes owner_or_admin role then Allow RoleBypass
      else if includes
                (flat_map (fun r => role_grants r d)
                          (RoleAssignments d principal workspaceId))
                permissionCode
      then Allow CustomRole
      else Deny NoPermission
  end.

(** How checkPermission words a decision. *)
Definition answer (permissionCode : string) (dec : Decision) : reply unit :=
  match dec with
  | Allow _ => Next tt
  | Deny NotMember => Send 403 (ErrorBody "Accès au workspace non autorisé")
  | Deny _ =>
      Send 403 (ErrorBody ("Permission " ++ dquote ++ permissionCode
                             ++ dquote ++ " requise"))
  end.

(** The ordering view < edit < admin, with "none" below all. *)
Definition rank (level : option string) : nat :=
  match level with
  | Some l =>
      if l =? "view" then 1
      else if l =? "edit" then 2
      else if l =? "admin" then 3
      else 0
  | None => 0
  end.

Definition max_rank (levels : list (option string)) : nat :=
  fold_right (fun l acc => Nat.max (rank l) acc) 0 levels.

(** Section 4.2 step 3: the principal's own override on the board. *)
Definition directLevel (d : DB) (boardId principal : uuid) : nat :=
  max_rank (map (fun x => Some (xp_permission_level x))
                (rows_for boardId principal (board_permissions d))).

(** Section 4.2 step 4: the best override among the principal's groups of
    the workspace. *)
Definition groupLevel (d : DB) (boardId principal workspaceId : uuid) : nat :=
  max_rank
    (flat_map
       (fun g =>
          if existsb (fun m => (ugm_group_id m =? ug_id g)
                               && (ugm_user_id m =? principal))
                     (user_group_members d)
          then map (fun x => Some (bgp_permission_level x))
                   (filter (fun x => (bgp_board_id x =? boardId)
                                     && (bgp_group_id x =? ug_id g))
                           (board_group_permissions d))
          else [])
       (filter (fun g => ug_workspace_id g =? workspaceId) (user_groups d))).

(** Section 4.2: DecideResource on a board; [None] is ResourceNotFound. *)
Definition DecideResource (d : DB) (principal boardId : uuid)
  (requiredLevel : string) : option Decision :=
  match filter (fun b => b_id b =? boardId) (boards d) with
  | [] => None
  | b :: _ =>
      if match Membership d (b_workspace_id b) principal with
         | Some role => includes owner_or_admin role
         | None => false
         end
      then Some (Allow RoleBypass)
      else
        let effectiveLevel :=
          Nat.max (directLevel d boardId principal)
                  (groupLevel d boardId principal (b_workspace_id b)) in
        if Nat.leb (rank (Some requiredLevel)) effectiveLevel
        then Some (Allow OverrideLevel)
        else Some (Deny InsufficientLevel)
  end.

(** ** A small tenant

    Workspace [acme]: alice owns it, bob is a member holding the custom role
    "Budget Manager" (which grants budget.edit) and sits in the group
    [editors], carol is a viewer.  The group has the level admin on the
    board [roadmap]; nobody has an override of their own. *)

Definition alice : uuid := "a11ce000-0000-4000-8000-000000000001".
Definition bob : uuid := "b0b00000-0000-4000-8000-000000000002".
Definition carol : uuid := "ca201000-0000-4000-8000-000000000003".
Definition acme : uuid := "acfe0000-0000-4000-8000-0000000000aa".
Definition roadmap : uuid := "b0a2d000-0000-4000-8000-0000000000bb".
Definition editors : uuid := "ed170000-0000-4000-8000-0000000000cc".
Definition budget_manager : uuid := "201e0000-0000-4000-8000-0000000000dd".
Definition perm_budget_edit : uuid := "9e2f0000-0000-4000-8000-000000000010".
Definition perm_board_edit : uuid := "9e2f0000-0000-4000-8000-000000000011".
Definition perm_project_delete : uuid :=
  "9e2f0000-0000-4000-8000-000000000012".

Definition tenant : DB :=
  {| workspaces :=
       [{| w_id := acme; w_name := "Acme"; w_owner_id := alice |}];
     workspace_members :=
       [{| wm_workspace_id := acme; wm_user_id := alice; wm_role := "owner";
           wm_invited_by := None |};
        {| wm_workspace_id := acme; wm_user_id := bob; wm_role := "member";
           wm_invited_by := Some alice |};
        {| wm_workspace_id := acme; wm_user_id := carol; wm_role := "viewer";
           wm_invited_by := Some alice |}];
     boards := [{| b_id := roadmap; b_workspace_id := acme |}];
     sdsi_projects := [];
     workspace_roles :=
       [{| r_id := budget_manager; r_workspace_id := acme;
           r_name := "Budget Manager"; r_description := None;
           r_color := "#6366f1" |}];
     permissions :=
       [{| p_id := perm_budget_edit; p_code := "budget.edit" |};
        {| p_id := perm_board_edit; p_code := "board.edit" |};
        {| p_id := perm_project_delete; p_code := "project.delete" |}];
     role_permissions :=
       [{| rp_role_id := budget_manager;
           rp_permission_id := perm_budget_edit |}];
     user_roles :=
       [{| ur_user_id := bob; ur_workspace_id := acme;
           ur_role_id := budget_manager; ur_assigned_by := alice |}];
     board_permissions := [];
     project_permissions := [];
     user_groups := [{| ug_id := editors; ug_workspace_id := acme |}];
     user_group_members :=
       [{| ugm_group_id := editors; ugm_user_id := bob |}];
     board_group_permissions :=
       [{| bgp_board_id := roadmap; bgp_group_id := editors;
           bgp_permission_level := "admin" |}];
     permission_audit_logs := [] |}.

(** A source of identifiers for the examples. *)
Definition some_ids (n : nat) : uuid :=
  "1d000000-0000-4000-8000-0000000000ee".

(** ** Properties of the store that a computation maintains *)

(** [I] holds of the committed store and of the working copy of the open
    transaction, if there is one. *)
Definition holds (I : DB -> Prop) (w : world) : Prop :=
  I (store w) /\ match txn w with Some t => I t | None => True end.

Definition maintains (I : DB -> Prop) {A} (m : M A) : Prop :=
  forall w, holds I w -> holds I (world_of (m w)).

Definition keeps (I : DB -> Prop) {A} (s : statement A) : Prop :=
  forall d a d', I d -> s d = inr (a, d') -> I d'.

(** The audit table holds exactly the entries [L]. *)
Definition audit_is (L : list permission_audit_logs_row) (d : DB) : Prop :=
  permission_audit_logs d = L.


(** The test of the ON CONFLICT target and of the DELETE predicate. *)
Definition has_key (resourceId userId : uuid) (x : resource_permissions_row)
  : bool :=
  (xp_resource_id x =? resourceId) && (xp_user_id x =? userId).

(** ** The effect of the grant loops on the transaction's copy *)

(** POST /roles: look each code up, insert with ON CONFLICT DO NOTHING. *)
Fixpoint grant_known (roleId : uuid) (codes : list string) (t : DB) : DB :=
  match codes with
  | [] => t
  | permCode :: rest =>
      match select_permission_id permCode t with
      | permission_id :: _ =>
          grant_known roleId rest
            (if has_role_permission roleId permission_id t then t
             else add_role_permission roleId permission_id t)
      | [] => grant_known roleId rest t
      end
  end.

(** PUT /roles/:roleId: look each code up, insert; a second insert of the
    same pair violates UNIQUE(role_id, permission_id). *)
Fixpoint grant_strict (roleId : uuid) (codes : list string) (t : DB)
  : js_error + DB :=
  match codes with
  | [] => inr t
  | permCode :: rest =>
      match select_permission_id permCode t with
      | permission_id :: _ =>
          if has_role_permission roleId permission_id t
          then inl unique_violation
          else grant_strict roleId rest
                 (add_role_permission roleId permission_id t)
      | [] => grant_strict roleId rest t
      end
  end.

(** Two worlds that differ at most in the clock and the open transaction. *)
Definition same_env (w w' : world) : Prop :=
  store w' = store w /\ faults w' = faults w
  /\ uuid_generate_v4 w' = uuid_generate_v4 w /\ console w' = console w.

Definition is_audit (rel : relation) : bool :=
  match rel with
  | PermissionAuditLogs => true
  | _ => false
  end.

(** The storage layer answers every statement, except perhaps those on the
    audit table. *)
Definition spares_all_but_audit (w : world) : Prop :=
  forall n rel, is_audit rel = false -> faults w n rel = false.

(** A world whose storage layer refuses exactly the writes to the audit
    table. *)
Definition audit_down (ids : nat -> uuid) (d : DB) : world :=
  {| store := d; txn := None; clock := 0;
     faults := fun _ rel => is_audit rel;
     uuid_generate_v4 := ids; console := [] |}.


(** The UPDATE step of PUT /roles/:roleId, run only when a field is given. *)
Definition update_fields (roleId : uuid) (name description color : option string)
  : statement unit :=
  if is_some name || is_some description || is_some color
  then update_workspace_role roleId name description color
  else fun d => inr (tt, d).

(** What the transaction of PUT /roles/:roleId commits, if it commits. *)
Definition updateRole_commits (roleId : uuid)
  (name description color : option string)
  (permissions : option (list string)) (d : DB) : js_error + DB :=
  match update_fields roleId name description color d with
  | inl e => inl e
  | inr (_, d1) =>
      match permissions with
      | Some codes =>
          grant_strict roleId codes
            (set_role_permissions
               (filter (fun rp => negb (rp_role_id rp =? roleId))
                       (role_permissions d1)) d1)
      | None => inr d1
      end
  end.

(** The row the grant loop inserts for a code the catalog knows. *)
Definition grant_row (roleId : uuid) (t : DB) (code : string)
  : role_permissions_row :=
  {| rp_role_id := roleId;
     rp_permission_id := hd EmptyString (select_permission_id code t) |}.


(** ** Further middleware and routes *)

(** checkWorkspaceAdmin of [middleware/auth.middleware]. *)
Definition checkWorkspaceAdmin (userId : uuid)
  (params_workspaceId body_workspaceId : option string) : M (reply string) :=
  try_catch
    (let workspaceId := js_or params_workspaceId body_workspaceId in
     match truthy workspaceId with
     | None => ret (Send 400 (ErrorBody "ID du workspace requis"))
     | Some workspaceId =>
         result <- db_query WorkspaceMembers
                     (reading (select_member_role workspaceId userId)) ;;
         match result with
         | [] => ret (Send 403 (ErrorBody "Accès au workspace non autorisé"))
         | role :: _ =>
             if negb (includes owner_or_admin role)
             then ret (Send 403 (ErrorBody "Droits administrateur requis"))
             else ret (Next role)
         end
     end)
    (fun error =>
       logger LogError "Workspace admin check error:" ;;;
       ret (Send 500 (ErrorBody "Erreur de vérification d'accès"))).

(** DELETE /:workspaceId/members/:memberId of [routes/workspace.routes],
    behind checkWorkspaceAccess. *)
Definition removeWorkspaceMember (userId workspaceId memberId : uuid)
  : M response :=
  guarded (checkWorkspaceAccess userId (Some workspaceId) None)
    (fun workspaceRole =>
       try_catch
         (if negb (memberId =? userId)
             && negb (includes owner_or_admin workspaceRole)
          then ret (Send 403 (ErrorBody "Permission insuffisante"))
          else
            workspace <- db_query Workspaces
                           (reading (select_owner_id workspaceId)) ;;
            owner_id <- first_owner_id workspace ;;
            if owner_id =? memberId
            then ret (Send 400
                        (ErrorBody "Le propriétaire ne peut pas être retiré"))
            else
              db_query WorkspaceMembers
                (delete_workspace_member workspaceId memberId) ;;;
              ret (Send 200 (MessageBody "Membre retiré avec succès")))
         (fun error =>
            logger LogError "Remove member error:" ;;;
            ret (Send 500 (ErrorBody "Erreur lors du retrait du membre")))).

(** DELETE FROM workspaces WHERE id = $1.  The rows that reference the
    workspace go with it (ON DELETE CASCADE): its members, boards, projects,
    roles, role assignments, groups and audit entries, and in turn the rows
    that reference those boards, projects, roles and groups. *)
Definition delete_workspace (workspaceId : uuid) : statement unit :=
  writing (fun d =>
    let gone_boards :=
      map b_id (filter (fun b => b_workspace_id b =? workspaceId) (boards d)) in
    let gone_projects :=
      map sp_id (filter (fun p => sp_workspace_id p =? workspaceId)
                        (sdsi_projects d)) in
    let gone_roles :=
      map r_id (filter (fun r => r_workspace_id r =? workspaceId)
                       (workspace_roles d)) in
    let gone_groups :=
      map ug_id (filter (fun g => ug_workspace_id g =? workspaceId)
                        (user_groups d)) in
    {| workspaces :=
         filter (fun w => negb (w_id w =? workspaceId)) (workspaces d);
       workspace_members :=
         filter (fun wm => negb (wm_workspace_id wm =? workspaceId))
                (workspace_members d);
       boards :=
         filter (fun b => negb (b_workspace_id b =? workspaceId)) (boards d);
       sdsi_projects :=
         filter (fun p => negb (sp_workspace_id p =? workspaceId))
                (sdsi_projects d);
       workspace_roles :=
         filter (fun r => negb (r_workspace_id r =? workspaceId))
                (workspace_roles d);
       permissions := permissions d;
       role_permissions :=
         filter (fun rp => negb (includes gone_roles (rp_role_id rp)))
                (role_permissions d);
       user_roles :=
         filter (fun ur => negb (ur_workspace_id ur =? workspaceId)
                           && negb (includes gone_roles (ur_role_id ur)))
                (user_roles d);
       board_permissions :=
         filter (fun x => negb (includes gone_boards (xp_resource_id x)))
                (board_permissions d);
       project_permissions :=
         filter (fun x => negb (includes gone_projects (xp_resource_id x)))
                (project_permissions d);
       user_groups :=
         filter (fun g => negb (ug_workspace_id g =? workspaceId))
                (user_groups d);
       user_group_members :=
         filter (fun m => negb (includes gone_groups (ugm_group_id m)))
                (user_group_members d);
       board_group_permissions :=
         filter (fun x => negb (includes gone_boards (bgp_board_id x))
                          && negb (includes gone_groups (bgp_group_id x)))
                (board_group_permissions d);
       permission_audit_logs :=
         filter (fun e => negb (al_workspace_id e =? workspaceId))
                (permission_audit_logs d) |}).

(** DELETE /:workspaceId of [routes/workspace.routes], behind
    checkWorkspaceAccess. *)
Definition deleteWorkspace (userId workspaceId : uuid) : M response :=
  guarded (checkWorkspaceAccess userId (Some workspaceId) None)
    (fun workspaceRole =>
       try_catch
         (if negb (workspaceRole =? "owner")
          then ret (Send 403
                      (ErrorBody
                         "Seul le propriétaire peut supprimer le workspace"))
          else
            db_query Workspaces (delete_workspace workspaceId) ;;;
            ret (Send 200 (MessageBody "Workspace supprimé avec succès")))
         (fun error =>
            logger LogError "Delete workspace error:" ;;;
            ret (Send 500
                   (ErrorBody "Erreur lors de la suppression du workspace")))).

(** ** Ownership *)

(** UNIQUE(workspace_id, user_id) *)
Definition unique_members (rows : list workspace_members_row) : Prop :=
  forall workspaceId userId,
    List.length
      (filter (fun wm => (wm_workspace_id wm =? workspaceId)
                         && (wm_user_id wm =? userId)) rows) <= 1.

(** The primary key of workspaces, the key of workspace_members, and: a
    member who holds the role 'owner' is the owner the workspace records. *)
Definition owner_recorded (d : DB) : Prop :=
  NoDup (map w_id (workspaces d))
  /\ unique_members (workspace_members d)
  /\ forall wm, In wm (workspace_members d) -> wm_role wm = "owner" ->
                select_owner_id (wm_workspace_id wm) d = [wm_user_id wm].

(** What the transaction of the transfer-ownership route commits. *)
Definition transfer_commits (userId workspaceId newOwnerId : uuid) (d : DB)
  : DB :=
  set_workspace_members
    (map (set_role_where "admin" workspaceId userId)
       (map (set_role_where "owner" workspaceId newOwnerId)
          (workspace_members d)))
    (set_workspaces
       (map (fun x =>
               if w_id x =? workspaceId
               then {| w_id := w_id x; w_name := w_name x;
                       w_owner_id := newOwnerId |}
               else x)
          (workspaces d))
       d).



(** The two tables that say who owns a workspace hold exactly [W] and [Mb]. *)
Definition membership_is (W : list workspaces_row)
  (Mb : list workspace_members_row) (d : DB) : Prop :=
  workspaces d = W /\ workspace_members d = Mb.

(** The stores that requests to the modelled routes produce from [d0], each
    request starting on an idle pool, whatever the storage layer does. *)
Inductive served_from (d0 : DB) : DB -> Prop :=
| served_none : served_from d0 d0
| served_call d c w :
    served_from d0 d -> store w = d -> idle w ->
    served_from d0 (store (world_of (serve c w)))
| served_removeWorkspaceMember d userId workspaceId memberId w :
    served_from d0 d -> store w = d -> idle w ->
    served_from d0
      (store (world_of (removeWorkspaceMember userId workspaceId memberId w)))
| served_deleteWorkspace d userId workspaceId w :
    served_from d0 d -> store w = d -> idle w ->
    served_from d0 (store (world_of (deleteWorkspace userId workspaceId w))).


(** The audit table starts with the entries [L]. *)
Definition audit_extends (L : list permission_audit_logs_row) (d : DB)
  : Prop :=
  exists suffix, permission_audit_logs d = L ++ suffix.


(** ** CSV export ([routes/export.routes]) *)

Definition newline : string := String (ascii_of_nat 10) EmptyString.

(** U+FEFF as the response carries it (UTF-8). *)
Definition bom : string :=
  String (ascii_of_nat 239)
    (String (ascii_of_nat 187) (String (ascii_of_nat 191) EmptyString)).

(** [val.replace] with the global pattern for a double quote: every double
    quote is doubled. *)
Fixpoint replace_quotes (val : string) : string :=
  match val with
  | EmptyString => EmptyString
  | String c rest =>
      if Ascii.eqb c (ascii_of_nat 34)
      then String c (String c (replace_quotes rest))
      else String c (replace_quotes rest)
  end.

(** The template literal that wraps the escaped value in double quotes. *)
Definition csv_value (val : string) : string :=
  dquote ++ replace_quotes val ++ dquote.

(** The line pushed to csvRows for one row of exportData; [row h] stands for
    the string [row[h]] ends up as, after [|| ''] and [toString()]. *)
Definition csv_line (headers : list string) (row : string -> string)
  : string :=
  String.concat "," (map (fun h => csv_value (row h)) headers).

(** The body sent for [format === 'csv'], given the keys [headers] that
    Object.keys returned. *)
Definition csv (headers : list string) (exportData : list (string -> string))
  : string :=
  let csvRows :=
    String.concat "," headers :: map (csv_line headers) exportData in
  bom ++ String.concat newline csvRows.

(** A reader of CSV text in which every field is quoted (RFC 4180): inside
    quotes a doubled quote stands for one quote, a comma after the closing
    quote ends the field and a line feed ends the record. *)
Inductive reader_state := FieldStart | InQuotes | QuoteSeen.

Fixpoint read_quoted_csv (s : string) (st : reader_state) (field : string)
  (record : list string) (records : list (list string))
  : option (list (list string)) :=
  match s with
  | EmptyString =>
      match st with
      | QuoteSeen => Some (records ++ [record ++ [field]])
      | _ => None
      end
  | String c rest =>
      match st with
      | FieldStart =>
          if Ascii.eqb c (ascii_of_nat 34)
          then read_quoted_csv rest InQuotes EmptyString record records
          else None
      | InQuotes =>
          if Ascii.eqb c (ascii_of_nat 34)
          then read_quoted_csv rest QuoteSeen field record records
          else read_quoted_csv rest InQuotes
                 (field ++ String c EmptyString) record records
      | QuoteSeen =>
          if Ascii.eqb c (ascii_of_nat 34)
          then read_quoted_csv rest InQuotes (field ++ dquote) record records
          else if Ascii.eqb c (ascii_of_nat 44)
          then read_quoted_csv rest FieldStart EmptyString
                 (record ++ [field]) records
          else if Ascii.eqb c (ascii_of_nat 10)
          then read_quoted_csv rest FieldStart EmptyString []
                 (records ++ [record ++ [field]])
          else None
      end
  end.

(** ** Temporary passwords ([routes/member.routes]) *)

(** [s.charAt(i)]: the empty string when [i] is out of range. *)
Definition charAt (s : string) (i : nat) : string :=
  match String.get i s with
  | Some c => String c EmptyString
  | None => EmptyString
  end.

Definition temp_password_chars : string :=
  "ABCDEFGHJKLMNPQRSTUVWXYZabcdefghijkmnpqrstuvwxyz23456789".

(** The loop [for (let i = 0; i < 10; i++) password += chars.charAt(...)],
    [n] iterations from index [i] on; [random i] is the value of
    [Math.floor(Math.random() * chars.length)] in iteration [i]. *)
Fixpoint temp_password_loop (n i : nat) (random : nat -> nat)
  (password : string) : string :=
  match n with
  | 0 => password
  | S n' =>
      temp_password_loop n' (S i) random
        (password ++ charAt temp_password_chars (random i))
  end.

Definition generateTempPassword (random : nat -> nat) : string :=
  temp_password_loop 10 0 random EmptyString.

(** * Properties *)

(** ** Running a handler when the storage layer does not fail *)

Lemma fault_free_tick w : fault_free w -> fault_free (tick w).
Proof. intros H n rel. apply H. Qed.

Lemma fault_free_with_store d w : fault_free w -> fault_free (with_store d w).
Proof. intros H n rel. apply H. Qed.

Lemma fault_free_with_txn t w : fault_free w -> fault_free (with_txn t w).
Proof. intros H n rel. apply H. Qed.

Lemma fault_free_quiet ids d : fault_free (quiet ids d).
Proof. intros n rel. reflexivity. Qed.

Create HintDb run.

#[local] Hint Resolve fault_free_tick fault_free_with_store
  fault_free_with_txn fault_free_quiet : run.

Lemma round_trip_ok rel w :
  fault_free w -> round_trip rel w = Done tt (tick w).
Proof. intros H. unfold round_trip. now rewrite H. Qed.

Lemma db_query_reading_ok A rel (f : DB -> A) w :
  fault_free w ->
  db_query rel (reading f) w = Done (f (store w)) (tick w).
Proof.
  intros H. unfold db_query, bind. rewrite round_trip_ok by assumption.
  unfold reading. cbn. destruct w; reflexivity.
Qed.

Lemma db_query_writing_ok rel (f : DB -> DB) w :
  fault_free w ->
  db_query rel (writing f) w = Done tt (with_store (f (store w)) (tick w)).
Proof.
  intros H. unfold db_query, bind. rewrite round_trip_ok by assumption.
  reflexivity.
Qed.

(** One statement on the pooled connection, whatever the oracle says. *)
Lemma db_query_eq A rel (s : statement A) w :
  db_query rel s w
  = if faults w (clock w) rel then Thrown StorageFault (tick w)
    else match s (store w) with
         | inl e => Thrown e (tick w)
         | inr (a, d) => Done a (with_store d (tick w))
         end.
Proof.
  unfold db_query, bind, round_trip.
  destruct (faults w (clock w) rel); reflexivity.
Qed.

Lemma db_query_reading_eq A rel (f : DB -> A) w :
  db_query rel (reading f) w
  = if faults w (clock w) rel then Thrown StorageFault (tick w)
    else Done (f (store w)) (tick w).
Proof.
  rewrite db_query_eq. unfold reading.
  destruct (faults w (clock w) rel); [reflexivity|].
  destruct w; reflexivity.
Qed.

(** ** Lists of rows *)

Lemma ltb_length_app A (l1 l2 : list A) :
  Nat.ltb 0 (List.length (l1 ++ l2))
  = Nat.ltb 0 (List.length l1) || Nat.ltb 0 (List.length l2).
Proof. destruct l1; reflexivity. Qed.

Lemma ltb_length_flat_map A B (f : A -> list B) l :
  Nat.ltb 0 (List.length (flat_map f l))
  = existsb (fun x => Nat.ltb 0 (List.length (f x))) l.
Proof.
  induction l as [|x l IH]; [reflexivity|].
  cbn [flat_map existsb]. now rewrite ltb_length_app, IH.
Qed.

Lemma ltb_length_filter A (p : A -> bool) l :
  Nat.ltb 0 (List.length (filter p l)) = existsb p l.
Proof.
  induction l as [|x l IH]; [reflexivity|].
  cbn [filter existsb]. destruct (p x); [reflexivity|exact IH].
Qed.

Lemma existsb_flat_map A B (g : B -> bool) (f : A -> list B) l :
  existsb g (flat_map f l) = existsb (fun x => existsb g (f x)) l.
Proof.
  induction l as [|x l IH]; [reflexivity|].
  cbn [flat_map existsb]. now rewrite existsb_app, IH.
Qed.

Lemma existsb_map A B (g : B -> bool) (f : A -> B) l :
  existsb g (map f l) = existsb (fun x => g (f x)) l.
Proof.
  induction l as [|x l IH]; [reflexivity|].
  cbn [map existsb]. now rewrite IH.
Qed.

Lemma existsb_filter A (g p : A -> bool) l :
  existsb g (filter p l) = existsb (fun x => p x && g x) l.
Proof.
  induction l as [|x l IH]; [reflexivity|].
  cbn [filter existsb]. destruct (p x); cbn [existsb andb]; now rewrite IH.
Qed.

Lemma existsb_eq A (f g : A -> bool) l :
  (forall x, f x = g x) -> existsb f l = existsb g l.
Proof.
  intros E. induction l as [|x l IH]; [reflexivity|].
  cbn [existsb]. now rewrite E, IH.
Qed.

(** ** The workspace-level decision *)

(** The COUNT query of checkPermission is positive exactly when the code is
    among the codes granted by the roles assigned in the workspace. *)
Lemma count_user_permission_positive d userId workspaceId code :
  Nat.ltb 0 (count_user_permission userId workspaceId code d)
  = includes (flat_map (fun r => role_grants r d)
                       (RoleAssignments d userId workspaceId)) code.
Proof.
  unfold count_user_permission, includes, RoleAssignments, role_grants.
  rewrite ltb_length_flat_map, existsb_flat_map, existsb_map.
  apply existsb_eq; intros ur.
  rewrite ltb_length_flat_map, existsb_flat_map.
  apply existsb_eq; intros rp.
  rewrite ltb_length_filter, existsb_map, existsb_filter.
  reflexivity.
Qed.

(** What checkPermission answers when both of its queries are answered. *)
Lemma checkPermission_value (w : world) (code : string)
  (principal workspaceId : uuid) :
  fault_free w ->
  workspaceId <> EmptyString ->
  value_of (checkPermission code principal (Some workspaceId) None w)
  = Some match select_member_role workspaceId principal (store w) with
         | [] => Send 403 (ErrorBody "Accès au workspace non autorisé")
         | wsRole :: _ =>
             if includes owner_or_admin wsRole then Next tt
             else if Nat.ltb 0 (count_user_permission principal workspaceId
                                  code (store w))
             then Next tt
             else Send 403 (ErrorBody ("Permission " ++ dquote ++ code
                                         ++ dquote ++ " requise"))
         end.
Proof.
  intros Hf Hne.
  unfold checkPermission, try_catch, bind. cbn [js_or truthy].
  destruct (workspaceId =? EmptyString) eqn:E.
  { apply String.eqb_eq in E. contradiction. }
  cbn [truthy]. rewrite E.
  rewrite db_query_reading_ok by assumption.
  destruct (select_member_role workspaceId principal (store w))
    as [|wsRole rest]; [reflexivity|].
  destruct (includes owner_or_admin wsRole); [reflexivity|].
  rewrite db_query_reading_ok by auto with run.
  change (store (tick w)) with (store w).
  destruct (Nat.ltb 0 _); reflexivity.
Qed.

(** C1. For every principal, workspace and permission code, checkPermission
    answers as the three-step algorithm decides: no membership row is
    refused as a non-member, owner and admin pass without a further query,
    and any other role passes exactly when the code is in the union of the
    codes of the custom roles assigned to the principal in the workspace. *)
Theorem checkPermission_decides (w : world) (code : string)
  (principal workspaceId : uuid) :
  fault_free w ->
  workspaceId <> EmptyString ->
  value_of (checkPermission code principal (Some workspaceId) None w)
  = Some (answer code (DecideWorkspace (store w) principal workspaceId code)).
Proof.
  intros Hf Hne. rewrite checkPermission_value by assumption.
  unfold DecideWorkspace, Membership.
  destruct (select_member_role workspaceId principal (store w))
    as [|wsRole rest]; cbn [hd_error answer]; [reflexivity|].
  destruct (includes owner_or_admin wsRole); [reflexivity|].
  rewrite count_user_permission_positive.
  destruct (includes _ code); reflexivity.
Qed.

Lemma checkPermission_decides_witness :
  value_of (checkPermission "budget.edit" bob (Some acme) None
              (quiet some_ids tenant)) = Some (Next tt)
  /\ value_of (checkPermission "project.delete" bob (Some acme) None
                 (quiet some_ids tenant))
     = Some (Send 403 (ErrorBody ("Permission " ++ dquote ++ "project.delete"
                                    ++ dquote ++ " requise")))
  /\ value_of (checkPermission "project.delete" alice (Some acme) None
                 (quiet some_ids tenant)) = Some (Next tt).
Proof.
  assert (Hne : acme <> EmptyString) by discriminate.
  split; [|split].
  - exact (checkPermission_decides "budget.edit" bob
             (fault_free_quiet some_ids tenant) Hne).
  - exact (checkPermission_decides "project.delete" bob
             (fault_free_quiet some_ids tenant) Hne).
  - exact (checkPermission_decides "project.delete" alice
             (fault_free_quiet some_ids tenant) Hne).
Defined.

(** ** Board access *)

Lemma select_board_with_role_rows d boardId userId :
  select_board_with_role boardId userId d <> []
  <-> exists b wm,
        In b (boards d) /\ b_id b = boardId
        /\ In wm (workspace_members d)
        /\ wm_workspace_id wm = b_workspace_id b /\ wm_user_id wm = userId.
Proof.
  unfold select_board_with_role. split.
  - intros Hne.
    destruct (flat_map _ _) as [|row rest] eqn:E; [contradiction|].
    assert (Hin : In row (row :: rest)) by (left; reflexivity).
    rewrite <- E in Hin. apply in_flat_map in Hin.
    destruct Hin as (b & Hb & Hrow).
    apply filter_In in Hb. destruct Hb as [Hb Hid].
    apply in_map_iff in Hrow. destruct Hrow as (wm & _ & Hwm).
    apply filter_In in Hwm. destruct Hwm as [Hwm Hk].
    apply andb_true_iff in Hk. destruct Hk as [Hws Hu].
    exists b, wm. rewrite String.eqb_eq in Hid, Hws, Hu. auto.
  - intros (b & wm & Hb & Hid & Hwm & Hws & Hu) E.
    assert (Hin : In (b, wm_role wm)
                    (flat_map
                       (fun b0 =>
                          map (fun wm0 => (b0, wm_role wm0))
                              (filter
                                 (fun wm0 =>
                                    (wm_workspace_id wm0 =? b_workspace_id b0)
                                    && (wm_user_id wm0 =? userId))
                                 (workspace_members d)))
                       (filter (fun b0 => b_id b0 =? boardId) (boards d)))).
    { apply in_flat_map. exists b. split.
      - apply filter_In. split; [assumption|]. now apply String.eqb_eq.
      - apply in_map_iff. exists wm. split; [reflexivity|].
        apply filter_In. split; [assumption|].
        apply andb_true_iff. split; now apply String.eqb_eq. }
    rewrite E in Hin. contradiction.
Qed.

(** C9. checkBoardAccess lets a user through exactly when some membership
    row links the user to the workspace of the board, whatever the role,
    and refuses with 403 otherwise; replacing the contents of
    board_permissions and board_group_permissions changes nothing in its
    answer, under any behaviour of the storage layer. *)
Theorem checkBoardAccess_membership_only (w : world) (userId boardId : uuid) :
  fault_free w ->
  boardId <> EmptyString ->
  ((exists row,
       value_of (checkBoardAccess userId (Some boardId) None w)
       = Some (Next row))
   <-> (exists b wm,
          In b (boards (store w)) /\ b_id b = boardId
          /\ In wm (workspace_members (store w))
          /\ wm_workspace_id wm = b_workspace_id b
          /\ wm_user_id wm = userId))
  /\ ((exists row,
         value_of (checkBoardAccess userId (Some boardId) None w)
         = Some (Next row))
      \/ value_of (checkBoardAccess userId (Some boardId) None w)
         = Some (Send 403 (ErrorBody "Accès au board non autorisé")))
  /\ (forall (w' : world) params body direct groups,
        value_of (checkBoardAccess userId params body
                    (with_store
                       (set_board_group_permissions groups
                          (set_board_permissions direct (store w'))) w'))
        = value_of (checkBoardAccess userId params body w')).
Proof.
  intros Hf Hne.
  assert (Hrun :
    value_of (checkBoardAccess userId (Some boardId) None w)
    = Some match select_board_with_role boardId userId (store w) with
           | [] => Send 403 (ErrorBody "Accès au board non autorisé")
           | row :: _ => Next row
           end).
  { unfold checkBoardAccess, try_catch, bind. cbn [js_or].
    destruct (boardId =? EmptyString) eqn:E.
    { apply String.eqb_eq in E. contradiction. }
    cbn [truthy]. rewrite E.
    rewrite db_query_reading_ok by assumption.
    destruct (select_board_with_role boardId userId (store w)); reflexivity. }
  rewrite Hrun. split; [|split].
  - rewrite <- select_board_with_role_rows.
    destruct (select_board_with_role boardId userId (store w)) as [|r rest].
    + split; [intros [row H]; discriminate | intros H; now elim H].
    + split; [discriminate | intros _; now exists r].
  - destruct (select_board_with_role boardId userId (store w)) as [|r rest].
    + now right.
    + left. now exists r.
  - intros w' params body direct groups.
    unfold checkBoardAccess, try_catch, bind.
    destruct (truthy (js_or params body)) as [bid|]; [|reflexivity].
    unfold db_query, bind, round_trip. cbn.
    destruct (faults w' (clock w') Boards); [reflexivity|].
    cbn. unfold select_board_with_role. cbn.
    destruct (flat_map _ _); reflexivity.
Qed.

Lemma checkBoardAccess_membership_only_witness :
  (exists row,
      value_of (checkBoardAccess carol (Some roadmap) None
                  (quiet some_ids tenant)) = Some (Next row))
  <-> (exists b wm,
         In b (boards tenant) /\ b_id b = roadmap
         /\ In wm (workspace_members tenant)
         /\ wm_workspace_id wm = b_workspace_id b
         /\ wm_user_id wm = carol).
Proof.
  assert (Hne : roadmap <> EmptyString) by discriminate.
  exact (proj1 (checkBoardAccess_membership_only carol
                  (fault_free_quiet some_ids tenant) Hne)).
Defined.

(** ** The gate of the board-permission mutation *)

Lemma rank_admin l : (l =? "admin") = Nat.leb 3 (rank (Some l)).
Proof.
  unfold rank.
  destruct (l =? "view") eqn:Ev.
  { apply String.eqb_eq in Ev. now subst. }
  destruct (l =? "edit") eqn:Ee.
  { apply String.eqb_eq in Ee. now subst. }
  destruct (l =? "admin"); reflexivity.
Qed.

Lemma select_board_level_head d boardId userId b rest :
  filter (fun b => b_id b =? boardId) (boards d) = b :: rest ->
  exists more,
    select_board_level boardId userId d
    = (match rows_for boardId userId (board_permissions d) with
       | [] => None
       | x :: _ => Some (xp_permission_level x)
       end, b_workspace_id b) :: more.
Proof.
  intros Hb.
  assert (Hid : b_id b = boardId).
  { assert (Hin : In b (b :: rest)) by (left; reflexivity).
    rewrite <- Hb in Hin. apply filter_In in Hin.
    now apply String.eqb_eq. }
  unfold select_board_level. rewrite Hb. cbn [flat_map].
  rewrite Hid. fold (rows_for boardId userId (board_permissions d)).
  destruct (rows_for boardId userId (board_permissions d)) as [|x xs];
    destruct (filter _ (workspace_members d)) as [|m ms];
    cbn; eexists; reflexivity.
Qed.

Lemma directLevel_unique d boardId userId :
  unique_keys (board_permissions d) ->
  directLevel d boardId userId
  = rank match rows_for boardId userId (board_permissions d) with
         | [] => None
         | x :: _ => Some (xp_permission_level x)
         end.
Proof.
  intros Hu. unfold directLevel. specialize (Hu boardId userId).
  destruct (rows_for boardId userId (board_permissions d)) as [|x [|y ys]].
  - reflexivity.
  - cbn [map max_rank fold_right]. apply Nat.max_0_r.
  - cbn in Hu. lia.
Qed.

Lemma not_admin_Membership d workspaceId userId :
  negb (not_admin (select_member_role workspaceId userId d))
  = match Membership d workspaceId userId with
    | Some role => includes owner_or_admin role
    | None => false
    end.
Proof.
  unfold Membership, not_admin.
  destruct (select_member_role workspaceId userId d); cbn [hd_error].
  - reflexivity.
  - apply negb_involutive.
Qed.

(** C2, as the code has it.  On an existing board the gate of the
    board-permission mutation lets the requester through when the Membership
    role is owner or admin, and otherwise exactly when the requester's own
    override on the board is at level admin.  Group membership and group
    overrides play no part: replacing both tables leaves the answer as it is. *)
Theorem setBoardPermission_gate (w : world) (requester boardId userId : uuid)
  (permissionLevel : option string) (b : boards_row) (rest : list boards_row) :
  fault_free w ->
  unique_keys (board_permissions (store w)) ->
  filter (fun b => b_id b =? boardId) (boards (store w)) = b :: rest ->
  (value_of (setBoardPermission requester boardId userId permissionLevel w)
   = Some (Send 403 (ErrorBody "Accès non autorisé"))
   <-> match Membership (store w) (b_workspace_id b) requester with
       | Some role => includes owner_or_admin role
       | None => false
       end = false
       /\ directLevel (store w) boardId requester < 3)
  /\ (forall (w' : world) members groups,
        value_of (setBoardPermission requester boardId userId permissionLevel
                    (with_store
                       (set_user_group_members members
                          (set_board_group_permissions groups (store w')))
                       w'))
        = value_of (setBoardPermission requester boardId userId
                      permissionLevel w')).
Proof.
  intros Hf Hu Hb. split.
  - destruct (select_board_level_head (store w) boardId requester Hb)
      as [more Hsel].
    rewrite (directLevel_unique (store w) boardId requester Hu).
    rewrite <- not_admin_Membership.
    unfold setBoardPermission, try_catch, bind.
    rewrite db_query_reading_ok by assumption. rewrite Hsel.
    rewrite db_query_reading_ok by auto with run.
    change (store (tick w)) with (store w).
    set (lvl := match rows_for boardId requester (board_permissions (store w))
                with [] => None | x :: _ => Some (xp_permission_level x) end).
    assert (Hadm : match lvl with Some l => l =? "admin" | None => false end
                   = Nat.leb 3 (rank lvl)).
    { destruct lvl as [l|]; [apply rank_admin|reflexivity]. }
    rewrite Hadm.
    destruct (Nat.leb 3 (rank lvl)) eqn:Hr;
      destruct (not_admin
                  (select_member_role (b_workspace_id b) requester (store w)))
        eqn:Hn; cbn [negb andb].
    + apply Nat.leb_le in Hr.
      unfold db_query, bind. rewrite round_trip_ok by auto with run.
      destruct permissionLevel; cbn; split; try discriminate;
        intros [_ H]; lia.
    + apply Nat.leb_le in Hr.
      unfold db_query, bind. rewrite round_trip_ok by auto with run.
      destruct permissionLevel; cbn; split; try discriminate;
        intros [_ H]; lia.
    + apply Nat.leb_gt in Hr. cbn. split; auto.
    + unfold db_query, bind. rewrite round_trip_ok by auto with run.
      destruct permissionLevel; cbn; split; try discriminate;
        intros [H _]; discriminate.
  - intros w' members groups.
    set (d' := set_user_group_members members
                 (set_board_group_permissions groups (store w'))).
    unfold setBoardPermission, try_catch, bind.
    rewrite !db_query_reading_eq.
    change (faults (with_store d' w')) with (faults w').
    change (clock (with_store d' w')) with (clock w').
    destruct (faults w' (clock w') Boards); [reflexivity|].
    change (store (with_store d' w')) with d'.
    change (select_board_level boardId requester d')
      with (select_board_level boardId requester (store w')).
    destruct (select_board_level boardId requester (store w'))
      as [|[lvl ws] more]; [reflexivity|].
    rewrite !db_query_reading_eq.
    change (faults (tick (with_store d' w'))) with (faults (tick w')).
    change (clock (tick (with_store d' w'))) with (clock (tick w')).
    destruct (faults (tick w') (clock (tick w')) WorkspaceMembers);
      [reflexivity|].
    change (select_member_role ws requester (store (tick (with_store d' w'))))
      with (select_member_role ws requester (store (tick w'))).
    destruct (negb _ && negb _); [reflexivity|].
    rewrite !db_query_eq.
    change (faults (tick (tick (with_store d' w'))))
      with (faults (tick (tick w'))).
    change (clock (tick (tick (with_store d' w'))))
      with (clock (tick (tick w'))).
    destruct (faults (tick (tick w')) (clock (tick (tick w')))
                BoardPermissions); [reflexivity|].
    destruct permissionLevel; reflexivity.
Qed.

Lemma setBoardPermission_gate_witness :
  value_of (setBoardPermission bob roadmap carol (Some "view")
              (quiet some_ids tenant))
  = Some (Send 403 (ErrorBody "Accès non autorisé"))
  <-> match Membership tenant acme bob with
      | Some role => includes owner_or_admin role
      | None => false
      end = false
      /\ directLevel tenant roadmap bob < 3.
Proof.
  assert (Hu : unique_keys (board_permissions (store (quiet some_ids tenant)))).
  { intros r u. cbn. lia. }
  assert (Hb : filter (fun b => b_id b =? roadmap)
                 (boards (store (quiet some_ids tenant)))
               = [{| b_id := roadmap; b_workspace_id := acme |}])
    by reflexivity.
  exact (proj1 (@setBoardPermission_gate (quiet some_ids tenant) bob roadmap
                  carol (Some "view") _ _
                  (fault_free_quiet some_ids tenant) Hu Hb)).
Defined.

(** C2 as stated fails on the code.  Bob has no override of his own on the
    board but his group holds admin, so the effective level of the claim is
    admin and the claim allows an admin-level action; the gate of the
    board-permission mutation refuses him.  Carol, a viewer with no override
    at all, has effective level "none", so the claim denies even level view;
    checkBoardAccess lets her through. *)
Lemma DecideResource_counterexample :
  DecideResource tenant bob roadmap "admin" = Some (Allow OverrideLevel)
  /\ value_of (setBoardPermission bob roadmap carol (Some "view")
                 (quiet some_ids tenant))
     = Some (Send 403 (ErrorBody "Accès non autorisé"))
  /\ DecideResource tenant carol roadmap "view"
     = Some (Deny InsufficientLevel)
  /\ value_of (checkBoardAccess carol (Some roadmap) None
                 (quiet some_ids tenant))
     = Some (Next ({| b_id := roadmap; b_workspace_id := acme |}, "viewer")).
Proof. repeat split. Qed.

(** ** Rules for [maintains] *)

Section Maintains.

Variable I : DB -> Prop.

Lemma maintains_ret A (a : A) : maintains I (ret a).
Proof. intros w H. exact H. Qed.

Lemma maintains_throw A e : maintains I (@throw A e).
Proof. intros w H. exact H. Qed.

Lemma maintains_bind A B (m : M A) (k : A -> M B) :
  maintains I m -> (forall a, maintains I (k a)) -> maintains I (bind m k).
Proof.
  intros Hm Hk w H. unfold bind. specialize (Hm w H).
  destruct (m w) as [a w'|e w']; cbn in Hm; [now apply Hk | exact Hm].
Qed.

Lemma maintains_try_catch A (m : M A) h :
  maintains I m -> (forall e, maintains I (h e)) ->
  maintains I (try_catch m h).
Proof.
  intros Hm Hh w H. unfold try_catch. specialize (Hm w H).
  destruct (m w) as [a w'|e w']; cbn in Hm; [exact Hm | now apply Hh].
Qed.

Lemma maintains_try_finally A (m : M A) f :
  maintains I m -> maintains I f -> maintains I (try_finally m f).
Proof.
  intros Hm Hf w H. unfold try_finally. specialize (Hm w H).
  destruct (m w) as [a w'|e w']; cbn in Hm; specialize (Hf w' Hm);
    destruct (f w'); exact Hf.
Qed.

Lemma maintains_round_trip rel : maintains I (round_trip rel).
Proof.
  intros w H. unfold round_trip.
  destruct (faults w (clock w) rel); exact H.
Qed.

Lemma maintains_logger lvl msg : maintains I (logger lvl msg).
Proof. intros w H. exact H. Qed.

Lemma maintains_next_uuid : maintains I next_uuid.
Proof. intros w H. exact H. Qed.

Lemma maintains_pool_connect : maintains I pool_connect.
Proof. apply maintains_round_trip. Qed.

Lemma maintains_db_query A rel (s : statement A) :
  keeps I s -> maintains I (db_query rel s).
Proof.
  intros Hs w [H1 H2]. rewrite db_query_eq.
  destruct (faults w (clock w) rel); [now split|].
  destruct (s (store w)) as [e|[a d]] eqn:E; [now split|].
  split; [|exact H2]. cbn. eapply Hs; eassumption.
Qed.

Lemma maintains_client_query A rel (s : statement A) :
  keeps I s -> maintains I (client_query rel s).
Proof.
  intros Hs w [H1 H2]. unfold client_query, bind, round_trip.
  destruct (faults w (clock w) rel); [now split|].
  cbn [tick txn store]. destruct (txn w) as [t|] eqn:Et.
  - destruct (s t) as [e|[a t']] eqn:E; unfold holds; cbn; rewrite ?Et.
    + now split.
    + split; [exact H1|]. eapply Hs; eassumption.
  - destruct (s (store w)) as [e|[a d]] eqn:E; unfold holds; cbn;
      rewrite ?Et.
    + now split.
    + split; [|exact Logic.I]. eapply Hs; eassumption.
Qed.

Lemma maintains_BEGIN : maintains I client_BEGIN.
Proof.
  intros w [H1 H2]. unfold client_BEGIN, bind, round_trip.
  destruct (faults w (clock w) Transaction); now split.
Qed.

Lemma maintains_COMMIT : maintains I client_COMMIT.
Proof.
  intros w [H1 H2]. unfold client_COMMIT, bind, round_trip.
  destruct (faults w (clock w) Transaction); [now split|].
  cbn [tick txn store]. destruct (txn w) as [t|] eqn:Et; unfold holds; cbn.
  - now split.
  - rewrite Et. now split.
Qed.

Lemma maintains_ROLLBACK : maintains I client_ROLLBACK.
Proof.
  intros w [H1 H2]. unfold client_ROLLBACK, bind, round_trip.
  destruct (faults w (clock w) Transaction); now split.
Qed.

Lemma maintains_release : maintains I client_release.
Proof. intros w [H1 H2]. now split. Qed.

Lemma maintains_for_of A (xs : list A) body :
  (forall x, maintains I (body x)) -> maintains I (for_of xs body).
Proof.
  intros Hb. induction xs as [|x xs IH]; cbn [for_of].
  - apply maintains_ret.
  - apply maintains_bind; [apply Hb | intros _; exact IH].
Qed.

Lemma maintains_guarded A (mw : M (reply A)) h :
  maintains I mw -> (forall a, maintains I (h a)) ->
  maintains I (guarded mw h).
Proof.
  intros Hm Hh. unfold guarded. apply maintains_bind; [exact Hm|].
  intros [a|s b]; [apply Hh | apply maintains_ret].
Qed.

Lemma keeps_reading A (f : DB -> A) : keeps I (reading f).
Proof. intros d a d' H E. unfold reading in E. now inversion E; subst. Qed.

Lemma keeps_writing (f : DB -> DB) :
  (forall d, I d -> I (f d)) -> keeps I (writing f).
Proof.
  intros Hf d a d' H E. unfold writing in E. inversion E; subst. now apply Hf.
Qed.

Lemma maintains_first_owner_id rows : maintains I (first_owner_id rows).
Proof. destruct rows; [apply maintains_throw | apply maintains_ret]. Qed.

Lemma maintains_checkWorkspaceAccess userId p b :
  maintains I (checkWorkspaceAccess userId p b).
Proof.
  unfold checkWorkspaceAccess. apply maintains_try_catch.
  - destruct (truthy (js_or p b)); [|apply maintains_ret].
    apply maintains_bind; [apply maintains_db_query, keeps_reading|].
    intros [|role rest]; apply maintains_ret.
  - intros e. apply maintains_bind; [apply maintains_logger|].
    intros _. apply maintains_ret.
Qed.

End Maintains.

(** One step of a proof that a handler maintains a property: descend
    through the control structure, leaving the statements that write. *)
Ltac maintain_step :=
  match goal with
  | |- maintains _ (ret _) => apply maintains_ret
  | |- maintains _ (throw _) => apply maintains_throw
  | |- maintains _ (logger _ _) => apply maintains_logger
  | |- maintains _ next_uuid => apply maintains_next_uuid
  | |- maintains _ pool_connect => apply maintains_pool_connect
  | |- maintains _ client_BEGIN => apply maintains_BEGIN
  | |- maintains _ client_COMMIT => apply maintains_COMMIT
  | |- maintains _ client_ROLLBACK => apply maintains_ROLLBACK
  | |- maintains _ client_release => apply maintains_release
  | |- maintains _ (first_owner_id _) => apply maintains_first_owner_id
  | |- maintains _ (checkWorkspaceAccess _ _ _) =>
      apply maintains_checkWorkspaceAccess
  | |- maintains _ (db_query _ (reading _)) =>
      apply maintains_db_query, keeps_reading
  | |- maintains _ (client_query _ (reading _)) =>
      apply maintains_client_query, keeps_reading
  | |- maintains _ (db_query _ _) => apply maintains_db_query
  | |- maintains _ (client_query _ _) => apply maintains_client_query
  | |- maintains _ (bind _ _) => apply maintains_bind; [|intro]
  | |- maintains _ (try_catch _ _) => apply maintains_try_catch; [|intro]
  | |- maintains _ (try_finally _ _) => apply maintains_try_finally
  | |- maintains _ (for_of _ _) => apply maintains_for_of; intro
  | |- maintains _ (guarded _ _) => apply maintains_guarded; [|intro]
  | |- maintains _ (if ?b then _ else _) => destruct b
  | |- maintains _ (match ?x with _ => _ end) => destruct x
  | |- maintains _ (let _ := _ in _) => cbv zeta
  end.

Ltac maintain := repeat maintain_step.

Create HintDb statements.

#[local] Hint Unfold insert_workspace_role insert_role_permission_do_nothing
  insert_role_permission delete_role_permissions insert_audit_log
  update_workspace_role delete_workspace_role insert_user_role
  delete_user_role upsert_board_permission upsert_project_permission
  delete_board_permission delete_project_permission insert_group_member
  delete_group_member insert_workspace insert_workspace_member
  update_member_role delete_workspace_member update_workspace_owner
  add_role_permission writing reading : statements.

(** A statement that leaves alone the tables a property reads keeps it. *)
Ltac keeps_untouched :=
  let d := fresh "d" in
  let a := fresh "a" in
  let d' := fresh "d'" in
  let HI := fresh "HI" in
  let Hs := fresh "Hs" in
  intros d a d' HI Hs; autounfold with statements in Hs;
  repeat match type of Hs with
         | context [match ?x with _ => _ end] => destruct x
         | context [if ?x then _ else _] => destruct x
         end;
  inversion Hs; subst; exact HI.

(** ** The audit trail *)

Section Unaudited.

Variable L : list permission_audit_logs_row.

Lemma updateRole_unaudited userId roleId name description color ps :
  maintains (audit_is L) (updateRole userId roleId name description color ps).
Proof. unfold updateRole, updateRole_block. maintain; keeps_untouched. Qed.

Lemma deleteRole_unaudited userId roleId :
  maintains (audit_is L) (deleteRole userId roleId).
Proof. unfold deleteRole. maintain; keeps_untouched. Qed.

Lemma removeRole_unaudited requester userId roleId workspaceId :
  maintains (audit_is L) (removeRole requester userId roleId workspaceId).
Proof. unfold removeRole. maintain; keeps_untouched. Qed.

Lemma setBoardPermission_unaudited requester boardId userId level :
  maintains (audit_is L) (setBoardPermission requester boardId userId level).
Proof. unfold setBoardPermission. maintain; keeps_untouched. Qed.

Lemma removeBoardPermission_unaudited boardId userId :
  maintains (audit_is L) (removeBoardPermission boardId userId).
Proof. unfold removeBoardPermission. maintain; keeps_untouched. Qed.

Lemma setProjectPermission_unaudited requester projectId userId level :
  maintains (audit_is L)
    (setProjectPermission requester projectId userId level).
Proof. unfold setProjectPermission. maintain; keeps_untouched. Qed.

Lemma removeProjectPermission_unaudited projectId userId :
  maintains (audit_is L) (removeProjectPermission projectId userId).
Proof. unfold removeProjectPermission. maintain; keeps_untouched. Qed.

Lemma addGroupMember_unaudited groupId userId :
  maintains (audit_is L) (addGroupMember groupId userId).
Proof. unfold addGroupMember. maintain; keeps_untouched. Qed.

Lemma removeGroupMember_unaudited groupId userId :
  maintains (audit_is L) (removeGroupMember groupId userId).
Proof. unfold removeGroupMember. maintain; keeps_untouched. Qed.

End Unaudited.

(** What a handler does to the audit table, started on an idle pool. *)
Lemma unaudited_run A (m : M A) w :
  idle w ->
  (forall L, maintains (audit_is L) m) ->
  permission_audit_logs (store (world_of (m w)))
  = permission_audit_logs (store w).
Proof.
  intros Hi Hm.
  destruct (Hm (permission_audit_logs (store w)) w) as [H _]; [|exact H].
  split; [reflexivity|]. unfold idle in Hi. now rewrite Hi.
Qed.

(** X1. UpdateRole, DeleteRole, RemoveRole, both SetOverride and
    RemoveOverride routes and both group-membership routes leave the audit
    table as they found it, whatever the request and whatever the storage
    layer does. *)
Lemma mutations_without_audit_entry w :
  idle w ->
  (forall u r n de co ps,
      permission_audit_logs (store (world_of (updateRole u r n de co ps w)))
      = permission_audit_logs (store w))
  /\ (forall u r,
         permission_audit_logs (store (world_of (deleteRole u r w)))
         = permission_audit_logs (store w))
  /\ (forall q u r ws,
         permission_audit_logs (store (world_of (removeRole q u r ws w)))
         = permission_audit_logs (store w))
  /\ (forall q b u l,
         permission_audit_logs
           (store (world_of (setBoardPermission q b u l w)))
         = permission_audit_logs (store w))
  /\ (forall b u,
         permission_audit_logs (store (world_of (removeBoardPermission b u w)))
         = permission_audit_logs (store w))
  /\ (forall q p u l,
         permission_audit_logs
           (store (world_of (setProjectPermission q p u l w)))
         = permission_audit_logs (store w))
  /\ (forall p u,
         permission_audit_logs
           (store (world_of (removeProjectPermission p u w)))
         = permission_audit_logs (store w))
  /\ (forall g u,
         permission_audit_logs (store (world_of (addGroupMember g u w)))
         = permission_audit_logs (store w))
  /\ (forall g u,
         permission_audit_logs (store (world_of (removeGroupMember g u w)))
         = permission_audit_logs (store w)).
Proof.
  intros Hi. repeat split; intros; apply unaudited_run; try assumption;
    intros L.
  - apply updateRole_unaudited.
  - apply deleteRole_unaudited.
  - apply removeRole_unaudited.
  - apply setBoardPermission_unaudited.
  - apply removeBoardPermission_unaudited.
  - apply setProjectPermission_unaudited.
  - apply removeProjectPermission_unaudited.
  - apply addGroupMember_unaudited.
  - apply removeGroupMember_unaudited.
Qed.

(** C3 at a failing input.  Alice, the owner, replaces the grants of the
    role "Budget Manager": the request succeeds and the grants change, yet
    the audit table stays empty.  The sibling route that creates a role
    does write its entry. *)
Theorem updateRole_leaves_no_audit_entry :
  let request :=
    updateRole alice budget_manager None None None (Some ["board.edit"]) in
  let after := store (world_of (request (quiet some_ids tenant))) in
  let created :=
    store (world_of (createRole alice true acme "Auditor" None None
                       (Some ["board.edit"]) (quiet some_ids tenant))) in
  value_of (request (quiet some_ids tenant))
  = Some (Send 200 (MessageBody "Rôle mis à jour"))
  /\ role_grants budget_manager tenant = ["budget.edit"]
  /\ role_grants budget_manager after = ["board.edit"]
  /\ permission_audit_logs after = []
  /\ List.length (permission_audit_logs created) = 1.
Proof. vm_compute. repeat split. Qed.

(** ** Override tables *)


Lemma rows_for_empty_iff r u rows :
  existsb (has_key r u) rows = false <-> rows_for r u rows = [].
Proof.
  unfold rows_for. fold (has_key r u).
  induction rows as [|x rows IH]; cbn [existsb filter]; [tauto|].
  destruct (has_key r u x); cbn [orb]; [|exact IH].
  split; discriminate.
Qed.



Lemma has_key_other r u r' u' x :
  (r', u') <> (r, u) -> has_key r u x = true -> has_key r' u' x = false.
Proof.
  unfold has_key. intros Hne H.
  apply andb_true_iff in H. destruct H as [H1 H2].
  apply String.eqb_eq in H1, H2. subst.
  destruct (xp_resource_id x =? r') eqn:E1; [|reflexivity].
  destruct (xp_user_id x =? u') eqn:E2; [|reflexivity].
  apply String.eqb_eq in E1, E2. subst. now elim Hne.
Qed.


Lemma upsert_rows_eq r0 u0 level g rows :
  upsert_rows r0 u0 level g rows
  = if existsb (has_key r0 u0) rows
    then map (fun x =>
                if has_key r0 u0 x
                then {| xp_resource_id := xp_resource_id x;
                        xp_user_id := xp_user_id x;
                        xp_permission_level := level;
                        xp_granted_by := xp_granted_by x |}
                else x) rows
    else rows ++ [{| xp_resource_id := r0; xp_user_id := u0;
                     xp_permission_level := level; xp_granted_by := g |}].
Proof. reflexivity. Qed.






















(** ** Deleting a role *)

Lemma deleteRole_run w requester roleId :
  fault_free w ->
  role_not_admin (select_role_with_member_role roleId requester (store w))
  = false ->
  deleteRole requester roleId w
  = Done (Send 200 (MessageBody "Rôle supprimé"))
         (with_store
            (set_workspace_roles
               (filter (fun r => negb (r_id r =? roleId))
                       (workspace_roles (store w)))
               (set_role_permissions
                  (filter (fun rp => negb (rp_role_id rp =? roleId))
                          (role_permissions (store w)))
                  (set_user_roles
                     (filter (fun ur => negb (ur_role_id ur =? roleId))
                             (user_roles (store w)))
                     (store w))))
            (tick (tick w))).
Proof.
  intros Hf Ha. unfold deleteRole, try_catch, bind.
  rewrite db_query_reading_ok by assumption. rewrite Ha.
  unfold delete_workspace_role.
  rewrite db_query_writing_ok by auto with run. reflexivity.
Qed.

Lemma filter_negb_eqb_In A (key : A -> string) k (l : list A) x :
  In x (filter (fun y => negb (key y =? k)) l) -> key x <> k.
Proof.
  intros H E. apply filter_In in H. destruct H as [_ H].
  apply String.eqb_eq in E. now rewrite E in H.
Qed.

(** The codes of the roles that survive are the codes they had. *)
Lemma role_grants_after_delete d roleId perms other r :
  r <> roleId ->
  role_grants r
    (set_workspace_roles other
       (set_role_permissions
          (filter (fun rp => negb (rp_role_id rp =? roleId))
                  (role_permissions d))
          (set_user_roles perms d)))
  = role_grants r d.
Proof.
  intros Hne. unfold role_grants.
  cbn [role_permissions permissions set_workspace_roles set_role_permissions
       set_user_roles].
  f_equal. induction (role_permissions d) as [|rp rps IH]; [reflexivity|].
  cbn [filter]. destruct (rp_role_id rp =? roleId) eqn:E1; cbn [negb filter].
  - destruct (rp_role_id rp =? r) eqn:E2; [|exact IH].
    apply String.eqb_eq in E1, E2. congruence.
  - destruct (rp_role_id rp =? r); [now rewrite IH | exact IH].
Qed.

(** C7. DeleteRole, sent by an owner or admin of the role's workspace,
    answers 200 and removes the role with every role_permissions row and
    every user_roles row that refers to it.  A principal who is neither
    owner nor admin and to whom no other assigned role grants the code is
    refused (403) by every later checkPermission for that code. *)
Theorem deleteRole_revokes (w : world) (requester roleId : uuid) :
  fault_free w ->
  role_not_admin (select_role_with_member_role roleId requester (store w))
  = false ->
  let after := store (world_of (deleteRole requester roleId w)) in
  value_of (deleteRole requester roleId w)
  = Some (Send 200 (MessageBody "Rôle supprimé"))
  /\ (forall r, In r (workspace_roles after) -> r_id r <> roleId)
  /\ (forall rp, In rp (role_permissions after) -> rp_role_id rp <> roleId)
  /\ (forall ur, In ur (user_roles after) -> ur_role_id ur <> roleId)
  /\ (forall principal workspaceId code (w2 : world),
        match Membership (store w) workspaceId principal with
        | Some role => includes owner_or_admin role
        | None => false
        end = false ->
        (forall r, In r (RoleAssignments (store w) principal workspaceId) ->
                   includes (role_grants r (store w)) code = true ->
                   r = roleId) ->
        fault_free w2 -> store w2 = after -> workspaceId <> EmptyString ->
        exists body,
          value_of (checkPermission code principal (Some workspaceId) None w2)
          = Some (Send 403 body)).
Proof.
  intros Hf Ha after. subst after.
  rewrite (deleteRole_run requester roleId Hf Ha).
  cbn [value_of world_of store with_store].
  split; [reflexivity|]. split; [|split; [|split]].
  - intros r Hr. eapply (@filter_negb_eqb_In _ r_id). exact Hr.
  - intros rp Hr. eapply (@filter_negb_eqb_In _ rp_role_id). exact Hr.
  - intros ur Hr. eapply (@filter_negb_eqb_In _ ur_role_id). exact Hr.
  - intros principal workspaceId code w2 Hm Honly Hf2 Hst Hne.
    rewrite checkPermission_value by assumption. rewrite Hst.
    unfold Membership in Hm.
    change (select_member_role workspaceId principal
              (set_workspace_roles _ _))
      with (select_member_role workspaceId principal (store w)).
    destruct (select_member_role workspaceId principal (store w))
      as [|role rest]; [eexists; reflexivity|].
    cbn [hd_error] in Hm. rewrite Hm.
    rewrite count_user_permission_positive.
    match goal with
    | |- context [includes ?codes code] =>
        assert (Hnone : includes codes code = false)
    end.
    { unfold includes. rewrite existsb_flat_map.
      apply not_true_is_false. intros Hex.
      apply existsb_exists in Hex. destruct Hex as (r & Hr & Hg).
      unfold RoleAssignments in Hr.
      cbn [user_roles set_workspace_roles set_role_permissions
           set_user_roles] in Hr.
      apply in_map_iff in Hr. destruct Hr as (ur & <- & Hur).
      apply filter_In in Hur. destruct Hur as [Hur Hk].
      assert (Hneq : ur_role_id ur <> roleId)
        by (eapply (@filter_negb_eqb_In _ ur_role_id); exact Hur).
      rewrite role_grants_after_delete in Hg by exact Hneq.
      apply Hneq, Honly; [|exact Hg].
      unfold RoleAssignments. apply in_map, filter_In.
      apply filter_In in Hur. now split. }
    rewrite Hnone. eexists; reflexivity.
Qed.

Lemma deleteRole_revokes_witness :
  value_of (checkPermission "budget.edit" bob (Some acme) None
              (quiet some_ids tenant)) = Some (Next tt)
  /\ value_of (deleteRole alice budget_manager (quiet some_ids tenant))
     = Some (Send 200 (MessageBody "Rôle supprimé"))
  /\ exists body,
       value_of (checkPermission "budget.edit" bob (Some acme) None
                   (quiet some_ids
                      (store (world_of (deleteRole alice budget_manager
                                          (quiet some_ids tenant))))))
       = Some (Send 403 body).
Proof.
  split; [reflexivity|].
  pose proof (@deleteRole_revokes (quiet some_ids tenant) alice budget_manager
                (fault_free_quiet some_ids tenant) eq_refl) as H.
  cbv zeta in H. destruct H as (H1 & _ & _ & _ & H5).
  split; [exact H1|].
  apply H5.
  - reflexivity.
  - intros r [<-|[]] _. reflexivity.
  - apply fault_free_quiet.
  - reflexivity.
  - discriminate.
Defined.

(** ** Running a transaction *)

Lemma same_env_refl w : same_env w w.
Proof. repeat split. Qed.

Lemma same_env_trans w1 w2 w3 :
  same_env w1 w2 -> same_env w2 w3 -> same_env w1 w3.
Proof.
  intros (A1 & A2 & A3 & A4) (B1 & B2 & B3 & B4).
  repeat split; congruence.
Qed.

Lemma same_env_tick w : same_env w (tick w).
Proof. repeat split. Qed.

Lemma same_env_with_txn t w : same_env w (with_txn t w).
Proof. repeat split. Qed.

Lemma spares_same_env w w' :
  same_env w w' -> spares_all_but_audit w -> spares_all_but_audit w'.
Proof. intros (_ & E & _) H n rel Hr. rewrite E. now apply H. Qed.


#[local] Hint Resolve same_env_refl same_env_tick same_env_with_txn : run.

(** One statement on the client inside an open transaction. *)
Lemma client_query_eq A rel (s : statement A) w t :
  txn w = Some t ->
  client_query rel s w
  = if faults w (clock w) rel then Thrown StorageFault (tick w)
    else match s t with
         | inl e => Thrown e (tick w)
         | inr (a, t') => Done a (with_txn (Some t') (tick w))
         end.
Proof.
  intros Ht. unfold client_query, bind, round_trip.
  destruct (faults w (clock w) rel); [reflexivity|].
  cbn [txn tick]. rewrite Ht. reflexivity.
Qed.

Lemma client_query_reading_eq A rel (f : DB -> A) w t :
  txn w = Some t ->
  client_query rel (reading f) w
  = if faults w (clock w) rel then Thrown StorageFault (tick w)
    else Done (f t) (with_txn (Some t) (tick w)).
Proof. intros Ht. now rewrite (client_query_eq _ _ _ Ht). Qed.

Lemma insert_role_permission_do_nothing_eq roleId pid t :
  insert_role_permission_do_nothing roleId pid t
  = inr (tt, if has_role_permission roleId pid t then t
             else add_role_permission roleId pid t).
Proof.
  unfold insert_role_permission_do_nothing.
  now destruct (has_role_permission roleId pid t).
Qed.

(** The loop of POST /roles, when the storage layer answers. *)
Lemma grant_known_run roleId codes : forall w t,
  spares_all_but_audit w -> txn w = Some t ->
  exists w',
    for_of codes (fun permCode =>
      permResult <- client_query Permissions
                      (reading (select_permission_id permCode)) ;;
      match permResult with
      | permission_id :: _ =>
          client_query RolePermissions
            (insert_role_permission_do_nothing roleId permission_id)
      | [] => ret tt
      end) w = Done tt w'
    /\ same_env w w' /\ txn w' = Some (grant_known roleId codes t)
    /\ clock w <= clock w'.
Proof.
  induction codes as [|c codes IH]; intros w t Hs Ht.
  - exists w. cbn. auto with run.
  - cbn [for_of grant_known]. unfold bind at 1. unfold bind at 1.
    rewrite (client_query_reading_eq _ _ _ Ht).
    rewrite (Hs _ Permissions eq_refl).
    assert (Ht1 : txn (with_txn (Some t) (tick w)) = Some t) by reflexivity.
    destruct (select_permission_id c t) as [|pid pids].
    + destruct (IH _ t (spares_same_env
                          (same_env_trans (same_env_tick w)
                             (same_env_with_txn (Some t) (tick w))) Hs) Ht1)
        as (w' & Hrun & He & Htx & Hc).
      exists w'. cbn [ret]. rewrite Hrun. repeat split; try apply He; auto.
      cbn in Hc. lia.
    + rewrite (client_query_eq _ _ _ Ht1).
      change (faults (with_txn (Some t) (tick w))) with (faults w).
      rewrite (Hs _ RolePermissions eq_refl).
      rewrite insert_role_permission_do_nothing_eq.
      set (t1 := if has_role_permission roleId pid t then t
                 else add_role_permission roleId pid t).
      set (w1 := with_txn (Some t1) (tick (with_txn (Some t) (tick w)))).
      assert (He1 : same_env w w1) by (repeat split).
      destruct (IH w1 t1 (spares_same_env He1 Hs) eq_refl)
        as (w' & Hrun & He & Htx & Hc).
      exists w'. rewrite Hrun. split; [reflexivity|].
      split; [exact (same_env_trans He1 He)|]. split; [exact Htx|].
      cbn in Hc. lia.
Qed.

(** POST /roles from the access check to the answer, when every statement
    but the audit write is answered: the role and its grants are committed
    before the audit write is attempted at clock [k]. *)
Lemma createRole_run w userId workspaceId name description color permissions
  role t1 :
  spares_all_but_audit w ->
  not_admin (select_member_role workspaceId userId (store w)) = false ->
  insert_workspace_role (uuid_generate_v4 w (3 + clock w)) workspaceId name
    description (js_or_default color "#6366f1") (store w) = inr (role, t1) ->
  let codes := match permissions with Some cs => cs | None => [] end in
  let t2 := grant_known (r_id role) codes t1 in
  let entry :=
    {| al_workspace_id := workspaceId; al_action := "role_created";
       al_entity_type := "role"; al_entity_id := r_id role;
       al_target_user_id := None; al_performed_by := userId;
       al_old_value := None;
       al_new_value := Some (JRole name permissions) |} in
  exists k wf,
    createRole userId true workspaceId name description color permissions w
    = Done (if faults w k PermissionAuditLogs
            then Send 500 (ErrorBody "Erreur")
            else Send 201 (RoleBody (r_id role) (r_name role)
                             (r_description role) (r_color role) codes)) wf
    /\ store wf
       = (if faults w k PermissionAuditLogs then t2
          else set_permission_audit_logs
                 (permission_audit_logs t2 ++ [entry]) t2)
    /\ console wf
       = (if faults w k PermissionAuditLogs
          then console w ++ [(LogError, "Create role error:")]
          else console w)
    /\ txn wf = None.
Proof.
  intros Hs Ha Hins codes t2 entry.
  unfold createRole. cbn [negb].
  unfold try_catch at 1. unfold bind at 1.
  rewrite db_query_reading_eq, (Hs _ WorkspaceMembers eq_refl), Ha.
  unfold bind at 1. unfold pool_connect, round_trip at 1.
  change (faults (tick w)) with (faults w). rewrite (Hs _ Pool eq_refl).
  unfold try_finally, try_catch at 1.
  unfold bind at 1. unfold client_BEGIN at 1. unfold bind at 1.
  unfold round_trip at 1.
  change (faults (tick (tick w))) with (faults w).
  rewrite (Hs _ Transaction eq_refl).
  unfold bind at 1. unfold next_uuid at 1.
  set (w3 := with_txn (Some (store (tick (tick (tick w)))))
               (tick (tick (tick w)))).
  change (uuid_generate_v4 w3 (clock w3))
    with (uuid_generate_v4 w (3 + clock w)).
  unfold bind at 1.
  rewrite (@client_query_eq _ WorkspaceRoles _ w3 (store w) eq_refl).
  change (faults w3) with (faults w). rewrite (Hs _ WorkspaceRoles eq_refl).
  rewrite Hins.
  set (w4 := with_txn (Some t1) (tick w3)).
  assert (He4 : same_env w w4) by (repeat split).
  assert (Hloop : exists w5,
    match permissions with
    | Some ((_ :: _) as codes0) =>
        for_of codes0
          (fun permCode : string =>
             permResult <- client_query Permissions
                             (reading (select_permission_id permCode));;
             match permResult with
             | [] => ret tt
             | permission_id :: _ =>
                 client_query RolePermissions
                   (insert_role_permission_do_nothing (r_id role)
                                                      permission_id)
             end)
    | _ => ret tt
    end w4 = Done tt w5
    /\ same_env w4 w5 /\ txn w5 = Some t2).
  { destruct permissions as [[|c cs]|].
    - exists w4. repeat split.
    - destruct (@grant_known_run (r_id role) (c :: cs) w4 t1
                  (spares_same_env He4 Hs) eq_refl)
        as (w5 & Hrun & He & Htx & _).
      exists w5. auto.
    - exists w4. repeat split. }
  destruct Hloop as (w5 & Hrun & He5 & Htx5).
  unfold bind at 1. rewrite Hrun.
  pose proof (same_env_trans He4 He5) as (Hst5 & Hf5 & Hu5 & Hc5).
  unfold bind at 1. unfold client_COMMIT at 1. unfold bind at 1.
  unfold round_trip at 1. rewrite Hf5, (Hs _ Transaction eq_refl).
  cbn [txn tick]. rewrite Htx5.
  set (w6 := with_txn None (with_store t2 (tick w5))).
  unfold bind at 1. rewrite db_query_eq.
  change (faults w6) with (faults w5). rewrite Hf5.
  exists (clock w6).
  destruct (faults w (clock w6) PermissionAuditLogs).
  - unfold bind at 1. unfold client_ROLLBACK, bind, round_trip.
    change (faults (tick w6)) with (faults w5). rewrite Hf5.
    rewrite (Hs _ Transaction eq_refl).
    cbn. eexists. split; [reflexivity|]. cbn. rewrite Hc5. auto.
  - cbn. eexists. split; [reflexivity|]. cbn. rewrite Hc5. auto.
Qed.

(** The grant loop writes to role_permissions and to nothing else. *)
Lemma grant_known_frame roleId codes : forall t,
  grant_known roleId codes t
  = set_role_permissions (role_permissions (grant_known roleId codes t)) t.
Proof.
  induction codes as [|c codes IH]; intros t; cbn [grant_known].
  - now destruct t.
  - destruct (select_permission_id c t) as [|pid pids]; [apply IH|].
    destruct (has_role_permission roleId pid t); [apply IH|].
    rewrite IH at 1. reflexivity.
Qed.

Lemma insert_workspace_role_inr id ws name description color d role t :
  insert_workspace_role id ws name description color d = inr (role, t) ->
  role = {| r_id := id; r_workspace_id := ws; r_name := name;
            r_description := description; r_color := color |}
  /\ t = set_workspace_roles (workspace_roles d ++ [role]) d.
Proof.
  unfold insert_workspace_role. destruct (existsb _ _); [discriminate|].
  intros H. inversion H; subst. auto.
Qed.

(** C5, as the code has it.  When the audit write of POST /roles fails
    after COMMIT, the role and its grants stay committed, but the failure
    is not absorbed: it is logged at error level and the caller is answered
    500. *)
Theorem createRole_audit_failure (w : world) (userId workspaceId : uuid)
  (name : string) (description color : option string)
  (permissions : option (list string)) (role : workspace_roles_row) (t1 : DB) :
  spares_all_but_audit w ->
  (forall n, faults w n PermissionAuditLogs = true) ->
  not_admin (select_member_role workspaceId userId (store w)) = false ->
  insert_workspace_role (uuid_generate_v4 w (3 + clock w)) workspaceId name
    description (js_or_default color "#6366f1") (store w) = inr (role, t1) ->
  let run :=
    createRole userId true workspaceId name description color permissions w in
  value_of run = Some (Send 500 (ErrorBody "Erreur"))
  /\ console (world_of run)
     = console w ++ [(LogError, "Create role error:")]
  /\ store (world_of run)
     = grant_known (r_id role)
         (match permissions with Some cs => cs | None => [] end) t1
  /\ workspace_roles (store (world_of run)) = workspace_roles (store w) ++ [role]
  /\ permission_audit_logs (store (world_of run))
     = permission_audit_logs (store w).
Proof.
  intros Hs Hdown Ha Hins run.
  destruct (createRole_run userId workspaceId name description color
              permissions Hs Ha Hins) as (k & wf & Hrun & Hst & Hco & _).
  rewrite Hdown in Hrun, Hst, Hco. subst run. rewrite Hrun.
  cbn [value_of world_of]. rewrite Hst, Hco.
  apply insert_workspace_role_inr in Hins. destruct Hins as [_ Ht1].
  repeat split; rewrite grant_known_frame, Ht1; reflexivity.
Qed.

Lemma createRole_audit_failure_witness :
  let run :=
    createRole alice true acme "Auditor" None None (Some ["board.edit"])
      (audit_down some_ids tenant) in
  value_of run = Some (Send 500 (ErrorBody "Erreur"))
  /\ console (world_of run) = [(LogError, "Create role error:")]
  /\ workspace_roles (store (world_of run))
     = workspace_roles tenant
         ++ [{| r_id := some_ids 3; r_workspace_id := acme;
                r_name := "Auditor"; r_description := None;
                r_color := "#6366f1" |}].
Proof.
  assert (Hs : spares_all_but_audit (audit_down some_ids tenant)).
  { intros n rel Hr. exact Hr. }
  assert (Hdown : forall n,
             faults (audit_down some_ids tenant) n PermissionAuditLogs = true).
  { intros n. reflexivity. }
  destruct (@createRole_audit_failure (audit_down some_ids tenant) alice acme
              "Auditor" None None (Some ["board.edit"]) _ _ Hs Hdown
              eq_refl eq_refl) as (H1 & H2 & _ & H4 & _).
  split; [exact H1|]. split; [exact H2 | exact H4].
Defined.

(** C5 as stated fails on the code: with the audit table out of reach the
    owner's POST /roles is answered 500 and logged as an error, although the
    role is in the store. *)
Lemma audit_failure_counterexample :
  let run :=
    createRole alice true acme "Auditor" None None (Some ["board.edit"])
      (audit_down some_ids tenant) in
  value_of run = Some (Send 500 (ErrorBody "Erreur"))
  /\ console (world_of run) = [(LogError, "Create role error:")]
  /\ map r_name (workspace_roles (store (world_of run)))
     = ["Budget Manager"; "Auditor"]
  /\ role_grants (some_ids 3) (store (world_of run)) = ["board.edit"].
Proof. vm_compute. repeat split. Qed.

(** ** The grant loop of PUT /roles/:roleId *)

Lemma select_permission_id_nil c t :
  select_permission_id c t = []
  <-> existsb (fun p => p_code p =? c) (permissions t) = false.
Proof.
  unfold select_permission_id.
  induction (permissions t) as [|p ps IH]; cbn [filter map existsb];
    [tauto|].
  destruct (p_code p =? c); cbn [map orb]; [|exact IH].
  split; discriminate.
Qed.

Lemma select_permission_id_head c t pid rest :
  select_permission_id c t = pid :: rest ->
  exists p, In p (permissions t) /\ p_code p = c /\ p_id p = pid.
Proof.
  unfold select_permission_id. intros H.
  assert (Hin : In pid (map p_id (filter (fun p => p_code p =? c)
                                         (permissions t)))).
  { rewrite H. now left. }
  apply in_map_iff in Hin. destruct Hin as (p & Hid & Hp).
  apply filter_In in Hp. destruct Hp as [Hp Hc].
  exists p. apply String.eqb_eq in Hc. auto.
Qed.

Lemma known_codes_In c codes t :
  In c (known_codes codes t)
  <-> In c codes /\ select_permission_id c t <> [].
Proof.
  unfold known_codes. rewrite filter_In, select_permission_id_nil.
  destruct (existsb _ _); intuition congruence.
Qed.

Lemma filter_none A (p : A -> bool) l :
  (forall x, In x l -> p x = false) -> filter p l = [].
Proof.
  induction l as [|x l IH]; intros H; [reflexivity|].
  cbn [filter]. rewrite (H x (or_introl eq_refl)).
  apply IH. intros y Hy. apply H. now right.
Qed.

(** Under the primary key of the catalog an id joins with one row. *)
Lemma join_single P p :
  NoDup (map p_id P) -> In p P ->
  map p_code (filter (fun q => p_id q =? p_id p) P) = [p_code p].
Proof.
  induction P as [|q P IH]; intros Hnd Hin; [contradiction|].
  cbn [map] in Hnd. inversion Hnd as [|? ? Hq Hnd']; subst.
  cbn [filter]. destruct Hin as [->|Hin].
  - rewrite String.eqb_refl. cbn [map]. f_equal.
    assert (Hnone : filter (fun q => p_id q =? p_id p) P = []).
    { apply filter_none. intros q Hq'.
      apply String.eqb_neq. intros E. apply Hq. rewrite <- E.
      now apply in_map. }
    now rewrite Hnone.
  - destruct (p_id q =? p_id p) eqn:E; [|now apply IH].
    apply String.eqb_eq in E. elim Hq. rewrite E. now apply in_map.
Qed.

Lemma has_role_permission_add roleId pid roleId' pid' t :
  has_role_permission roleId' pid' (add_role_permission roleId pid t)
  = has_role_permission roleId' pid' t
    || ((roleId =? roleId') && (pid =? pid')).
Proof.
  unfold has_role_permission, add_role_permission.
  cbn [role_permissions set_role_permissions].
  rewrite existsb_app. cbn. now rewrite orb_false_r.
Qed.

(** For a list that repeats no code of the catalog the loop runs to its
    end, adding one row per known code, in order. *)
Lemma grant_strict_known roleId codes : forall t,
  NoDup (map p_id (permissions t)) ->
  NoDup (known_codes codes t) ->
  (forall c pid rest,
      In c codes -> select_permission_id c t = pid :: rest ->
      has_role_permission roleId pid t = false) ->
  grant_strict roleId codes t
  = inr (set_role_permissions
           (role_permissions t
              ++ map (grant_row roleId t) (known_codes codes t)) t).
Proof.
  induction codes as [|c codes IH]; intros t Hpk Hnd Hfree.
  - cbn. rewrite app_nil_r. now destruct t.
  - cbn [grant_strict].
    destruct (select_permission_id c t) as [|pid rest] eqn:Esel.
    + assert (Hk : known_codes (c :: codes) t = known_codes codes t).
      { unfold known_codes. cbn [filter].
        apply select_permission_id_nil in Esel. now rewrite Esel. }
      rewrite Hk in *. apply IH; try assumption.
      intros c' pid' rest' Hc'. apply Hfree. now right.
    + assert (Hk : known_codes (c :: codes) t = c :: known_codes codes t).
      { unfold known_codes. cbn [filter].
        destruct (existsb (fun p => p_code p =? c) (permissions t)) eqn:Ex;
          [reflexivity|].
        apply select_permission_id_nil in Ex. congruence. }
      rewrite Hk in *. inversion Hnd as [|? ? Hc Hnd']; subst.
      rewrite (Hfree c pid rest (or_introl eq_refl) Esel).
      set (t1 := add_role_permission roleId pid t).
      assert (Hstep : grant_strict roleId codes t1
                      = inr (set_role_permissions
                               (role_permissions t1
                                  ++ map (grant_row roleId t1)
                                         (known_codes codes t1)) t1)).
      { apply IH; [exact Hpk | exact Hnd' |].
        intros c' pid' rest' Hc' Esel'.
        change (select_permission_id c' t1)
          with (select_permission_id c' t) in Esel'.
        unfold t1. rewrite has_role_permission_add.
        rewrite (Hfree c' pid' rest' (or_intror Hc') Esel').
        rewrite String.eqb_refl. cbn [orb andb].
        apply String.eqb_neq. intros Epid. subst pid'.
        destruct (select_permission_id_head _ _ Esel) as (p & Hp & Hpc & Hpi).
        destruct (select_permission_id_head _ _ Esel')
          as (p' & Hp' & Hpc' & Hpi').
        assert (Hsame : [p_code p] = [p_code p']).
        { rewrite <- (@join_single _ p Hpk Hp), <- (@join_single _ p' Hpk Hp').
          now rewrite Hpi, Hpi'. }
        assert (Ecc : c = c') by congruence.
        apply Hc. apply known_codes_In. rewrite Ecc. split; [exact Hc'|].
        rewrite Esel'. discriminate. }
      rewrite Hstep. unfold t1, add_role_permission.
      cbn [role_permissions set_role_permissions]. rewrite <- app_assoc.
      cbn [app map].
      replace (grant_row roleId t c)
        with {| rp_role_id := roleId; rp_permission_id := pid |}
        by (unfold grant_row; now rewrite Esel).
      reflexivity.
Qed.

Lemma grant_row_join roleId t c :
  NoDup (map p_id (permissions t)) ->
  select_permission_id c t <> [] ->
  map p_code
    (filter (fun p => p_id p =? rp_permission_id (grant_row roleId t c))
            (permissions t))
  = [c].
Proof.
  intros Hpk Hne. unfold grant_row. cbn [rp_permission_id].
  destruct (select_permission_id c t) as [|pid rest] eqn:E; [contradiction|].
  destruct (select_permission_id_head _ _ E) as (p & Hp & Hc & Hi).
  cbn [hd]. rewrite <- Hi, <- Hc. now apply join_single.
Qed.

(** The codes of a role once the rows of the loop are in the table. *)
Lemma role_grants_granted roleId r t rows known :
  NoDup (map p_id (permissions t)) ->
  (forall c, In c known -> select_permission_id c t <> []) ->
  role_grants r
    (set_role_permissions (rows ++ map (grant_row roleId t) known) t)
  = role_grants r (set_role_permissions rows t)
    ++ (if roleId =? r then known else []).
Proof.
  intros Hpk Hk. unfold role_grants.
  cbn [role_permissions permissions set_role_permissions].
  rewrite filter_app, flat_map_app. f_equal.
  induction known as [|c known IH]; cbn [map filter rp_role_id grant_row].
  - now destruct (roleId =? r).
  - destruct (roleId =? r) eqn:E.
    + cbn [flat_map].
      change {| rp_role_id := roleId;
                rp_permission_id := hd EmptyString (select_permission_id c t) |}
        with (grant_row roleId t c).
      rewrite grant_row_join; [|exact Hpk|apply Hk; now left].
      cbn [app]. f_equal. apply IH. intros c' Hc'. apply Hk. now right.
    + apply IH. intros c' Hc'. apply Hk. now right.
Qed.

Lemma role_grants_deleted roleId r d :
  role_grants r
    (set_role_permissions
       (filter (fun rp => negb (rp_role_id rp =? roleId))
               (role_permissions d)) d)
  = if roleId =? r then [] else role_grants r d.
Proof.
  unfold role_grants.
  cbn [role_permissions permissions set_role_permissions].
  destruct (roleId =? r) eqn:E.
  - apply String.eqb_eq in E. subst r.
    rewrite (@filter_none _ (fun rp => rp_role_id rp =? roleId));
      [reflexivity|].
    intros rp Hrp. apply filter_In in Hrp. destruct Hrp as [_ Hrp].
    now apply negb_true_iff in Hrp.
  - f_equal. induction (role_permissions d) as [|rp rps IH]; [reflexivity|].
    cbn [filter]. destruct (rp_role_id rp =? roleId) eqn:E1; cbn [negb filter].
    + destruct (rp_role_id rp =? r) eqn:E2; [|exact IH].
      apply String.eqb_eq in E1, E2. apply String.eqb_neq in E. congruence.
    + destruct (rp_role_id rp =? r); [now rewrite IH | exact IH].
Qed.

(** The replacement of the grants of a role, when the list repeats no code
    of the catalog: the role ends with exactly the known codes, in the
    order given, and every other role keeps its codes. *)
Lemma replace_grants roleId codes d :
  NoDup (map p_id (permissions d)) ->
  NoDup (known_codes codes d) ->
  exists d',
    grant_strict roleId codes
      (set_role_permissions
         (filter (fun rp => negb (rp_role_id rp =? roleId))
                 (role_permissions d)) d) = inr d'
    /\ role_grants roleId d' = known_codes codes d
    /\ (forall r, r <> roleId -> role_grants r d' = role_grants r d)
    /\ d' = set_role_permissions (role_permissions d') d.
Proof.
  intros Hpk Hnd.
  set (d0 := set_role_permissions
               (filter (fun rp => negb (rp_role_id rp =? roleId))
                       (role_permissions d)) d).
  assert (Hrun := @grant_strict_known roleId codes d0 Hpk Hnd).
  eexists. split.
  - apply Hrun. intros c pid rest _ _.
    unfold has_role_permission, d0.
    cbn [role_permissions set_role_permissions].
    apply not_true_is_false. intros Hex. apply existsb_exists in Hex.
    destruct Hex as (rp & Hrp & Hk). apply filter_In in Hrp.
    destruct Hrp as [_ Hrp]. apply andb_true_iff in Hk.
    destruct Hk as [Hk _]. now rewrite Hk in Hrp.
  - assert (Hknown : forall c, In c (known_codes codes d0) ->
                               select_permission_id c d0 <> []).
    { intros c Hc. now apply known_codes_In in Hc. }
    split; [|split].
    + rewrite role_grants_granted by assumption.
      change (set_role_permissions (role_permissions d0) d0) with d0.
      unfold d0 at 1. rewrite role_grants_deleted, !String.eqb_refl.
      reflexivity.
    + intros r Hne.
      rewrite role_grants_granted by assumption.
      change (set_role_permissions (role_permissions d0) d0) with d0.
      unfold d0 at 1. rewrite role_grants_deleted.
      assert (E : (roleId =? r) = false)
        by (apply String.eqb_neq; congruence).
      rewrite E. apply app_nil_r.
    + reflexivity.
Qed.

Lemma insert_role_permission_eq roleId pid t :
  insert_role_permission roleId pid t
  = if has_role_permission roleId pid t then inl unique_violation
    else inr (tt, add_role_permission roleId pid t).
Proof. reflexivity. Qed.

Lemma fault_free_same_env w w' :
  same_env w w' -> fault_free w -> fault_free w'.
Proof. intros (_ & E & _) H n rel. rewrite E. apply H. Qed.

(** The loop of PUT /roles/:roleId inside the open transaction, under any
    behaviour of the storage layer: it ends with the copy [grant_strict]
    computes, or it throws; when no statement is refused, what it throws is
    the error of [grant_strict]. *)
Lemma grant_strict_run roleId codes : forall w t,
  txn w = Some t ->
  match for_of codes (fun permCode =>
          permResult <- client_query Permissions
                          (reading (select_permission_id permCode)) ;;
          match permResult with
          | permission_id :: _ =>
              client_query RolePermissions
                (insert_role_permission roleId permission_id)
          | [] => ret tt
          end) w with
  | Done _ w' =>
      same_env w w'
      /\ exists t', grant_strict roleId codes t = inr t' /\ txn w' = Some t'
  | Thrown e w' =>
      same_env w w' /\ (fault_free w -> grant_strict roleId codes t = inl e)
  end.
Proof.
  induction codes as [|c codes IH]; intros w t Ht.
  - cbn. split; [apply same_env_refl|]. now exists t.
  - cbn [for_of grant_strict]. unfold bind at 1. unfold bind at 1.
    rewrite (client_query_reading_eq _ _ _ Ht).
    destruct (faults w (clock w) Permissions) eqn:Ef.
    { split; [apply same_env_tick|]. intros Hff. now rewrite Hff in Ef. }
    set (w1 := with_txn (Some t) (tick w)).
    assert (He1 : same_env w w1) by (repeat split).
    destruct (select_permission_id c t) as [|pid pids].
    + cbn [ret]. specialize (IH w1 t eq_refl).
      destruct (for_of codes _ w1) as [u w'|e w'].
      * destruct IH as [He Hr]. split; [exact (same_env_trans He1 He)|].
        exact Hr.
      * destruct IH as [He Hr]. split; [exact (same_env_trans He1 He)|].
        intros Hff. apply Hr. exact (fault_free_same_env He1 Hff).
    + rewrite (@client_query_eq _ RolePermissions _ w1 t eq_refl).
      change (faults w1) with (faults w).
      destruct (faults w (clock w1) RolePermissions) eqn:Ef2.
      { split; [repeat split|]. intros Hff. now rewrite Hff in Ef2. }
      rewrite insert_role_permission_eq.
      destruct (has_role_permission roleId pid t).
      { split; [repeat split|]. reflexivity. }
      set (t1 := add_role_permission roleId pid t).
      set (w2 := with_txn (Some t1) (tick w1)).
      assert (He2 : same_env w w2) by (repeat split).
      specialize (IH w2 t1 eq_refl).
      destruct (for_of codes _ w2) as [u w'|e w'].
      * destruct IH as [He Hr]. split; [exact (same_env_trans He2 He)|].
        exact Hr.
      * destruct IH as [He Hr]. split; [exact (same_env_trans He2 He)|].
        intros Hff. apply Hr. exact (fault_free_same_env He2 Hff).
Qed.

(** The transaction of PUT /roles/:roleId under any behaviour of the
    storage layer: either it commits what [updateRole_commits] computes, or
    it throws and the committed store is what it was. *)
Lemma updateRole_block_run roleId name description color permissions w :
  match updateRole_block roleId name description color permissions w with
  | Done r w' =>
      r = Send 200 (MessageBody "Rôle mis à jour")
      /\ updateRole_commits roleId name description color permissions (store w)
         = inr (store w')
      /\ txn w' = None /\ console w' = console w /\ faults w' = faults w
  | Thrown e w' =>
      store w' = store w /\ console w' = console w /\ faults w' = faults w
      /\ (fault_free w ->
          updateRole_commits roleId name description color permissions
            (store w) = inl e)
  end.
Proof.
  unfold updateRole_block, updateRole_commits, update_fields.
  unfold bind at 1. unfold client_BEGIN, bind at 1, round_trip.
  destruct (faults w (clock w) Transaction) eqn:Ef0.
  { repeat split. intros Hff. now rewrite Hff in Ef0. }
  set (w1 := with_txn (Some (store (tick w))) (tick w)).
  assert (Ht1 : txn w1 = Some (store w)) by reflexivity.
  assert (He1 : same_env w w1) by (repeat split).
  unfold bind at 1.
  assert (Hupd :
    match (if is_some name || is_some description || is_some color
           then client_query WorkspaceRoles
                  (update_workspace_role roleId name description color)
           else ret tt) w1 with
    | Done _ w2 =>
        same_env w w2
        /\ exists d1,
             (if is_some name || is_some description || is_some color
              then update_workspace_role roleId name description color
              else fun d => inr (tt, d)) (store w) = inr (tt, d1)
             /\ txn w2 = Some d1
    | Thrown e w2 =>
        same_env w w2
        /\ (fault_free w ->
            (if is_some name || is_some description || is_some color
             then update_workspace_role roleId name description color
             else fun d => inr (tt, d)) (store w) = inl e)
    end).
  { destruct (is_some name || is_some description || is_some color).
    - rewrite (client_query_eq _ _ _ Ht1).
      change (faults w1) with (faults w).
      destruct (faults w (clock w1) WorkspaceRoles) eqn:Ef.
      { split; [repeat split|]. intros Hff. now rewrite Hff in Ef. }
      destruct (update_workspace_role roleId name description color (store w))
        as [e|[[] d1]].
      + split; [repeat split|]. reflexivity.
      + split; [repeat split|]. now exists d1.
    - cbn [ret]. split; [exact He1|]. now exists (store w). }
  destruct ((if is_some name || is_some description || is_some color
             then client_query WorkspaceRoles
                    (update_workspace_role roleId name description color)
             else ret tt) w1) as [u w2|e w2].
  2:{ destruct Hupd as [(Hs & Hf & _ & Hc) Hr]. repeat split; try assumption.
      intros Hff. now rewrite (Hr Hff). }
  destruct Hupd as [He2 (d1 & Hd1 & Ht2)]. rewrite Hd1.
  set (pure := match permissions with
               | Some codes =>
                   grant_strict roleId codes
                     (set_role_permissions
                        (filter (fun rp => negb (rp_role_id rp =? roleId))
                                (role_permissions d1)) d1)
               | None => inr d1
               end).
  unfold bind at 1.
  assert (Hperm :
    match match permissions with
          | Some codes =>
              client_query RolePermissions (delete_role_permissions roleId);;;
              for_of codes
                (fun permCode : string =>
                   permResult <- client_query Permissions
                                   (reading (select_permission_id permCode));;
                   match permResult with
                   | [] => ret tt
                   | permission_id :: _ =>
                       client_query RolePermissions
                         (insert_role_permission roleId permission_id)
                   end)
          | None => ret tt
          end w2 with
    | Done _ w3 =>
        same_env w w3 /\ exists d2, pure = inr d2 /\ txn w3 = Some d2
    | Thrown e w3 => same_env w w3 /\ (fault_free w -> pure = inl e)
    end).
  { unfold pure. destruct permissions as [codes|].
    - unfold bind at 1. rewrite (client_query_eq _ _ _ Ht2).
      destruct He2 as (Hs2 & Hf2 & Hu2 & Hc2). rewrite Hf2.
      destruct (faults w (clock w2) RolePermissions) eqn:Ef.
      { split; [repeat split; assumption|].
        intros Hff. now rewrite Hff in Ef. }
      unfold delete_role_permissions, writing.
      set (d1' := set_role_permissions
                    (filter (fun rp => negb (rp_role_id rp =? roleId))
                            (role_permissions d1)) d1).
      set (w2' := with_txn (Some d1') (tick w2)).
      assert (He2' : same_env w w2') by (repeat split; assumption).
      pose proof (@grant_strict_run roleId codes w2' d1' eq_refl) as Hloop.
      destruct (for_of codes _ w2') as [u' w3|e w3].
      + destruct Hloop as [He Hr]. split; [exact (same_env_trans He2' He)|].
        exact Hr.
      + destruct Hloop as [He Hr]. split; [exact (same_env_trans He2' He)|].
        intros Hff. apply Hr. exact (fault_free_same_env He2' Hff).
    - cbn [ret]. split; [exact He2|]. now exists d1. }
  destruct (match permissions with
            | Some codes => _
            | None => ret tt
            end w2) as [u3 w3|e w3].
  2:{ destruct Hperm as [(Hs & Hf & _ & Hc) Hr]. repeat split; assumption. }
  destruct Hperm as [(Hs3 & Hf3 & Hu3 & Hc3) (d2 & Hd2 & Ht3)].
  unfold bind at 1. unfold client_COMMIT, bind at 1, round_trip.
  rewrite Hf3.
  destruct (faults w (clock w3) Transaction) eqn:Ef.
  { cbn. repeat split; try assumption. intros Hff. now rewrite Hff in Ef. }
  cbn [tick txn]. rewrite Ht3. cbn. repeat split; assumption.
Qed.

(** PUT /roles/:roleId as a whole.  Under any behaviour of the storage
    layer the committed store is either untouched or what the transaction
    commits; when every statement is answered and the requester is owner or
    admin, the answer says which. *)
Lemma updateRole_outcome userId roleId name description color permissions w :
  (store (world_of (updateRole userId roleId name description color
                      permissions w)) = store w
   \/ (updateRole_commits roleId name description color permissions (store w)
       = inr (store (world_of (updateRole userId roleId name description
                                 color permissions w)))
       /\ value_of (updateRole userId roleId name description color
                      permissions w)
          = Some (Send 200 (MessageBody "Rôle mis à jour"))))
  /\ (fault_free w ->
      role_not_admin (select_role_with_member_role roleId userId (store w))
      = false ->
      match updateRole_commits roleId name description color permissions
              (store w) with
      | inr d' =>
          value_of (updateRole userId roleId name description color
                      permissions w)
          = Some (Send 200 (MessageBody "Rôle mis à jour"))
          /\ store (world_of (updateRole userId roleId name description color
                                permissions w)) = d'
      | inl _ =>
          value_of (updateRole userId roleId name description color
                      permissions w)
          = Some (Send 500 (ErrorBody "Erreur"))
          /\ store (world_of (updateRole userId roleId name description color
                                permissions w)) = store w
      end).
Proof.
  remember (updateRole userId roleId name description color permissions w)
    as o eqn:Eo.
  unfold updateRole, try_catch at 1 in Eo. unfold bind at 1 in Eo.
  rewrite db_query_reading_eq in Eo.
  destruct (faults w (clock w) WorkspaceRoles) eqn:Ef0.
  { subst o. split; [now left|]. intros Hff. now rewrite Hff in Ef0. }
  destruct (role_not_admin
              (select_role_with_member_role roleId userId (store w))) eqn:Ea.
  { subst o. split; [now left|]. discriminate. }
  unfold bind at 1 in Eo. unfold pool_connect, round_trip in Eo.
  change (faults (tick w)) with (faults w) in Eo.
  destruct (faults w (clock (tick w)) Pool) eqn:Ef1.
  { subst o. split; [now left|]. intros Hff. now rewrite Hff in Ef1. }
  pose proof (updateRole_block_run roleId name description color permissions
                (tick (tick w))) as Hblock.
  unfold try_finally, try_catch in Eo.
  destruct (updateRole_block roleId name description color permissions
              (tick (tick w))) as [r w'|e w'].
  - destruct Hblock as (-> & Hcommit & Htx & Hco & Hf).
    change (store (tick (tick w))) with (store w) in Hcommit.
    subst o. cbn. split; [right; now split|]. intros _ _.
    now rewrite Hcommit.
  - destruct Hblock as (Hst & Hco & Hf & Hr).
    change (store (tick (tick w))) with (store w) in Hst, Hr.
    unfold bind, client_ROLLBACK, bind, round_trip in Eo.
    destruct (faults w' (clock w') Transaction); subst o; cbn.
    + split; [now left|]. intros Hff _. rewrite Hr; [now split|].
      intros n rel. apply (Hff n rel).
    + split; [now left|]. intros Hff _. rewrite Hr; [now split|].
      intros n rel. apply (Hff n rel).
Qed.

(** The UPDATE step writes to workspace_roles and to nothing else. *)
Lemma update_fields_frame roleId name description color d d1 :
  update_fields roleId name description color d = inr (tt, d1) ->
  d1 = set_workspace_roles (workspace_roles d1) d.
Proof.
  unfold update_fields, update_workspace_role.
  destruct (is_some name || is_some description || is_some color).
  - destruct (match name with Some _ => _ | None => false end);
      [discriminate|].
    intros H. inversion H. reflexivity.
  - intros H. inversion H. now destruct d1.
Qed.

(** C6, as the code has it.  PUT /roles/:roleId with a permissions list,
    sent by an owner or admin, answers 200 and leaves the role with exactly
    the listed codes that the catalog registers (the list naming none of
    them twice): the previous grants are gone, nothing is merged, and every
    other role keeps its codes.  Deletion and insertion are one
    transaction: under any behaviour of the storage layer the committed
    store is either untouched or what the whole transaction commits. *)
Theorem updateRole_replaces_grants (w : world) (userId roleId : uuid)
  (name description color : option string) (codes : list string) (d1 : DB) :
  fault_free w ->
  role_not_admin (select_role_with_member_role roleId userId (store w))
  = false ->
  update_fields roleId name description color (store w) = inr (tt, d1) ->
  NoDup (map p_id (permissions (store w))) ->
  NoDup (known_codes codes (store w)) ->
  let run := updateRole userId roleId name description color (Some codes) w in
  value_of run = Some (Send 200 (MessageBody "Rôle mis à jour"))
  /\ role_grants roleId (store (world_of run)) = known_codes codes (store w)
  /\ (forall r, r <> roleId ->
        role_grants r (store (world_of run)) = role_grants r (store w))
  /\ (forall (w' : world) u n de co ps,
        store (world_of (updateRole u roleId n de co ps w')) = store w'
        \/ updateRole_commits roleId n de co ps (store w')
           = inr (store (world_of (updateRole u roleId n de co ps w')))).
Proof.
  intros Hff Ha Hupd Hpk Hnd run.
  pose proof (update_fields_frame _ _ _ _ _ Hupd) as Hd1.
  assert (Hpk1 : NoDup (map p_id (permissions d1))) by (now rewrite Hd1).
  assert (Hnd1 : NoDup (known_codes codes d1)) by (now rewrite Hd1).
  destruct (@replace_grants roleId codes d1 Hpk1 Hnd1)
    as (d' & Hrun & Hg & Hother & _).
  destruct (updateRole_outcome userId roleId name description color
              (Some codes) w) as [_ Hok].
  specialize (Hok Hff Ha). unfold updateRole_commits in Hok.
  rewrite Hupd, Hrun in Hok. destruct Hok as [Hv Hs].
  subst run. rewrite Hv, Hs. split; [reflexivity|]. split; [|split].
  - rewrite Hg, Hd1. reflexivity.
  - intros r Hne. rewrite (Hother r Hne), Hd1. reflexivity.
  - intros w' u n de co ps.
    destruct (updateRole_outcome u roleId n de co ps w') as [[H|[H _]] _];
      auto.
Qed.

Lemma updateRole_replaces_grants_witness :
  let run :=
    updateRole alice budget_manager None None None
      (Some ["board.edit"; "project.delete"]) (quiet some_ids tenant) in
  value_of run = Some (Send 200 (MessageBody "Rôle mis à jour"))
  /\ role_grants budget_manager (store (world_of run))
     = ["board.edit"; "project.delete"].
Proof.
  assert (Hpk : NoDup (map p_id (permissions (store (quiet some_ids tenant))))).
  { cbn. repeat constructor; cbn; intuition discriminate. }
  assert (Hnd : NoDup (known_codes ["board.edit"; "project.delete"]
                         (store (quiet some_ids tenant)))).
  { cbn. repeat constructor; cbn; intuition discriminate. }
  destruct (@updateRole_replaces_grants (quiet some_ids tenant) alice
              budget_manager None None None
              ["board.edit"; "project.delete"] tenant
              (fault_free_quiet some_ids tenant) eq_refl eq_refl Hpk Hnd)
    as (H1 & H2 & _).
  split; [exact H1 | exact H2].
Defined.

(** C6 as stated fails on the code: a supplied code that the catalog does
    not register is skipped, so the grants are not the supplied set. *)
Lemma updateRole_counterexample :
  let supplied := ["board.edit"; "no.such.code"] in
  let run :=
    updateRole alice budget_manager None None None (Some supplied)
      (quiet some_ids tenant) in
  value_of run = Some (Send 200 (MessageBody "Rôle mis à jour"))
  /\ role_grants budget_manager (store (world_of run)) = ["board.edit"]
  /\ In "no.such.code" supplied
  /\ ~ In "no.such.code" (role_grants budget_manager (store (world_of run))).
Proof.
  vm_compute. repeat split; auto.
  intros [H|[]]. discriminate.
Qed.

(** C10 at a failing input.  A list that names a catalog code twice is
    accepted by POST /roles, whose INSERT has ON CONFLICT DO NOTHING, but
    PUT /roles/:roleId answers it with 500: the second INSERT violates
    UNIQUE(role_id, permission_id), the transaction is rolled back and the
    role keeps the grants it had.  Unknown codes are skipped by both. *)
Theorem updateRole_repeated_code_fails :
  let requested := ["board.edit"; "no.such.code"; "board.edit"] in
  let put :=
    updateRole alice budget_manager None None None (Some requested)
      (quiet some_ids tenant) in
  let post :=
    createRole alice true acme "Editor" None None (Some requested)
      (quiet some_ids tenant) in
  known_codes requested tenant = ["board.edit"; "board.edit"]
  /\ value_of put = Some (Send 500 (ErrorBody "Erreur"))
  /\ role_grants budget_manager (store (world_of put)) = ["budget.edit"]
  /\ value_of post
     = Some (Send 201 (RoleBody (some_ids 3) "Editor" None "#6366f1" requested))
  /\ role_grants (some_ids 3) (store (world_of post)) = ["board.edit"]
  /\ updateRole_commits budget_manager None None None (Some requested) tenant
     = inl unique_violation.
Proof. vm_compute. repeat split. Qed.

(** ** Ownership *)

(** C4 at a failing input.  Alice creates a workspace and then transfers
    it to herself: the request is answered 200, the second UPDATE of the
    transaction overwrites the role the first one set, and the workspace is
    left with no member holding 'owner'.  No later transfer can repair it,
    since the route admits only a requester whose role is 'owner'. *)
Theorem transferOwnership_to_self_leaves_no_owner :
  let created :=
    world_of (serve (CreateWorkspace alice true "Acme")
                (quiet some_ids empty_DB)) in
  let ws := some_ids 0 in
  let run := serve (TransferOwnership alice ws true alice) created in
  owners ws (store created) = [alice]
  /\ value_of run
     = Some (Send 200 (MessageBody "Propriété transférée avec succès"))
  /\ owners ws (store (world_of run)) = []
  /\ select_member_role ws alice (store (world_of run)) = ["admin"]
  /\ select_owner_id ws (store (world_of run)) = [alice]
  /\ reachable (store (world_of run))
  /\ value_of (transferOwnership alice ws true alice (world_of run))
     = Some (Send 403
               (ErrorBody "Seul le propriétaire peut transférer la propriété")).
Proof.
  cbv zeta.
  split; [vm_compute; reflexivity|]. split; [vm_compute; reflexivity|].
  split; [vm_compute; reflexivity|]. split; [vm_compute; reflexivity|].
  split; [vm_compute; reflexivity|]. split; [|vm_compute; reflexivity].
  eapply reachable_serve; [|reflexivity|vm_compute; reflexivity].
  eapply reachable_serve; [|reflexivity|reflexivity].
  apply reachable_fresh; [reflexivity|reflexivity|].
  intros b g. cbn. lia.
Qed.


(** ** What POST /roles grants and records *)





(** ** Transferring ownership to another member *)

Lemma client_query_writing_ok rel (f : DB -> DB) w t :
  fault_free w -> txn w = Some t ->
  client_query rel (writing f) w = Done tt (with_txn (Some (f t)) (tick w)).
Proof.
  intros Hff Ht. rewrite (client_query_eq _ _ _ Ht). now rewrite Hff.
Qed.

Lemma client_COMMIT_ok w t :
  fault_free w -> txn w = Some t ->
  client_COMMIT w = Done tt (with_txn None (with_store t (tick w))).
Proof.
  intros Hff Ht. unfold client_COMMIT, bind.
  rewrite round_trip_ok by assumption. cbn [tick txn]. now rewrite Ht.
Qed.

Lemma transferOwnership_run w userId workspaceId newOwnerId more :
  fault_free w ->
  workspaceId <> EmptyString ->
  select_member_role workspaceId userId (store w) = "owner" :: more ->
  select_member_role workspaceId newOwnerId (store w) <> [] ->
  value_of (transferOwnership userId workspaceId true newOwnerId w)
  = Some (Send 200 (MessageBody "Propriété transférée avec succès"))
  /\ store (world_of (transferOwnership userId workspaceId true newOwnerId w))
     = set_workspace_members
         (map (set_role_where "admin" workspaceId userId)
            (map (set_role_where "owner" workspaceId newOwnerId)
               (workspace_members (store w))))
         (set_workspaces
            (map (fun x =>
                    if w_id x =? workspaceId
                    then {| w_id := w_id x; w_name := w_name x;
                            w_owner_id := newOwnerId |}
                    else x)
               (workspaces (store w)))
            (store w)).
Proof.
  intros Hff Hne Hown Hmem.
  remember (transferOwnership userId workspaceId true newOwnerId w) as o eqn:Eo.
  unfold transferOwnership, guarded, checkWorkspaceAccess in Eo.
  unfold bind at 1 in Eo. unfold try_catch at 1 in Eo. cbn [js_or] in Eo.
  apply String.eqb_neq in Hne. rewrite Hne in Eo. cbn [truthy] in Eo.
  rewrite Hne in Eo. unfold bind at 1 in Eo.
  rewrite db_query_reading_ok in Eo by assumption. rewrite Hown in Eo.
  cbn [ret] in Eo. unfold try_catch at 1 in Eo.
  cbn [String.eqb Ascii.eqb Bool.eqb negb] in Eo.
  unfold bind at 1 in Eo.
  rewrite db_query_reading_ok in Eo by auto with run.
  change (store (tick w)) with (store w) in Eo.
  destruct (select_member_role workspaceId newOwnerId (store w))
    as [|r0 rs]; [contradiction|].
  unfold bind at 1 in Eo. unfold pool_connect in Eo.
  rewrite round_trip_ok in Eo by auto with run.
  unfold try_finally, try_catch in Eo.
  unfold bind at 1 in Eo. unfold client_BEGIN in Eo. unfold bind at 1 in Eo.
  rewrite round_trip_ok in Eo by auto with run.
  set (w4 := with_txn (Some (store (tick (tick (tick (tick w))))))
               (tick (tick (tick (tick w))))) in Eo.
  assert (Hf4 : fault_free w4) by (intros n rel; apply Hff).
  unfold bind at 1 in Eo. unfold update_workspace_owner in Eo.
  rewrite (@client_query_writing_ok _ _ w4 (store w) Hf4 eq_refl) in Eo.
  match type of Eo with
  | context [with_txn (Some ?t) (tick w4)] =>
      set (t5 := t) in Eo; set (w5 := with_txn (Some t5) (tick w4)) in Eo
  end.
  assert (Hf5 : fault_free w5) by (intros n rel; apply Hff).
  unfold bind at 1 in Eo. unfold update_member_role at 1 in Eo.
  rewrite (@client_query_writing_ok _ _ w5 t5 Hf5 eq_refl) in Eo.
  match type of Eo with
  | context [with_txn (Some ?t) (tick w5)] =>
      set (t6 := t) in Eo; set (w6 := with_txn (Some t6) (tick w5)) in Eo
  end.
  assert (Hf6 : fault_free w6) by (intros n rel; apply Hff).
  unfold bind at 1 in Eo. unfold update_member_role at 1 in Eo.
  rewrite (@client_query_writing_ok _ _ w6 t6 Hf6 eq_refl) in Eo.
  match type of Eo with
  | context [with_txn (Some ?t) (tick w6)] =>
      set (t7 := t) in Eo; set (w7 := with_txn (Some t7) (tick w6)) in Eo
  end.
  assert (Hf7 : fault_free w7) by (intros n rel; apply Hff).
  unfold bind at 1 in Eo.
  rewrite (@client_COMMIT_ok w7 t7 Hf7 eq_refl) in Eo.
  subst o. cbn [ret client_release value_of world_of store with_txn
                with_store].
  split; reflexivity.
Qed.

(** Filtering and projecting after a row-wise update. *)
Lemma map_filter_map A B (f : A -> A) (g h : A -> B) (p q : A -> bool) l :
  (forall x, In x l -> p (f x) = q x) ->
  (forall x, In x l -> q x = true -> g (f x) = h x) ->
  map g (filter p (map f l)) = map h (filter q l).
Proof.
  intros Hp Hg. induction l as [|x l IH]; [reflexivity|].
  cbn [map filter]. rewrite (Hp x (or_introl eq_refl)).
  assert (IH' : map g (filter p (map f l)) = map h (filter q l)).
  { apply IH; intros y Hy; [apply Hp | apply Hg]; now right. }
  destruct (q x) eqn:Eq; [|exact IH'].
  cbn [map]. rewrite (Hg x (or_introl eq_refl) Eq). now rewrite IH'.
Qed.

Lemma set_role_where_keys role ws u wm :
  wm_workspace_id (set_role_where role ws u wm) = wm_workspace_id wm
  /\ wm_user_id (set_role_where role ws u wm) = wm_user_id wm.
Proof. unfold set_role_where. now destruct (_ && _). Qed.

Lemma set_role_where_role role ws u wm :
  wm_role (set_role_where role ws u wm)
  = if (wm_workspace_id wm =? ws) && (wm_user_id wm =? u) then role
    else wm_role wm.
Proof. unfold set_role_where. now destruct (_ && _). Qed.

(** X4. When the owner, the only member holding 'owner', transfers the
    workspace to another member and every statement is answered, the
    request is answered 200 and that member is then the only one holding
    'owner'; the previous owner is an admin. *)
Lemma transferOwnership_to_another_member w userId workspaceId newOwnerId :
  fault_free w ->
  workspaceId <> EmptyString ->
  owners workspaceId (store w) = [userId] ->
  (forall u, List.length (select_member_role workspaceId u (store w)) <= 1) ->
  select_member_role workspaceId newOwnerId (store w) <> [] ->
  newOwnerId <> userId ->
  let after :=
    store (world_of (transferOwnership userId workspaceId true newOwnerId w)) in
  value_of (transferOwnership userId workspaceId true newOwnerId w)
  = Some (Send 200 (MessageBody "Propriété transférée avec succès"))
  /\ owners workspaceId after = [newOwnerId]
  /\ select_member_role workspaceId userId after = ["admin"].
Proof.
  intros Hff Hne Hown Huniq Hmem Hother after.
  assert (Hrows : forall wm, In wm (workspace_members (store w)) ->
                             wm_workspace_id wm = workspaceId ->
                             wm_role wm = "owner" -> wm_user_id wm = userId).
  { intros wm Hin Hws Hr.
    assert (Hm : In (wm_user_id wm) (owners workspaceId (store w))).
    { unfold owners. apply in_map, filter_In. split; [exact Hin|].
      apply andb_true_iff. split; now apply String.eqb_eq. }
    rewrite Hown in Hm. destruct Hm as [<-|[]]. reflexivity. }
  assert (Hrole : select_member_role workspaceId userId (store w) = ["owner"]).
  { assert (Hin : In userId (owners workspaceId (store w)))
      by (rewrite Hown; now left).
    unfold owners in Hin. apply in_map_iff in Hin.
    destruct Hin as (wm & Hu & Hin). apply filter_In in Hin.
    destruct Hin as [Hin Hk]. apply andb_true_iff in Hk.
    destruct Hk as [Hws Hr]. apply String.eqb_eq in Hr.
    assert (Hsel : In "owner" (select_member_role workspaceId userId (store w))).
    { unfold select_member_role. rewrite <- Hr. apply in_map, filter_In.
      split; [exact Hin|]. rewrite Hws, Hu. now rewrite String.eqb_refl. }
    specialize (Huniq userId).
    destruct (select_member_role workspaceId userId (store w))
      as [|r [|r' rs]]; [contradiction| |cbn in Huniq; lia].
    destruct Hsel as [->|[]]. reflexivity. }
  destruct (@transferOwnership_run w userId workspaceId newOwnerId []
              Hff Hne Hrole Hmem) as [Hv Hst].
  subst after. rewrite Hst. split; [exact Hv|]. split.
  - unfold owners. cbn [workspace_members set_workspace_members].
    rewrite map_map.
    rewrite (@map_filter_map _ _ _ wm_user_id wm_user_id _
               (fun wm => (wm_workspace_id wm =? workspaceId)
                          && (wm_user_id wm =? newOwnerId))).
    + specialize (Huniq newOwnerId). unfold select_member_role in Huniq, Hmem.
      destruct (filter _ (workspace_members (store w))) as [|x [|y ys]] eqn:Ef;
        [now elim Hmem| |cbn in Huniq; lia].
      assert (Hx : In x [x]) by now left. rewrite <- Ef in Hx.
      apply filter_In in Hx. destruct Hx as [_ Hk].
      apply andb_true_iff in Hk. destruct Hk as [_ Hk].
      apply String.eqb_eq in Hk. cbn. now rewrite Hk.
    + intros wm Hin.
      destruct (set_role_where_keys "admin" workspaceId userId
                  (set_role_where "owner" workspaceId newOwnerId wm))
        as [K1 K2].
      destruct (set_role_where_keys "owner" workspaceId newOwnerId wm)
        as [K3 K4].
      cbn beta. rewrite set_role_where_role, ?K1, ?K2, ?K3, ?K4.
      rewrite set_role_where_role.
      destruct (wm_workspace_id wm =? workspaceId) eqn:Ews; cbn [andb];
        [|reflexivity].
      destruct (wm_user_id wm =? userId) eqn:Eu.
      * apply String.eqb_eq in Eu.
        destruct (wm_user_id wm =? newOwnerId) eqn:En; [|reflexivity].
        apply String.eqb_eq in En. congruence.
      * destruct (wm_user_id wm =? newOwnerId); [reflexivity|].
        destruct (wm_role wm =? "owner") eqn:Er; [|reflexivity].
        apply String.eqb_eq in Ews, Er. apply String.eqb_neq in Eu.
        elim Eu. now apply Hrows.
    + intros wm _ _.
      destruct (set_role_where_keys "admin" workspaceId userId
                  (set_role_where "owner" workspaceId newOwnerId wm))
        as [_ K2].
      destruct (set_role_where_keys "owner" workspaceId newOwnerId wm)
        as [_ K4].
      now rewrite K2, K4.
  - unfold select_member_role in *.
    cbn [workspace_members set_workspace_members].
    rewrite map_map.
    rewrite (@map_filter_map _ _ _ wm_role (fun _ => "admin") _
               (fun wm => (wm_workspace_id wm =? workspaceId)
                          && (wm_user_id wm =? userId))).
    + revert Hrole.
      destruct (filter (fun wm => (wm_workspace_id wm =? workspaceId)
                                  && (wm_user_id wm =? userId))
                       (workspace_members (store w))) as [|x [|y ys]];
        [discriminate|reflexivity|discriminate].
    + intros wm _.
      destruct (set_role_where_keys "admin" workspaceId userId
                  (set_role_where "owner" workspaceId newOwnerId wm))
        as [K1 K2].
      destruct (set_role_where_keys "owner" workspaceId newOwnerId wm)
        as [K3 K4].
      now rewrite K1, K2, K3, K4.
    + intros wm _ Hq. rewrite set_role_where_role.
      destruct (set_role_where_keys "owner" workspaceId newOwnerId wm)
        as [K3 K4].
      now rewrite K3, K4, Hq.
Qed.

(** * Further properties of the routes *)

(** ** Witnesses for the lemmas above *)

Lemma mutations_without_audit_entry_witness :
  permission_audit_logs
    (store (world_of (deleteRole alice budget_manager
                        (quiet some_ids tenant))))
  = permission_audit_logs tenant
  /\ permission_audit_logs
       (store (world_of (removeRole alice bob budget_manager acme
                           (quiet some_ids tenant))))
     = permission_audit_logs tenant.
Proof.
  pose proof (@mutations_without_audit_entry (quiet some_ids tenant) eq_refl)
    as H.
  destruct H as (_ & Hd & Hr & _).
  split; [exact (Hd alice budget_manager)|exact (Hr alice bob budget_manager acme)].
Defined.


Lemma tenant_unique_members u :
  List.length (select_member_role acme u tenant) <= 1.
Proof.
  unfold select_member_role.
  cbn [tenant workspace_members filter wm_workspace_id wm_user_id].
  rewrite String.eqb_refl. cbn [andb].
  destruct (alice =? u) eqn:Ea, (bob =? u) eqn:Eb, (carol =? u) eqn:Ec;
    cbn [List.length map]; try lia;
    rewrite ?String.eqb_eq in *; subst; discriminate.
Qed.

Lemma transferOwnership_to_another_member_witness :
  let after :=
    store (world_of (transferOwnership alice acme true bob
                       (quiet some_ids tenant))) in
  value_of (transferOwnership alice acme true bob (quiet some_ids tenant))
  = Some (Send 200 (MessageBody "Propriété transférée avec succès"))
  /\ owners acme after = [bob]
  /\ select_member_role acme alice after = ["admin"].
Proof.
  assert (Hne : acme <> EmptyString) by discriminate.
  assert (Hmem : select_member_role acme bob tenant <> []) by discriminate.
  assert (Hother : bob <> alice) by discriminate.
  exact (@transferOwnership_to_another_member (quiet some_ids tenant) alice
           acme bob (fault_free_quiet some_ids tenant) Hne eq_refl
           tenant_unique_members Hmem Hother).
Defined.


(** ** Middleware, roles, overrides, members and workspaces *)

Lemma checkWorkspaceAdmin_value (w : world) (userId workspaceId : uuid) :
  fault_free w ->
  workspaceId <> EmptyString ->
  value_of (checkWorkspaceAdmin userId (Some workspaceId) None w)
  = Some match select_member_role workspaceId userId (store w) with
         | [] => Send 403 (ErrorBody "Accès au workspace non autorisé")
         | role :: _ =>
             if includes owner_or_admin role then Next role
             else Send 403 (ErrorBody "Droits administrateur requis")
         end.
Proof.
  intros Hf Hne.
  unfold checkWorkspaceAdmin, try_catch, bind. cbn [js_or truthy].
  apply String.eqb_neq in Hne. rewrite Hne. cbn [truthy]. rewrite Hne.
  rewrite db_query_reading_ok by assumption.
  destruct (select_member_role workspaceId userId (store w))
    as [|role rest]; [reflexivity|].
  destruct (includes owner_or_admin role); reflexivity.
Qed.

Lemma checkWorkspaceAccess_value (w : world) (userId workspaceId : uuid) :
  fault_free w ->
  workspaceId <> EmptyString ->
  value_of (checkWorkspaceAccess userId (Some workspaceId) None w)
  = Some match select_member_role workspaceId userId (store w) with
         | [] => Send 403 (ErrorBody "Accès au workspace non autorisé")
         | role :: _ => Next role
         end.
Proof.
  intros Hf Hne.
  unfold checkWorkspaceAccess, try_catch, bind. cbn [js_or truthy].
  apply String.eqb_neq in Hne. rewrite Hne. cbn [truthy]. rewrite Hne.
  rewrite db_query_reading_ok by assumption.
  destruct (select_member_role workspaceId userId (store w)); reflexivity.
Qed.

(** X5. checkWorkspaceAdmin lets a request through exactly when the first
    membership row of the requester in the workspace carries the role owner
    or admin, which is the inline test of the permission routes.  Whoever
    passes it passes checkWorkspaceAccess with the same role, and
    checkPermission for every permission code. *)
Theorem checkWorkspaceAdmin_is_role_bypass (w : world)
  (userId workspaceId : uuid) :
  fault_free w ->
  workspaceId <> EmptyString ->
  (forall role,
      value_of (checkWorkspaceAdmin userId (Some workspaceId) None w)
      = Some (Next role)
      <-> Membership (store w) workspaceId userId = Some role
          /\ includes owner_or_admin role = true)
  /\ ((exists role,
          value_of (checkWorkspaceAdmin userId (Some workspaceId) None w)
          = Some (Next role))
      <-> not_admin (select_member_role workspaceId userId (store w)) = false)
  /\ (forall role,
        value_of (checkWorkspaceAdmin userId (Some workspaceId) None w)
        = Some (Next role) ->
        value_of (checkWorkspaceAccess userId (Some workspaceId) None w)
        = Some (Next role)
        /\ forall code,
             value_of (checkPermission code userId (Some workspaceId) None w)
             = Some (Next tt)).
Proof.
  intros Hf Hne.
  rewrite checkWorkspaceAdmin_value, checkWorkspaceAccess_value by assumption.
  unfold Membership, not_admin.
  destruct (select_member_role workspaceId userId (store w))
    as [|r rest] eqn:Esel; cbn [hd_error].
  - split; [|split].
    + intros role. split; [discriminate|intros [H _]; discriminate].
    + split; [intros [role H]; discriminate|discriminate].
    + intros role H. discriminate.
  - destruct (includes owner_or_admin r) eqn:Einc; cbn [negb].
    + split; [|split].
      * intros role. split.
        -- intros H. injection H as <-. now split.
        -- intros [H _]. now injection H as <-.
      * split; [reflexivity|intros _; now exists r].
      * intros role H. injection H as <-. split; [reflexivity|].
        intros code. rewrite checkPermission_value by assumption.
        now rewrite Esel, Einc.
    + split; [|split].
      * intros role. split; [discriminate|].
        intros [H Hi]. injection H as <-. congruence.
      * split; [intros [role H]; discriminate|discriminate].
      * intros role H. discriminate.
Qed.

Lemma checkWorkspaceAdmin_is_role_bypass_witness :
  (exists role,
      value_of (checkWorkspaceAdmin alice (Some acme) None
                  (quiet some_ids tenant)) = Some (Next role))
  <-> not_admin (select_member_role acme alice tenant) = false.
Proof.
  assert (Hne : acme <> EmptyString) by discriminate.
  exact (proj1 (proj2 (checkWorkspaceAdmin_is_role_bypass alice
                         (fault_free_quiet some_ids tenant) Hne))).
Defined.

(** X6. The four access middlewares fail closed and only read.  Under any
    behaviour of the storage layer, a request handed to the next handler by
    checkPermission is one the decision procedure allows on the store as it
    is, checkWorkspaceAccess and checkWorkspaceAdmin hand over only the role
    of a membership row (owner or admin for the latter), checkBoardAccess
    only a row of the board joined with a membership; none of them changes
    the store. *)
Theorem middleware_fails_closed (w : world) (userId : uuid)
  (params body : option string) :
  (forall code,
      value_of (checkPermission code userId params body w) = Some (Next tt) ->
      exists workspaceId why,
        truthy (js_or params body) = Some workspaceId
        /\ DecideWorkspace (store w) userId workspaceId code = Allow why)
  /\ (forall role,
        value_of (checkWorkspaceAccess userId params body w)
        = Some (Next role) ->
        exists workspaceId,
          truthy (js_or params body) = Some workspaceId
          /\ Membership (store w) workspaceId userId = Some role)
  /\ (forall role,
        value_of (checkWorkspaceAdmin userId params body w)
        = Some (Next role) ->
        exists workspaceId,
          truthy (js_or params body) = Some workspaceId
          /\ Membership (store w) workspaceId userId = Some role
          /\ includes owner_or_admin role = true)
  /\ (forall row,
        value_of (checkBoardAccess userId params body w) = Some (Next row) ->
        exists boardId,
          truthy (js_or params body) = Some boardId
          /\ hd_error (select_board_with_role boardId userId (store w))
             = Some row)
  /\ (forall code,
        store (world_of (checkPermission code userId params body w))
        = store w)
  /\ store (world_of (checkWorkspaceAccess userId params body w)) = store w
  /\ store (world_of (checkWorkspaceAdmin userId params body w)) = store w
  /\ store (world_of (checkBoardAccess userId params body w)) = store w.
Proof.
  unfold checkPermission, checkWorkspaceAccess, checkWorkspaceAdmin,
    checkBoardAccess, try_catch, bind.
  destruct (truthy (js_or params body)) as [id|].
  2:{ repeat split; intros; discriminate. }
  rewrite !db_query_reading_eq.
  split; [|split; [|split; [|split; [|split; [|split; [|split]]]]]].
  - intros code H. exists id.
    cut (exists why, DecideWorkspace (store w) userId id code = Allow why).
    { intros [why Hd]. now exists why. }
    revert H.
    destruct (faults w (clock w) WorkspaceMembers); [discriminate|].
    unfold DecideWorkspace, Membership.
    destruct (select_member_role id userId (store w)) as [|r rest];
      [discriminate|]. cbn [hd_error].
    destruct (includes owner_or_admin r).
    { intros _. now exists RoleBypass. }
    rewrite db_query_reading_eq.
    destruct (faults (tick w) (clock (tick w)) UserRoles); [discriminate|].
    change (store (tick w)) with (store w).
    rewrite <- count_user_permission_positive.
    destruct (Nat.ltb 0 _); [|discriminate].
    intros _. now exists CustomRole.
  - intros role H. exists id. split; [reflexivity|]. revert H.
    destruct (faults w (clock w) WorkspaceMembers); [discriminate|].
    unfold Membership.
    destruct (select_member_role id userId (store w)) as [|r rest];
      [discriminate|].
    intros H. now injection H as <-.
  - intros role H. exists id. split; [reflexivity|]. revert H.
    destruct (faults w (clock w) WorkspaceMembers); [discriminate|].
    unfold Membership.
    destruct (select_member_role id userId (store w)) as [|r rest];
      [discriminate|].
    destruct (includes owner_or_admin r) eqn:E; [|discriminate].
    intros H. injection H as <-. now split.
  - intros row H. exists id. split; [reflexivity|]. revert H.
    destruct (faults w (clock w) Boards); [discriminate|].
    destruct (select_board_with_role id userId (store w)) as [|r rest];
      [discriminate|].
    intros H. now injection H as <-.
  - intros code.
    destruct (faults w (clock w) WorkspaceMembers); [reflexivity|].
    destruct (select_member_role id userId (store w)) as [|r rest];
      [reflexivity|].
    destruct (includes owner_or_admin r); [reflexivity|].
    rewrite db_query_reading_eq.
    destruct (faults (tick w) (clock (tick w)) UserRoles); [reflexivity|].
    destruct (Nat.ltb 0 _); reflexivity.
  - destruct (faults w (clock w) WorkspaceMembers); [reflexivity|].
    destruct (select_member_role id userId (store w)); reflexivity.
  - destruct (faults w (clock w) WorkspaceMembers); [reflexivity|].
    destruct (select_member_role id userId (store w)) as [|r rest];
      [reflexivity|].
    destruct (includes owner_or_admin r); reflexivity.
  - destruct (faults w (clock w) Boards); [reflexivity|].
    destruct (select_board_with_role id userId (store w)); reflexivity.
Qed.

Lemma flat_map_head A B (f : A -> list B) l x rest :
  flat_map f l = x :: rest ->
  exists a rest', In a l /\ f a = x :: rest'.
Proof.
  induction l as [|a l IH]; cbn [flat_map]; [discriminate|].
  destruct (f a) as [|y ys] eqn:E; cbn [app].
  - intros H. destruct (IH H) as (a' & rest' & Hin & Hf).
    exists a', rest'. split; [now right|exact Hf].
  - intros H. injection H as <- _. exists a, ys. split; [now left|exact E].
Qed.

Lemma checkBoardAccess_hands_over (w : world) (userId : uuid)
  (params body : option string) row :
  value_of (checkBoardAccess userId params body w) = Some (Next row) ->
  exists boardId,
    truthy (js_or params body) = Some boardId
    /\ hd_error (select_board_with_role boardId userId (store w)) = Some row.
Proof.
  unfold checkBoardAccess, try_catch, bind.
  destruct (truthy (js_or params body)) as [id|]; [|discriminate].
  intros H. exists id. split; [reflexivity|]. revert H.
  rewrite db_query_reading_eq.
  destruct (faults w (clock w) Boards); [discriminate|].
  destruct (select_board_with_role id userId (store w)) as [|r rest];
    [discriminate|].
  intros H. now injection H as <-.
Qed.

(** X7. Whoever passes checkBoardAccess for a board passes
    checkWorkspaceAccess for the workspace of that board, with the same
    workspace role; the row handed over is a row of the requested board. *)
Theorem checkBoardAccess_implies_workspace_access (w : world)
  (userId boardId : uuid) (board : boards_row) (role : string) :
  fault_free w ->
  boardId <> EmptyString ->
  b_workspace_id board <> EmptyString ->
  value_of (checkBoardAccess userId (Some boardId) None w)
  = Some (Next (board, role)) ->
  In board (boards (store w))
  /\ b_id board = boardId
  /\ value_of (checkWorkspaceAccess userId (Some (b_workspace_id board))
                 None w)
     = Some (Next role).
Proof.
  intros Hf Hb Hws Hrun.
  destruct (checkBoardAccess_hands_over _ _ _ _ Hrun) as (id & Hid & Hhd).
  cbn [js_or] in Hid. apply String.eqb_neq in Hb. rewrite Hb in Hid.
  cbn [truthy] in Hid. rewrite Hb in Hid. injection Hid as <-.
  unfold select_board_with_role in Hhd.
  destruct (flat_map _ _) as [|row rest] eqn:E; [discriminate|].
  injection Hhd as ->.
  apply flat_map_head in E. destruct E as (b & rest' & Hin & Hf').
  apply filter_In in Hin. destruct Hin as [Hin Hk].
  apply String.eqb_eq in Hk.
  rewrite checkWorkspaceAccess_value by assumption.
  unfold select_member_role.
  destruct (filter _ (workspace_members (store w))) as [|wm wms] eqn:Ef;
    [discriminate|].
  cbn [map] in Hf'. injection Hf' as <- <- _.
  rewrite Ef. cbn [map]. auto.
Qed.

Lemma checkBoardAccess_implies_workspace_access_witness :
  In {| b_id := roadmap; b_workspace_id := acme |} (boards tenant)
  /\ b_id {| b_id := roadmap; b_workspace_id := acme |} = roadmap
  /\ value_of (checkWorkspaceAccess carol (Some acme) None
                 (quiet some_ids tenant))
     = Some (Next "viewer").
Proof.
  assert (Hb : roadmap <> EmptyString) by discriminate.
  assert (Hws : b_workspace_id {| b_id := roadmap; b_workspace_id := acme |}
                <> EmptyString) by discriminate.
  exact (@checkBoardAccess_implies_workspace_access
           (quiet some_ids tenant) carol roadmap
           {| b_id := roadmap; b_workspace_id := acme |} "viewer"
           (fault_free_quiet some_ids tenant) Hb Hws eq_refl).
Defined.

Lemma includes_In xs x : includes xs x = true <-> In x xs.
Proof.
  unfold includes. rewrite existsb_exists. split.
  - intros (y & Hin & E). apply String.eqb_eq in E. now subst.
  - intros Hin. exists x. split; [exact Hin|apply String.eqb_refl].
Qed.


Lemma role_grants_ext r d d' :
  role_permissions d' = role_permissions d ->
  permissions d' = permissions d ->
  role_grants r d' = role_grants r d.
Proof. intros H1 H2. unfold role_grants. now rewrite H1, H2. Qed.

Lemma granted_codes_ext d d' roles :
  role_permissions d' = role_permissions d ->
  permissions d' = permissions d ->
  flat_map (fun r => role_grants r d') roles
  = flat_map (fun r => role_grants r d) roles.
Proof.
  intros H1 H2. induction roles as [|r roles IH]; [reflexivity|].
  cbn [flat_map]. rewrite IH. f_equal. now apply role_grants_ext.
Qed.





Lemma removeRole_run w requester userId roleId workspaceId :
  fault_free w ->
  not_admin (select_member_role workspaceId requester (store w)) = false ->
  exists w',
    removeRole requester userId roleId workspaceId w
    = Done (Send 200 (MessageBody "Rôle retiré")) w'
    /\ fault_free w'
    /\ store w'
       = set_user_roles
           (filter (fun ur => negb ((ur_user_id ur =? userId)
                                    && (ur_role_id ur =? roleId)
                                    && (ur_workspace_id ur =? workspaceId)))
                   (user_roles (store w)))
           (store w).
Proof.
  intros Hff Ha. unfold removeRole, try_catch.
  unfold bind at 1. rewrite db_query_reading_ok by assumption. rewrite Ha.
  unfold bind at 1. unfold delete_user_role.
  rewrite db_query_writing_ok by auto with run.
  eexists. split; [reflexivity|]. split; [auto with run|reflexivity].
Qed.

Lemma filter_negb_all A (p : A -> bool) l :
  existsb p l = false -> filter (fun x => negb (p x)) l = l.
Proof.
  induction l as [|x l IH]; [reflexivity|]. cbn [existsb filter].
  destruct (p x); cbn [orb negb]; [discriminate|].
  intros H. now rewrite IH.
Qed.

Lemma existsb_filter_negb A (p : A -> bool) l :
  existsb p (filter (fun x => negb (p x)) l) = false.
Proof.
  induction l as [|x l IH]; [reflexivity|]. cbn [filter].
  destruct (p x) eqn:E; cbn [negb]; [exact IH|].
  cbn [existsb]. now rewrite E, IH.
Qed.


Lemma filter_ext_eq A (p q : A -> bool) l :
  (forall x, p x = q x) -> filter p l = filter q l.
Proof.
  intros E. induction l as [|x l IH]; [reflexivity|].
  cbn [filter]. now rewrite E, IH.
Qed.





Lemma filter_filter_andb A (p q : A -> bool) l :
  filter p (filter q l) = filter (fun x => q x && p x) l.
Proof.
  induction l as [|x l IH]; [reflexivity|]. cbn [filter].
  destruct (q x); cbn [filter andb]; now rewrite IH.
Qed.

Lemma filter_map_swap_eq A B (f : A -> B) (p : B -> bool) l :
  filter p (map f l) = map f (filter (fun x => p (f x)) l).
Proof.
  induction l as [|x l IH]; [reflexivity|]. cbn [map filter].
  destruct (p (f x)); cbn [map]; now rewrite IH.
Qed.

Lemma RoleAssignments_after_delete userId roleId workspaceId u' ws' d :
  RoleAssignments
    (set_user_roles
       (filter (fun ur => negb ((ur_user_id ur =? userId)
                                && (ur_role_id ur =? roleId)
                                && (ur_workspace_id ur =? workspaceId)))
               (user_roles d)) d) u' ws'
  = if (u' =? userId) && (ws' =? workspaceId)
    then filter (fun r => negb (r =? roleId))
                (RoleAssignments d userId workspaceId)
    else RoleAssignments d u' ws'.
Proof.
  unfold RoleAssignments. cbn [user_roles set_user_roles].
  rewrite filter_filter_andb.
  destruct ((u' =? userId) && (ws' =? workspaceId)) eqn:E.
  - apply andb_true_iff in E. destruct E as [Eu Ew].
    apply String.eqb_eq in Eu, Ew. subst u' ws'.
    rewrite filter_map_swap_eq, filter_filter_andb. f_equal.
    apply filter_ext_eq. intros x.
    destruct (ur_user_id x =? userId), (ur_workspace_id x =? workspaceId),
      (ur_role_id x =? roleId); reflexivity.
  - f_equal. apply filter_ext_eq. intros x.
    destruct (ur_user_id x =? u') eqn:E1; [|now rewrite andb_false_r].
    destruct (ur_workspace_id x =? ws') eqn:E2; [|now rewrite andb_false_r].
    apply String.eqb_eq in E1, E2. rewrite E1, E2.
    apply andb_false_iff in E. cbn [andb]. rewrite andb_true_r.
    destruct E as [E|E]; rewrite E; cbn [andb negb];
      [reflexivity|now rewrite andb_false_r].
Qed.

(** X11. DELETE /users/:userId/roles/:roleId sent by an owner or admin, when
    every statement is answered: the answer is 200, exactly that role leaves
    the target's assignments in that workspace and every other list of
    assignments is as before, so that a target who is a plain member then
    passes checkPermission for a code exactly when one of the roles they
    keep grants it. *)
Theorem removeRole_revokes (w : world)
  (requester userId roleId workspaceId : uuid) :
  fault_free w ->
  workspaceId <> EmptyString ->
  not_admin (select_member_role workspaceId requester (store w)) = false ->
  let run := removeRole requester userId roleId workspaceId w in
  value_of run = Some (Send 200 (MessageBody "Rôle retiré"))
  /\ (forall u ws,
        RoleAssignments (store (world_of run)) u ws
        = if (u =? userId) && (ws =? workspaceId)
          then filter (fun r => negb (r =? roleId))
                      (RoleAssignments (store w) userId workspaceId)
          else RoleAssignments (store w) u ws)
  /\ (forall role rest code,
        select_member_role workspaceId userId (store w) = role :: rest ->
        includes owner_or_admin role = false ->
        (value_of (checkPermission code userId (Some workspaceId) None
                     (world_of run)) = Some (Next tt)
         <-> exists kept,
               In kept (RoleAssignments (store w) userId workspaceId)
               /\ kept <> roleId
               /\ In code (role_grants kept (store w)))).
Proof.
  intros Hff Hne Ha run.
  destruct (@removeRole_run w requester userId roleId workspaceId Hff Ha)
    as (w' & Hrun & Hff' & Hst).
  subst run. rewrite Hrun. cbn [value_of world_of]. rewrite Hst.
  split; [reflexivity|]. split.
  - intros u ws. apply RoleAssignments_after_delete.
  - intros role rest code Hsel Hrole.
    rewrite checkPermission_value by assumption. rewrite Hst.
    change (select_member_role workspaceId userId (set_user_roles ?x (store w)))
      with (select_member_role workspaceId userId (store w)).
    rewrite Hsel, Hrole, count_user_permission_positive.
    rewrite RoleAssignments_after_delete, !String.eqb_refl. cbn [andb].
    rewrite (@granted_codes_ext (store w) (set_user_roles _ (store w)) _
               eq_refl eq_refl).
    destruct (includes _ code) eqn:Ei.
    + split; [intros _|reflexivity].
      apply includes_In, in_flat_map in Ei. destruct Ei as (kept & Hk & Hc).
      apply filter_In in Hk. destruct Hk as [Hk Hneq].
      exists kept. split; [exact Hk|]. split; [|exact Hc].
      apply negb_true_iff, String.eqb_neq in Hneq. exact Hneq.
    + split; [discriminate|]. intros (kept & Hk & Hneq & Hc).
      assert (Hin : includes
                      (flat_map (fun r => role_grants r (store w))
                         (filter (fun r => negb (r =? roleId))
                            (RoleAssignments (store w) userId workspaceId)))
                      code = true).
      { apply includes_In, in_flat_map. exists kept. split; [|exact Hc].
        apply filter_In. split; [exact Hk|].
        now apply negb_true_iff, String.eqb_neq. }
      congruence.
Qed.

Lemma removeRole_revokes_witness :
  value_of (removeRole alice bob budget_manager acme (quiet some_ids tenant))
  = Some (Send 200 (MessageBody "Rôle retiré"))
  /\ (value_of (checkPermission "budget.edit" bob (Some acme) None
                  (world_of (removeRole alice bob budget_manager acme
                               (quiet some_ids tenant)))) = Some (Next tt)
      <-> exists kept,
            In kept (RoleAssignments tenant bob acme)
            /\ kept <> budget_manager
            /\ In "budget.edit" (role_grants kept tenant)).
Proof.
  assert (Hne : acme <> EmptyString) by discriminate.
  pose proof (@removeRole_revokes (quiet some_ids tenant) alice bob
                budget_manager acme (fault_free_quiet some_ids tenant) Hne
                eq_refl) as H.
  split; [exact (proj1 H)|].
  exact (proj2 (proj2 H) "member" [] "budget.edit" eq_refl eq_refl).
Defined.

Lemma role_not_admin_of_workspace d requester workspaceId roleId :
  not_admin (select_member_role workspaceId requester d) = true ->
  (forall row, In row (workspace_roles d) -> r_id row = roleId ->
               r_workspace_id row = workspaceId) ->
  role_not_admin (select_role_with_member_role roleId requester d) = true.
Proof.
  intros Hna Hws. unfold select_role_with_member_role.
  destruct (flat_map _ _) as [|[r0 member_role] rest] eqn:E; [reflexivity|].
  apply flat_map_head in E. destruct E as (r1 & rest' & Hin & Hf).
  apply filter_In in Hin. destruct Hin as [Hin Hid].
  apply String.eqb_eq in Hid. rewrite (Hws r1 Hin Hid) in Hf.
  unfold select_member_role in Hna.
  destruct (filter _ (workspace_members d)) as [|wm wms];
    [discriminate|].
  cbn [map] in Hf, Hna. injection Hf as _ <- _. exact Hna.
Qed.

(** X12. A requester who is not owner or admin of a workspace changes
    nothing through the role routes: creating a role in the workspace,
    assigning or removing a role there, updating or deleting a role of the
    workspace and setting a per-user override on one of its projects all
    leave the store as it is, whatever the storage layer does; when the
    statements are answered, the answer is 403. *)
Theorem non_admin_is_refused (w : world) (requester workspaceId : uuid) :
  not_admin (select_member_role workspaceId requester (store w)) = true ->
  (forall ok name de co ps,
      store (world_of (createRole requester ok workspaceId name de co ps w))
      = store w)
  /\ (forall u r,
        store (world_of (assignRole requester u workspaceId r w)) = store w)
  /\ (forall u r,
        store (world_of (removeRole requester u r workspaceId w)) = store w)
  /\ (forall r n de co ps,
        (forall row, In row (workspace_roles (store w)) -> r_id row = r ->
                     r_workspace_id row = workspaceId) ->
        store (world_of (updateRole requester r n de co ps w)) = store w
        /\ store (world_of (deleteRole requester r w)) = store w)
  /\ (forall p u l,
        (forall row, In row (sdsi_projects (store w)) -> sp_id row = p ->
                     sp_workspace_id row = workspaceId) ->
        store (world_of (setProjectPermission requester p u l w)) = store w)
  /\ (fault_free w ->
      (forall name de co ps,
          value_of (createRole requester true workspaceId name de co ps w)
          = Some (Send 403 (ErrorBody "Accès non autorisé")))
      /\ (forall u r,
            value_of (assignRole requester u workspaceId r w)
            = Some (Send 403 (ErrorBody "Accès non autorisé")))
      /\ (forall u r,
            value_of (removeRole requester u r workspaceId w)
            = Some (Send 403 (ErrorBody "Accès non autorisé")))).
Proof.
  intros Hna.
  split; [|split; [|split; [|split; [|split]]]].
  - intros ok name de co ps. unfold createRole, try_catch.
    destruct ok; cbn [negb]; [|reflexivity].
    unfold bind at 1. rewrite db_query_reading_eq.
    destruct (faults w (clock w) WorkspaceMembers); [reflexivity|].
    now rewrite Hna.
  - intros u r. unfold assignRole, try_catch.
    unfold bind at 1. rewrite db_query_reading_eq.
    destruct (faults w (clock w) WorkspaceMembers); [reflexivity|].
    now rewrite Hna.
  - intros u r. unfold removeRole, try_catch.
    unfold bind at 1. rewrite db_query_reading_eq.
    destruct (faults w (clock w) WorkspaceMembers); [reflexivity|].
    now rewrite Hna.
  - intros r n de co ps Hws.
    pose proof (@role_not_admin_of_workspace _ _ _ _ Hna Hws) as Hr.
    split.
    + unfold updateRole, try_catch.
      unfold bind at 1. rewrite db_query_reading_eq.
      destruct (faults w (clock w) WorkspaceRoles); [reflexivity|].
      now rewrite Hr.
    + unfold deleteRole, try_catch.
      unfold bind at 1. rewrite db_query_reading_eq.
      destruct (faults w (clock w) WorkspaceRoles); [reflexivity|].
      now rewrite Hr.
  - intros p u l Hws. unfold setProjectPermission, try_catch.
    unfold bind at 1. rewrite db_query_reading_eq.
    destruct (faults w (clock w) SdsiProjects); [reflexivity|].
    unfold select_project_workspace.
    destruct (filter _ (sdsi_projects (store w))) as [|row rows] eqn:Ef;
      [reflexivity|].
    assert (Hrow : In row (filter (fun p0 => sp_id p0 =? p)
                             (sdsi_projects (store w))))
      by (rewrite Ef; now left).
    apply filter_In in Hrow. destruct Hrow as [Hin Hid].
    apply String.eqb_eq in Hid. cbn [map]. rewrite (Hws row Hin Hid).
    unfold bind at 1. rewrite db_query_reading_eq.
    destruct (faults (tick w) (clock (tick w)) WorkspaceMembers);
      [reflexivity|].
    change (store (tick w)) with (store w). now rewrite Hna.
  - intros Hff. split; [|split].
    + intros name de co ps. unfold createRole, try_catch. cbn [negb].
      unfold bind at 1. rewrite db_query_reading_ok by assumption.
      now rewrite Hna.
    + intros u r. unfold assignRole, try_catch.
      unfold bind at 1. rewrite db_query_reading_ok by assumption.
      now rewrite Hna.
    + intros u r. unfold removeRole, try_catch.
      unfold bind at 1. rewrite db_query_reading_ok by assumption.
      now rewrite Hna.
Qed.

Lemma non_admin_is_refused_witness :
  store (world_of (assignRole bob bob acme budget_manager
                     (quiet some_ids tenant))) = tenant
  /\ value_of (createRole carol true acme "Auditor" None None
                 (Some ["board.edit"]) (quiet some_ids tenant))
     = Some (Send 403 (ErrorBody "Accès non autorisé")).
Proof.
  split.
  - exact (proj1 (proj2 (@non_admin_is_refused (quiet some_ids tenant) bob
                           acme eq_refl)) bob budget_manager).
  - pose proof (@non_admin_is_refused (quiet some_ids tenant) carol acme
                  eq_refl) as H.
    destruct H as (_ & _ & _ & _ & _ & H).
    exact (proj1 (H (fault_free_quiet some_ids tenant)) "Auditor" None None
             (Some ["board.edit"])).
Defined.

Lemma rows_for_delete_same r u rows :
  rows_for r u (delete_rows r u rows) = [].
Proof.
  apply rows_for_empty_iff.
  apply (existsb_filter_negb (has_key r u)).
Qed.

Lemma rows_for_delete_other r u r' u' rows :
  (r', u') <> (r, u) ->
  rows_for r' u' (delete_rows r u rows) = rows_for r' u' rows.
Proof.
  intros Hne. unfold rows_for, delete_rows. rewrite filter_filter_andb.
  apply filter_ext_eq. intros x.
  change (negb (has_key r u x) && has_key r' u' x = has_key r' u' x).
  destruct (has_key r' u' x) eqn:E; [|apply andb_false_r].
  assert (Hne' : (r, u) <> (r', u')) by congruence.
  now rewrite (@has_key_other r' u' r u x Hne' E).
Qed.

Lemma delete_rows_upsert r u level g rows :
  delete_rows r u (upsert_rows r u level g rows) = delete_rows r u rows.
Proof.
  rewrite upsert_rows_eq.
  destruct (existsb (has_key r u) rows).
  - unfold delete_rows. induction rows as [|x rows IH]; [reflexivity|].
    cbn [map filter]. fold (has_key r u x).
    destruct (has_key r u x) eqn:E.
    + unfold has_key at 1. cbn [xp_resource_id xp_user_id].
      fold (has_key r u x). rewrite E. cbn [negb]. exact IH.
    + fold (has_key r u x). rewrite E. cbn [negb]. now rewrite IH.
  - unfold delete_rows. rewrite filter_app. cbn [filter].
    cbn [xp_resource_id xp_user_id]. rewrite !String.eqb_refl.
    cbn [andb negb]. apply app_nil_r.
Qed.

Lemma delete_rows_absent r u rows :
  rows_for r u rows = [] -> delete_rows r u rows = rows.
Proof.
  intros H. apply rows_for_empty_iff in H.
  exact (filter_negb_all (has_key r u) rows H).
Qed.

Lemma db_query_ok A rel (s : statement A) w :
  fault_free w ->
  db_query rel s w
  = match s (store w) with
    | inl e => Thrown e (tick w)
    | inr (a, d) => Done a (with_store d (tick w))
    end.
Proof. intros Hff. rewrite db_query_eq. now rewrite Hff. Qed.

Lemma setBoardPermission_200 w q b u l body :
  fault_free w ->
  value_of (setBoardPermission q b u l w) = Some (Send 200 body) ->
  exists level w',
    l = Some level
    /\ setBoardPermission q b u l w = Done (Send 200 body) w'
    /\ fault_free w'
    /\ store w'
       = set_board_permissions
           (upsert_rows b u level q (board_permissions (store w))) (store w).
Proof.
  intros Hff. remember (setBoardPermission q b u l w) as o eqn:Eo.
  unfold setBoardPermission, try_catch in Eo.
  unfold bind at 1 in Eo. rewrite db_query_reading_ok in Eo by assumption.
  destruct (select_board_level b q (store w)) as [|[lvl ws] more];
    [subst o; discriminate|].
  unfold bind at 1 in Eo. rewrite db_query_reading_ok in Eo by auto with run.
  destruct (negb _ && negb _); [subst o; discriminate|].
  unfold bind at 1 in Eo. rewrite db_query_ok in Eo by auto with run.
  destruct l as [level|]; cbn [upsert_board_permission] in Eo;
    [|subst o; discriminate].
  subst o. cbn [ret value_of]. intros H. injection H as <-.
  exists level. eexists. split; [reflexivity|]. split; [reflexivity|].
  split; [auto with run|reflexivity].
Qed.

Lemma setProjectPermission_200 w q p u l body :
  fault_free w ->
  value_of (setProjectPermission q p u l w) = Some (Send 200 body) ->
  exists level w',
    l = Some level
    /\ setProjectPermission q p u l w = Done (Send 200 body) w'
    /\ fault_free w'
    /\ store w'
       = set_project_permissions
           (upsert_rows p u level q (project_permissions (store w)))
           (store w).
Proof.
  intros Hff. remember (setProjectPermission q p u l w) as o eqn:Eo.
  unfold setProjectPermission, try_catch in Eo.
  unfold bind at 1 in Eo. rewrite db_query_reading_ok in Eo by assumption.
  destruct (select_project_workspace p (store w)) as [|ws more];
    [subst o; discriminate|].
  unfold bind at 1 in Eo. rewrite db_query_reading_ok in Eo by auto with run.
  destruct (not_admin _); [subst o; discriminate|].
  unfold bind at 1 in Eo. rewrite db_query_ok in Eo by auto with run.
  destruct l as [level|]; cbn [upsert_project_permission] in Eo;
    [|subst o; discriminate].
  subst o. cbn [ret value_of]. intros H. injection H as <-.
  exists level. eexists. split; [reflexivity|]. split; [reflexivity|].
  split; [auto with run|reflexivity].
Qed.

Lemma removeBoardPermission_run w b u :
  fault_free w ->
  removeBoardPermission b u w
  = Done (Send 200 (MessageBody "Permission retirée"))
      (with_store
         (set_board_permissions
            (delete_rows b u (board_permissions (store w))) (store w))
         (tick w)).
Proof.
  intros Hff. unfold removeBoardPermission, try_catch, bind.
  unfold delete_board_permission.
  now rewrite db_query_writing_ok by assumption.
Qed.

Lemma removeProjectPermission_run w p u :
  fault_free w ->
  removeProjectPermission p u w
  = Done (Send 200 (MessageBody "Permission retirée"))
      (with_store
         (set_project_permissions
            (delete_rows p u (project_permissions (store w))) (store w))
         (tick w)).
Proof.
  intros Hff. unfold removeProjectPermission, try_catch, bind.
  unfold delete_project_permission.
  now rewrite db_query_writing_ok by assumption.
Qed.

(** X13. Removing a per-user override undoes setting it.  After a
    SetOverride on a board that was answered 200, the DELETE route for the
    same board and user, which takes no requester and asks for no role, is
    answered 200 and leaves no row for that key; the rows of every other
    key are as they were before the two requests, and when the key had no
    row before them, the store is back to what it was.  The same holds for
    the two project routes. *)
Theorem RemoveOverride_undoes_SetOverride (w : world)
  (requester resourceId userId : uuid) (level : option string)
  (body : payload) :
  fault_free w ->
  (value_of (setBoardPermission requester resourceId userId level w)
   = Some (Send 200 body) ->
   let set :=
     world_of (setBoardPermission requester resourceId userId level w) in
   let run := removeBoardPermission resourceId userId set in
   value_of run = Some (Send 200 (MessageBody "Permission retirée"))
   /\ rows_for resourceId userId (board_permissions (store (world_of run)))
      = []
   /\ (forall r u, (r, u) <> (resourceId, userId) ->
         rows_for r u (board_permissions (store (world_of run)))
         = rows_for r u (board_permissions (store w)))
   /\ (rows_for resourceId userId (board_permissions (store w)) = [] ->
       store (world_of run) = store w))
  /\ (value_of (setProjectPermission requester resourceId userId level w)
      = Some (Send 200 body) ->
      let set :=
        world_of (setProjectPermission requester resourceId userId level w) in
      let run := removeProjectPermission resourceId userId set in
      value_of run = Some (Send 200 (MessageBody "Permission retirée"))
      /\ rows_for resourceId userId
           (project_permissions (store (world_of run))) = []
      /\ (forall r u, (r, u) <> (resourceId, userId) ->
            rows_for r u (project_permissions (store (world_of run)))
            = rows_for r u (project_permissions (store w)))
      /\ (rows_for resourceId userId (project_permissions (store w)) = [] ->
          store (world_of run) = store w)).
Proof.
  intros Hff. split.
  - intros Hset set run.
    destruct (@setBoardPermission_200 _ _ _ _ _ _ Hff Hset)
      as (lv & w' & _ & Hrun & Hff' & Hst).
    subst run set. rewrite Hrun. cbn [world_of].
    rewrite removeBoardPermission_run by assumption.
    cbn [value_of world_of store with_store]. rewrite Hst.
    cbn [board_permissions set_board_permissions].
    rewrite delete_rows_upsert.
    split; [reflexivity|]. split; [apply rows_for_delete_same|]. split.
    + intros r u Hne. now apply rows_for_delete_other.
    + intros Habs. rewrite (@delete_rows_absent _ _ _ Habs).
      now destruct (store w).
  - intros Hset set run.
    destruct (@setProjectPermission_200 _ _ _ _ _ _ Hff Hset)
      as (lv & w' & _ & Hrun & Hff' & Hst).
    subst run set. rewrite Hrun. cbn [world_of].
    rewrite removeProjectPermission_run by assumption.
    cbn [value_of world_of store with_store]. rewrite Hst.
    cbn [project_permissions set_project_permissions].
    rewrite delete_rows_upsert.
    split; [reflexivity|]. split; [apply rows_for_delete_same|]. split.
    + intros r u Hne. now apply rows_for_delete_other.
    + intros Habs. rewrite (@delete_rows_absent _ _ _ Habs).
      now destruct (store w).
Qed.

Lemma RemoveOverride_undoes_SetOverride_witness :
  let set :=
    world_of (setBoardPermission alice roadmap carol (Some "edit")
                (quiet some_ids tenant)) in
  let run := removeBoardPermission roadmap carol set in
  value_of run = Some (Send 200 (MessageBody "Permission retirée"))
  /\ store (world_of run) = tenant.
Proof.
  pose proof (proj1 (@RemoveOverride_undoes_SetOverride
                       (quiet some_ids tenant) alice roadmap carol
                       (Some "edit") (MessageBody "Permission mise à jour")
                       (fault_free_quiet some_ids tenant)) eq_refl) as H.
  split; [exact (proj1 H)|].
  exact (proj2 (proj2 (proj2 H)) eq_refl).
Defined.




Lemma round_trip_eq rel w :
  round_trip rel w
  = if faults w (clock w) rel then Thrown StorageFault (tick w)
    else Done tt (tick w).
Proof. reflexivity. Qed.



(** X16. PUT /roles/:roleId that renames a role to the name of another role
    of the same workspace, sent by an owner or admin with every statement
    answered: the UPDATE violates UNIQUE(workspace_id, name), the
    transaction is rolled back, and the store is as before, the requested
    replacement of the grants included.  The answer is 500 "Erreur", where
    POST /roles answers 400 for the same conflict. *)
Theorem updateRole_name_clash (w : world) (userId roleId : uuid)
  (newName : string) (description color : option string)
  (permissions : option (list string)) (role other : workspace_roles_row) :
  fault_free w ->
  role_not_admin (select_role_with_member_role roleId userId (store w))
  = false ->
  In role (workspace_roles (store w)) -> r_id role = roleId ->
  In other (workspace_roles (store w)) -> r_id other <> roleId ->
  r_workspace_id other = r_workspace_id role -> r_name other = newName ->
  let run :=
    updateRole userId roleId (Some newName) description color permissions w in
  value_of run = Some (Send 500 (ErrorBody "Erreur"))
  /\ store (world_of run) = store w.
Proof.
  intros Hff Ha Hrole Hid Hother Hoid Hws Hname run.
  destruct (updateRole_outcome userId roleId (Some newName) description color
              permissions w) as [_ Hok].
  specialize (Hok Hff Ha).
  assert (Hc : updateRole_commits roleId (Some newName) description color
                 permissions (store w) = inl unique_violation).
  { unfold updateRole_commits, update_fields. cbn [is_some orb].
    unfold update_workspace_role.
    assert (Hex :
      existsb
        (fun r =>
           (r_id r =? roleId)
           && existsb (fun r' => negb (r_id r' =? roleId)
                                 && (r_workspace_id r' =? r_workspace_id r)
                                 && (r_name r' =? newName))
                      (workspace_roles (store w)))
        (workspace_roles (store w)) = true).
    { apply existsb_exists. exists role. split; [exact Hrole|].
      apply andb_true_iff. split; [now apply String.eqb_eq|].
      apply existsb_exists. exists other. split; [exact Hother|].
      apply String.eqb_neq in Hoid. rewrite Hoid, Hws, Hname.
      now rewrite !String.eqb_refl. }
    now rewrite Hex. }
  rewrite Hc in Hok. exact Hok.
Qed.

Lemma updateRole_name_clash_witness :
  let created :=
    world_of (createRole alice true acme "Auditor" None None None
                (quiet some_ids tenant)) in
  let run :=
    updateRole alice budget_manager (Some "Auditor") None None
      (Some ["board.edit"]) created in
  value_of run = Some (Send 500 (ErrorBody "Erreur"))
  /\ store (world_of run) = store created.
Proof.
  cbv zeta.
  refine (@updateRole_name_clash
            (world_of (createRole alice true acme "Auditor" None None None
                         (quiet some_ids tenant)))
            alice budget_manager "Auditor" None None
            (Some ["board.edit"])
            {| r_id := budget_manager; r_workspace_id := acme;
               r_name := "Budget Manager"; r_description := None;
               r_color := "#6366f1" |}
            {| r_id := some_ids 3; r_workspace_id := acme;
               r_name := "Auditor"; r_description := None;
               r_color := "#6366f1" |}
            _ eq_refl _ eq_refl _ _ eq_refl eq_refl).
  - intros n rel. reflexivity.
  - vm_compute. auto.
  - vm_compute. auto.
  - discriminate.
Defined.

Lemma filter_app_single A (p : A -> bool) l x :
  filter p (l ++ [x]) = filter p l ++ (if p x then [x] else []).
Proof. rewrite filter_app. reflexivity. Qed.


Lemma no_member_rows d workspaceId :
  (forall wm, In wm (workspace_members d) ->
              wm_workspace_id wm <> workspaceId) ->
  forall (q : workspace_members_row -> bool),
    filter (fun wm => (wm_workspace_id wm =? workspaceId) && q wm)
           (workspace_members d) = [].
Proof.
  intros H q. apply filter_none. intros wm Hin.
  apply H in Hin. apply String.eqb_neq in Hin. now rewrite Hin.
Qed.



(** X18. POST / of the workspace routes is not atomic.  When the INSERT
    into workspaces is answered and the INSERT of the owner's membership is
    refused by the storage layer, the answer is 500, yet the workspace row
    stays, recording the creator as owner, while workspace_members is as
    before: the new workspace has no member, so that checkWorkspaceAccess
    refuses everybody, its creator included. *)
Theorem createWorkspace_not_atomic (w : world) (userId : uuid)
  (name : string) :
  let id := uuid_generate_v4 w (clock w) in
  faults w (clock w) Workspaces = false ->
  faults w (S (clock w)) WorkspaceMembers = true ->
  existsb (fun x => w_id x =? id) (workspaces (store w)) = false ->
  let run := createWorkspace userId true name w in
  value_of run
  = Some (Send 500 (ErrorBody "Erreur lors de la création du workspace"))
  /\ workspaces (store (world_of run))
     = workspaces (store w)
         ++ [{| w_id := id; w_name := name; w_owner_id := userId |}]
  /\ workspace_members (store (world_of run)) = workspace_members (store w)
  /\ ((forall wm, In wm (workspace_members (store w)) ->
                  wm_workspace_id wm <> id) ->
      forall u (w' : world),
        store w' = store (world_of run) -> fault_free w' ->
        id <> EmptyString ->
        value_of (checkWorkspaceAccess u (Some id) None w')
        = Some (Send 403 (ErrorBody "Accès au workspace non autorisé"))).
Proof.
  intros id Hf1 Hf2 Hfresh run.
  subst run. remember (createWorkspace userId true name w) as o eqn:Eo.
  unfold createWorkspace in Eo. cbn [negb] in Eo.
  unfold try_catch at 1 in Eo. unfold bind at 1 in Eo.
  unfold next_uuid at 1 in Eo. fold id in Eo.
  unfold bind at 1 in Eo. rewrite db_query_eq in Eo. rewrite Hf1 in Eo.
  unfold insert_workspace at 1 in Eo. rewrite Hfresh in Eo.
  unfold bind at 1 in Eo. rewrite db_query_eq in Eo.
  cbn [faults clock with_store tick] in Eo. rewrite Hf2 in Eo.
  unfold bind at 1 in Eo. cbn [logger ret] in Eo.
  subst o. cbn [value_of world_of store with_store tick].
  split; [reflexivity|]. split; [reflexivity|]. split; [reflexivity|].
  intros Hnone u w' Hst Hff Hne.
  rewrite checkWorkspaceAccess_value by assumption.
  cbn [ret world_of store] in Hst. rewrite Hst.
  unfold select_member_role.
  cbn [workspace_members set_workspaces].
  now rewrite (no_member_rows _ Hnone (fun wm => wm_user_id wm =? u)).
Qed.

Lemma createWorkspace_not_atomic_witness :
  let w :=
    {| store := empty_DB; txn := None; clock := 0;
       faults := fun n rel =>
                   match rel with
                   | WorkspaceMembers => Nat.eqb n 1
                   | _ => false
                   end;
       uuid_generate_v4 := some_ids; console := [] |} in
  let run := createWorkspace alice true "Acme" w in
  value_of run
  = Some (Send 500 (ErrorBody "Erreur lors de la création du workspace"))
  /\ select_owner_id (some_ids 0) (store (world_of run)) = [alice]
  /\ workspace_members (store (world_of run)) = [].
Proof.
  cbv zeta.
  pose proof (@createWorkspace_not_atomic
                {| store := empty_DB; txn := None; clock := 0;
                   faults := fun n rel =>
                               match rel with
                               | WorkspaceMembers => Nat.eqb n 1
                               | _ => false
                               end;
                   uuid_generate_v4 := some_ids; console := [] |}
                alice "Acme" eq_refl eq_refl eq_refl) as H.
  cbv zeta in H. destruct H as (Hv & Hws & Hm & _).
  split; [exact Hv|]. split; [|exact Hm].
  unfold select_owner_id. rewrite Hws. reflexivity.
Defined.

(** What PUT .../members/:memberId/role leaves in the store, whatever the
    storage layer does. *)
Lemma updateMemberRole_store w userId workspaceId memberId role :
  store (world_of (updateMemberRole userId workspaceId memberId role w))
  = store w
  \/ (includes assignable_roles role = true
      /\ (exists more,
             select_member_role workspaceId userId (store w)
             = "owner" :: more)
      /\ (exists owner_id rest,
             select_owner_id workspaceId (store w) = owner_id :: rest
             /\ owner_id <> memberId)
      /\ store (world_of (updateMemberRole userId workspaceId memberId role w))
         = set_workspace_members
             (map (set_role_where role workspaceId memberId)
                  (workspace_members (store w)))
             (store w)).
Proof.
  remember (updateMemberRole userId workspaceId memberId role w) as o eqn:Eo.
  unfold updateMemberRole, guarded, checkWorkspaceAccess in Eo.
  unfold bind at 1 in Eo. unfold try_catch at 1 in Eo. cbn [js_or] in Eo.
  destruct (workspaceId =? EmptyString) eqn:Ew; cbn [truthy] in Eo;
    rewrite ?Ew in Eo; [subst o; now left|].
  unfold bind at 1 in Eo. rewrite db_query_reading_eq in Eo.
  destruct (faults w (clock w) WorkspaceMembers); [subst o; now left|].
  destruct (select_member_role workspaceId userId (store w))
    as [|workspaceRole more] eqn:Esel; [subst o; now left|].
  cbn [ret] in Eo. unfold try_catch in Eo.
  destruct (workspaceRole =? "owner") eqn:Er; cbn [negb] in Eo;
    [|subst o; now left].
  apply String.eqb_eq in Er. subst workspaceRole.
  destruct (includes assignable_roles role) eqn:Ea; cbn [negb] in Eo;
    [|subst o; now left].
  unfold bind at 1 in Eo. rewrite db_query_reading_eq in Eo.
  change (faults (tick w)) with (faults w) in Eo.
  destruct (faults w (clock (tick w)) Workspaces); [subst o; now left|].
  change (store (tick w)) with (store w) in Eo.
  destruct (select_owner_id workspaceId (store w)) as [|owner_id rest]
    eqn:Eown; [subst o; now left|].
  unfold bind at 1 in Eo. cbn [first_owner_id ret] in Eo.
  destruct (owner_id =? memberId) eqn:Eo'; [subst o; now left|].
  unfold bind at 1 in Eo. rewrite db_query_eq in Eo.
  change (faults (tick (tick w))) with (faults w) in Eo.
  destruct (faults w (clock (tick (tick w))) WorkspaceMembers);
    [subst o; now left|].
  unfold update_member_role, writing in Eo. subst o. right.
  split; [reflexivity|]. split; [now exists more|]. split.
  - exists owner_id, rest. split; [reflexivity|]. now apply String.eqb_neq.
  - reflexivity.
Qed.




(** DELETE /workspace/:workspaceId/members/:memberId of the member routes,
    run by a member when every statement is answered. *)
Lemma removeMember_run w userId workspaceId memberId role more owner_id rest :
  fault_free w ->
  workspaceId <> EmptyString ->
  select_member_role workspaceId userId (store w) = role :: more ->
  select_owner_id workspaceId (store w) = owner_id :: rest ->
  let run := removeMember userId workspaceId memberId w in
  fault_free (world_of run)
  /\ if negb (memberId =? userId) && negb (includes owner_or_admin role)
     then value_of run = Some (Send 403 (ErrorBody "Permission insuffisante"))
          /\ store (world_of run) = store w
     else if owner_id =? memberId
     then value_of run
          = Some (Send 400
                    (ErrorBody "Le propriétaire ne peut pas être retiré"))
          /\ store (world_of run) = store w
     else if (role =? "admin") && negb (memberId =? userId)
             && first_is_admin
                  (select_member_role workspaceId memberId (store w))
     then value_of run
          = Some (Send 403
                    (ErrorBody "Un admin ne peut pas retirer un autre admin"))
          /\ store (world_of run) = store w
     else value_of run = Some (Send 200 (MessageBody "Membre retiré avec succès"))
          /\ store (world_of run)
             = set_workspace_members
                 (filter (fun wm => negb ((wm_workspace_id wm =? workspaceId)
                                          && (wm_user_id wm =? memberId)))
                         (workspace_members (store w)))
                 (store w).
Proof.
  intros Hff Hne Hreq Hown run. subst run.
  remember (removeMember userId workspaceId memberId w) as o eqn:Eo.
  unfold removeMember, guarded, checkWorkspaceAccess in Eo.
  unfold bind at 1 in Eo. unfold try_catch at 1 in Eo. cbn [js_or] in Eo.
  apply String.eqb_neq in Hne. rewrite Hne in Eo. cbn [truthy] in Eo.
  rewrite Hne in Eo. unfold bind at 1 in Eo.
  rewrite db_query_reading_ok in Eo by assumption. rewrite Hreq in Eo.
  cbn [ret] in Eo. unfold try_catch in Eo.
  destruct (negb (memberId =? userId) && negb (includes owner_or_admin role)).
  { subst o. split; [cbn; auto with run|auto]. }
  unfold bind at 1 in Eo. rewrite db_query_reading_ok in Eo by auto with run.
  change (store (tick w)) with (store w) in Eo. rewrite Hown in Eo.
  unfold bind at 1 in Eo. cbn [first_owner_id ret] in Eo.
  destruct (owner_id =? memberId).
  { subst o. split; [cbn; auto with run|auto]. }
  unfold bind at 1 in Eo.
  destruct ((role =? "admin") && negb (memberId =? userId)).
  - unfold bind at 1 in Eo.
    rewrite db_query_reading_ok in Eo by auto with run.
    change (store (tick (tick w))) with (store w) in Eo.
    cbn [ret andb] in Eo.
    destruct (first_is_admin (select_member_role workspaceId memberId
                                (store w))).
    + subst o. cbn [andb]. split; [cbn; auto with run|auto].
    + unfold bind at 1 in Eo. unfold delete_workspace_member in Eo.
      rewrite db_query_writing_ok in Eo by auto with run.
      subst o. cbn [andb]. split; [cbn; auto with run|]. cbn. auto.
  - cbn [ret andb] in Eo.
    unfold bind at 1 in Eo. unfold delete_workspace_member in Eo.
    rewrite db_query_writing_ok in Eo by auto with run.
    subst o. cbn [andb]. split; [cbn; auto with run|]. cbn. auto.
Qed.

(** The route of the same path in the workspace routes. *)
Lemma removeWorkspaceMember_run w userId workspaceId memberId role more
  owner_id rest :
  fault_free w ->
  workspaceId <> EmptyString ->
  select_member_role workspaceId userId (store w) = role :: more ->
  select_owner_id workspaceId (store w) = owner_id :: rest ->
  let run := removeWorkspaceMember userId workspaceId memberId w in
  if negb (memberId =? userId) && negb (includes owner_or_admin role)
  then value_of run = Some (Send 403 (ErrorBody "Permission insuffisante"))
       /\ store (world_of run) = store w
  else if owner_id =? memberId
  then value_of run
       = Some (Send 400 (ErrorBody "Le propriétaire ne peut pas être retiré"))
       /\ store (world_of run) = store w
  else value_of run = Some (Send 200 (MessageBody "Membre retiré avec succès"))
       /\ store (world_of run)
          = set_workspace_members
              (filter (fun wm => negb ((wm_workspace_id wm =? workspaceId)
                                       && (wm_user_id wm =? memberId)))
                      (workspace_members (store w)))
              (store w).
Proof.
  intros Hff Hne Hreq Hown run. subst run.
  remember (removeWorkspaceMember userId workspaceId memberId w) as o eqn:Eo.
  unfold removeWorkspaceMember, guarded, checkWorkspaceAccess in Eo.
  unfold bind at 1 in Eo. unfold try_catch at 1 in Eo. cbn [js_or] in Eo.
  apply String.eqb_neq in Hne. rewrite Hne in Eo. cbn [truthy] in Eo.
  rewrite Hne in Eo. unfold bind at 1 in Eo.
  rewrite db_query_reading_ok in Eo by assumption. rewrite Hreq in Eo.
  cbn [ret] in Eo. unfold try_catch in Eo.
  destruct (negb (memberId =? userId) && negb (includes owner_or_admin role)).
  { subst o. auto. }
  unfold bind at 1 in Eo. rewrite db_query_reading_ok in Eo by auto with run.
  change (store (tick w)) with (store w) in Eo. rewrite Hown in Eo.
  unfold bind at 1 in Eo. cbn [first_owner_id ret] in Eo.
  destruct (owner_id =? memberId).
  { subst o. auto. }
  unfold bind at 1 in Eo. unfold delete_workspace_member in Eo.
  rewrite db_query_writing_ok in Eo by auto with run.
  subst o. cbn. auto.
Qed.

(** X21. The two routes that remove a member disagree.  For a requester
    whose role is admin and a target who is another admin and not the
    recorded owner, with every statement answered: the route of the member
    routes answers 403 "Un admin ne peut pas retirer un autre admin" and
    leaves the store as it is, while the route of the workspace routes
    answers 200 and deletes the target's membership. *)
Theorem admin_removal_routes_disagree (w : world)
  (userId workspaceId memberId owner_id : uuid)
  (more more' : list string) (rest : list uuid) :
  fault_free w ->
  workspaceId <> EmptyString ->
  select_member_role workspaceId userId (store w) = "admin" :: more ->
  select_member_role workspaceId memberId (store w) = "admin" :: more' ->
  select_owner_id workspaceId (store w) = owner_id :: rest ->
  memberId <> userId ->
  owner_id <> memberId ->
  (value_of (removeMember userId workspaceId memberId w)
   = Some (Send 403 (ErrorBody "Un admin ne peut pas retirer un autre admin"))
   /\ store (world_of (removeMember userId workspaceId memberId w)) = store w)
  /\ value_of (removeWorkspaceMember userId workspaceId memberId w)
     = Some (Send 200 (MessageBody "Membre retiré avec succès"))
  /\ select_member_role workspaceId memberId
       (store (world_of (removeWorkspaceMember userId workspaceId memberId w)))
     = [].
Proof.
  intros Hff Hne Hreq Htarget Hown Hother Hnot.
  pose proof (@removeMember_run w userId workspaceId memberId "admin" more
                owner_id rest Hff Hne Hreq Hown) as H1.
  pose proof (@removeWorkspaceMember_run w userId workspaceId memberId "admin"
                more owner_id rest Hff Hne Hreq Hown) as H2.
  cbv zeta in H1, H2. destruct H1 as [_ H1].
  apply String.eqb_neq in Hother, Hnot.
  rewrite Hother, Hnot, Htarget in H1. rewrite Hother, Hnot in H2.
  cbn in H1, H2. split; [exact H1|]. destruct H2 as [Hv Hst].
  split; [exact Hv|]. rewrite Hst. unfold select_member_role.
  cbn [workspace_members set_workspace_members].
  rewrite filter_filter_andb.
  rewrite (@filter_none _ _ (workspace_members (store w))); [reflexivity|].
  intros wm _. now destruct ((wm_workspace_id wm =? workspaceId)
                             && (wm_user_id wm =? memberId)).
Qed.

Lemma admin_removal_routes_disagree_witness :
  let w :=
    world_of (updateMemberRole alice acme carol "admin"
                (world_of (updateMemberRole alice acme bob "admin"
                             (quiet some_ids tenant)))) in
  value_of (removeMember bob acme carol w)
  = Some (Send 403 (ErrorBody "Un admin ne peut pas retirer un autre admin"))
  /\ value_of (removeWorkspaceMember bob acme carol w)
     = Some (Send 200 (MessageBody "Membre retiré avec succès")).
Proof.
  cbv zeta.
  assert (Hne : acme <> EmptyString) by discriminate.
  assert (H1 : carol <> bob) by discriminate.
  assert (H2 : alice <> carol) by discriminate.
  assert (Hff : fault_free
                  (world_of (updateMemberRole alice acme carol "admin"
                     (world_of (updateMemberRole alice acme bob "admin"
                                  (quiet some_ids tenant))))))
    by (intros n rel; reflexivity).
  pose proof (@admin_removal_routes_disagree _ bob acme carol alice [] [] []
                Hff Hne eq_refl eq_refl eq_refl H1 H2) as H.
  split; [exact (proj1 (proj1 H))|exact (proj1 (proj2 H))].
Defined.

(** X22. Removing a member takes away the membership and nothing else.
    When the owner removes a member, or a member other than the recorded
    owner removes themself, with every statement answered: the answer is
    200 and checkPermission then refuses the removed user in that workspace
    as a non-member for every code, while the custom roles assigned to them
    (user_roles), their per-user overrides and their group memberships are
    left in the store. *)
Theorem removeMember_leaves_assignments (w : world)
  (userId workspaceId memberId owner_id : uuid) (role : string)
  (more : list string) (rest : list uuid) :
  fault_free w ->
  workspaceId <> EmptyString ->
  select_member_role workspaceId userId (store w) = role :: more ->
  role = "owner" \/ memberId = userId ->
  select_owner_id workspaceId (store w) = owner_id :: rest ->
  owner_id <> memberId ->
  let run := removeMember userId workspaceId memberId w in
  value_of run = Some (Send 200 (MessageBody "Membre retiré avec succès"))
  /\ (forall code,
        value_of (checkPermission code memberId (Some workspaceId) None
                    (world_of run))
        = Some (Send 403 (ErrorBody "Accès au workspace non autorisé")))
  /\ user_roles (store (world_of run)) = user_roles (store w)
  /\ board_permissions (store (world_of run)) = board_permissions (store w)
  /\ project_permissions (store (world_of run))
     = project_permissions (store w)
  /\ user_group_members (store (world_of run))
     = user_group_members (store w).
Proof.
  intros Hff Hne Hreq Hwho Hown Hnot run.
  pose proof (@removeMember_run w userId workspaceId memberId role more
                owner_id rest Hff Hne Hreq Hown) as H.
  cbv zeta in H. fold run in H. destruct H as [Hff' H].
  assert (H1 : negb (memberId =? userId)
               && negb (includes owner_or_admin role) = false).
  { destruct Hwho as [->| ->]; [apply andb_false_r|].
    now rewrite String.eqb_refl. }
  assert (H3 : (role =? "admin") && negb (memberId =? userId) = false).
  { destruct Hwho as [->| ->]; [reflexivity|].
    rewrite String.eqb_refl. apply andb_false_r. }
  apply String.eqb_neq in Hnot. rewrite H1, Hnot, H3 in H. cbn [andb] in H.
  destruct H as [Hv Hst]. split; [exact Hv|]. rewrite Hst.
  split; [|repeat split].
  intros code. rewrite checkPermission_value by assumption. rewrite Hst.
  unfold select_member_role. cbn [workspace_members set_workspace_members].
  rewrite filter_filter_andb.
  rewrite (@filter_none _ _ (workspace_members (store w))); [reflexivity|].
  intros wm _. now destruct ((wm_workspace_id wm =? workspaceId)
                             && (wm_user_id wm =? memberId)).
Qed.

Lemma removeMember_leaves_assignments_witness :
  let run := removeMember alice acme bob (quiet some_ids tenant) in
  value_of run = Some (Send 200 (MessageBody "Membre retiré avec succès"))
  /\ value_of (checkPermission "budget.edit" bob (Some acme) None
                 (world_of run))
     = Some (Send 403 (ErrorBody "Accès au workspace non autorisé"))
  /\ user_roles (store (world_of run)) = user_roles tenant.
Proof.
  assert (Hne : acme <> EmptyString) by discriminate.
  assert (Hb : alice <> bob) by discriminate.
  pose proof (@removeMember_leaves_assignments (quiet some_ids tenant) alice
                acme bob alice "owner" [] []
                (fault_free_quiet some_ids tenant) Hne eq_refl
                (or_introl eq_refl) eq_refl Hb) as H.
  destruct H as (Hv & Hc & Hur & _).
  split; [exact Hv|]. split; [exact (Hc "budget.edit")|exact Hur].
Defined.

Lemma deleteWorkspace_run w userId workspaceId role more :
  fault_free w ->
  workspaceId <> EmptyString ->
  select_member_role workspaceId userId (store w) = role :: more ->
  exists w',
    fault_free w'
    /\ deleteWorkspace userId workspaceId w
       = Done (if role =? "owner"
               then Send 200 (MessageBody "Workspace supprimé avec succès")
               else Send 403
                      (ErrorBody
                         "Seul le propriétaire peut supprimer le workspace"))
              w'
    /\ store w'
       = if role =? "owner"
         then match delete_workspace workspaceId (store w) with
              | inr (_, d) => d
              | inl _ => store w
              end
         else store w.
Proof.
  intros Hff Hne Hreq.
  unfold deleteWorkspace, guarded, checkWorkspaceAccess.
  unfold bind at 1. unfold try_catch at 1. cbn [js_or].
  apply String.eqb_neq in Hne. rewrite Hne. cbn [truthy]. rewrite Hne.
  unfold bind at 1. rewrite db_query_reading_ok by assumption. rewrite Hreq.
  cbn [ret]. unfold try_catch.
  destruct (role =? "owner"); cbn [negb].
  - unfold bind at 1. unfold delete_workspace.
    rewrite db_query_writing_ok by auto with run.
    eexists. split; [|split; [reflexivity|reflexivity]]. auto with run.
  - eexists. split; [|split; [reflexivity|reflexivity]]. auto with run.
Qed.

Lemma filter_negb_includes_none A (key : A -> string) gone k (l : list A) :
  In k gone ->
  filter (fun x => key x =? k)
         (filter (fun x => negb (includes gone (key x))) l) = [].
Proof.
  intros Hin. rewrite filter_filter_andb. apply filter_none. intros x _.
  destruct (key x =? k) eqn:E; [|apply andb_false_r].
  apply String.eqb_eq in E. rewrite E.
  apply includes_In in Hin. now rewrite Hin.
Qed.

(** X23. DELETE /:workspaceId of the workspace routes, with every statement
    answered.  A requester whose role is not 'owner', an admin included, is
    answered 403 and changes nothing.  For the owner the answer is 200 and
    the cascade leaves nothing of the workspace: nobody is a member, so
    checkPermission refuses everyone as a non-member, the roles of the
    workspace grant nothing, the boards of the workspace carry no per-user
    override, and the audit entries of the workspace are gone with it; the
    membership rows of every other workspace are as before. *)
Theorem deleteWorkspace_cascades (w : world) (userId workspaceId : uuid)
  (role : string) (more : list string) :
  fault_free w ->
  workspaceId <> EmptyString ->
  select_member_role workspaceId userId (store w) = role :: more ->
  let run := deleteWorkspace userId workspaceId w in
  let after := store (world_of run) in
  (role <> "owner" ->
   value_of run
   = Some (Send 403
             (ErrorBody "Seul le propriétaire peut supprimer le workspace"))
   /\ after = store w)
  /\ (role = "owner" ->
      value_of run = Some (Send 200 (MessageBody "Workspace supprimé avec succès"))
      /\ select_owner_id workspaceId after = []
      /\ (forall u code,
            value_of (checkPermission code u (Some workspaceId) None
                        (world_of run))
            = Some (Send 403 (ErrorBody "Accès au workspace non autorisé")))
      /\ (forall r, In r (workspace_roles (store w)) ->
                    r_workspace_id r = workspaceId ->
                    role_grants (r_id r) after = [])
      /\ (forall b u, In b (boards (store w)) ->
                      b_workspace_id b = workspaceId ->
                      rows_for (b_id b) u (board_permissions after) = [])
      /\ (forall e, In e (permission_audit_logs after) ->
                    al_workspace_id e <> workspaceId)
      /\ (forall ws u, ws <> workspaceId ->
            select_member_role ws u after
            = select_member_role ws u (store w))).
Proof.
  intros Hff Hne Hreq run after.
  destruct (deleteWorkspace_run userId Hff Hne Hreq)
    as (w' & Hff' & Hrun & Hst).
  subst after run. rewrite Hrun. cbn [value_of world_of]. rewrite Hst.
  split.
  - intros Hr. apply String.eqb_neq in Hr. rewrite Hr. auto.
  - intros ->. cbn [String.eqb Ascii.eqb Bool.eqb].
    cbn [delete_workspace writing].
    split; [reflexivity|]. split; [|split; [|split; [|split; [|split]]]].
    + unfold select_owner_id. cbn [workspaces].
      rewrite filter_filter_andb. rewrite filter_none; [reflexivity|].
      intros x _. now destruct (w_id x =? workspaceId).
    + intros u code. rewrite checkPermission_value by assumption. rewrite Hst.
      cbn [String.eqb Ascii.eqb Bool.eqb delete_workspace writing].
      unfold select_member_role. cbn [workspace_members].
      rewrite filter_filter_andb. rewrite filter_none; [reflexivity|].
      intros x _. now destruct (wm_workspace_id x =? workspaceId).
    + intros r Hin Hws. unfold role_grants. cbn [role_permissions permissions].
      rewrite (@filter_negb_includes_none _ rp_role_id); [reflexivity|].
      apply in_map, filter_In. split; [exact Hin|].
      now apply String.eqb_eq.
    + intros b u Hin Hws. unfold rows_for. cbn [board_permissions].
      rewrite filter_filter_andb. apply filter_none. intros x _.
      destruct (xp_resource_id x =? b_id b) eqn:E;
        [|now rewrite andb_false_r].
      apply String.eqb_eq in E. rewrite E.
      assert (Hg : includes
                     (map b_id (filter (fun b0 => b_workspace_id b0
                                                  =? workspaceId)
                                       (boards (store w)))) (b_id b) = true).
      { apply includes_In, in_map, filter_In. split; [exact Hin|].
        now apply String.eqb_eq. }
      now rewrite Hg.
    + intros e Hin. cbn [permission_audit_logs] in Hin.
      apply filter_In in Hin. destruct Hin as [_ Hk].
      now apply negb_true_iff, String.eqb_neq in Hk.
    + intros ws u Hws. unfold select_member_role. cbn [workspace_members].
      rewrite filter_filter_andb. f_equal. apply filter_ext_eq. intros x.
      destruct (wm_workspace_id x =? ws) eqn:E; [|apply andb_false_r].
      apply String.eqb_eq in E. rewrite E.
      apply String.eqb_neq in Hws. now rewrite Hws.
Qed.

Lemma deleteWorkspace_cascades_witness :
  let run := deleteWorkspace alice acme (quiet some_ids tenant) in
  value_of run = Some (Send 200 (MessageBody "Workspace supprimé avec succès"))
  /\ role_grants budget_manager (store (world_of run)) = []
  /\ value_of (checkPermission "budget.edit" bob (Some acme) None
                 (world_of run))
     = Some (Send 403 (ErrorBody "Accès au workspace non autorisé")).
Proof.
  assert (Hne : acme <> EmptyString) by discriminate.
  pose proof (@deleteWorkspace_cascades (quiet some_ids tenant) alice acme
                "owner" [] (fault_free_quiet some_ids tenant) Hne eq_refl)
    as H.
  cbv zeta in H. destruct H as [_ H].
  destruct (H eq_refl) as (Hv & _ & Hc & Hg & _).
  split; [exact Hv|]. split; [|exact (Hc bob "budget.edit")].
  apply (Hg {| r_id := budget_manager; r_workspace_id := acme;
               r_name := "Budget Manager"; r_description := None;
               r_color := "#6366f1" |}); [now left|reflexivity].
Defined.

Section Unowned.

Variable W : list workspaces_row.
Variable Mb : list workspace_members_row.

Lemma createRole_membership u ok ws n de co ps :
  maintains (membership_is W Mb) (createRole u ok ws n de co ps).
Proof. unfold createRole. maintain; keeps_untouched. Qed.

Lemma updateRole_membership u r n de co ps :
  maintains (membership_is W Mb) (updateRole u r n de co ps).
Proof. unfold updateRole, updateRole_block. maintain; keeps_untouched. Qed.

Lemma deleteRole_membership u r :
  maintains (membership_is W Mb) (deleteRole u r).
Proof. unfold deleteRole. maintain; keeps_untouched. Qed.

Lemma assignRole_membership q u ws r :
  maintains (membership_is W Mb) (assignRole q u ws r).
Proof. unfold assignRole. maintain; keeps_untouched. Qed.

Lemma removeRole_membership q u r ws :
  maintains (membership_is W Mb) (removeRole q u r ws).
Proof. unfold removeRole. maintain; keeps_untouched. Qed.

Lemma setBoardPermission_membership q b u l :
  maintains (membership_is W Mb) (setBoardPermission q b u l).
Proof. unfold setBoardPermission. maintain; keeps_untouched. Qed.

Lemma removeBoardPermission_membership b u :
  maintains (membership_is W Mb) (removeBoardPermission b u).
Proof. unfold removeBoardPermission. maintain; keeps_untouched. Qed.

Lemma setProjectPermission_membership q p u l :
  maintains (membership_is W Mb) (setProjectPermission q p u l).
Proof. unfold setProjectPermission. maintain; keeps_untouched. Qed.

Lemma removeProjectPermission_membership p u :
  maintains (membership_is W Mb) (removeProjectPermission p u).
Proof. unfold removeProjectPermission. maintain; keeps_untouched. Qed.

Lemma addGroupMember_membership g u :
  maintains (membership_is W Mb) (addGroupMember g u).
Proof. unfold addGroupMember. maintain; keeps_untouched. Qed.

Lemma removeGroupMember_membership g u :
  maintains (membership_is W Mb) (removeGroupMember g u).
Proof. unfold removeGroupMember. maintain; keeps_untouched. Qed.

End Unowned.
Lemma untouched_run A (m : M A) w :
  idle w ->
  (forall W Mb, maintains (membership_is W Mb) m) ->
  workspaces (store (world_of (m w))) = workspaces (store w)
  /\ workspace_members (store (world_of (m w)))
     = workspace_members (store w).
Proof.
  intros Hi Hm.
  destruct (Hm (workspaces (store w)) (workspace_members (store w)) w)
    as [H _]; [|exact H].
  split; [now split|]. unfold idle in Hi. now rewrite Hi.
Qed.

Lemma owner_recorded_ext d d' :
  workspaces d' = workspaces d ->
  workspace_members d' = workspace_members d ->
  owner_recorded d -> owner_recorded d'.
Proof.
  intros Hw Hm (H1 & H2 & H3). unfold owner_recorded, select_owner_id.
  rewrite Hw, Hm. auto.
Qed.

Lemma unique_members_filter p rows :
  unique_members rows -> unique_members (filter p rows).
Proof.
  intros H ws u. specialize (H ws u).
  rewrite filter_filter_andb.
  rewrite <- (filter_filter_andb
                (fun wm => (wm_workspace_id wm =? ws) && (wm_user_id wm =? u))
                p).
  rewrite filter_filter_andb.
  rewrite (@filter_ext_eq _ _
             (fun x => ((wm_workspace_id x =? ws) && (wm_user_id x =? u))
                       && p x))
    by (intros x; apply andb_comm).
  rewrite <- filter_filter_andb.
  pose proof (filter_length_le p
                (filter (fun wm => (wm_workspace_id wm =? ws)
                                   && (wm_user_id wm =? u)) rows)).
  lia.
Qed.

Lemma keeps_delete_workspace_member workspaceId memberId :
  keeps owner_recorded (delete_workspace_member workspaceId memberId).
Proof.
  apply keeps_writing. intros d (H1 & H2 & H3). split; [exact H1|]. split.
  - cbn [workspace_members set_workspace_members].
    now apply unique_members_filter.
  - intros wm Hin Hr. cbn [workspace_members set_workspace_members] in Hin.
    apply filter_In in Hin. destruct Hin as [Hin _].
    exact (H3 wm Hin Hr).
Qed.

Lemma NoDup_map_filter A B (f : A -> B) (p : A -> bool) l :
  NoDup (map f l) -> NoDup (map f (filter p l)).
Proof.
  induction l as [|x l IH]; cbn [map filter]; [auto|].
  intros H. inversion H as [|? ? Hnot Hnd]; subst.
  destruct (p x); [|auto]. cbn [map]. constructor; [|auto].
  intros Hin. apply Hnot. apply in_map_iff in Hin.
  destruct Hin as (y & Hy & Hin). apply filter_In in Hin.
  apply in_map_iff. exists y. tauto.
Qed.

Lemma keeps_delete_workspace workspaceId :
  keeps owner_recorded (delete_workspace workspaceId).
Proof.
  apply keeps_writing. intros d (H1 & H2 & H3). split; [|split].
  - cbn [workspaces]. now apply NoDup_map_filter.
  - cbn [workspace_members]. now apply unique_members_filter.
  - intros wm Hin Hr. cbn [workspace_members] in Hin.
    apply filter_In in Hin. destruct Hin as [Hin Hk].
    rewrite <- (H3 wm Hin Hr). unfold select_owner_id. cbn [workspaces].
    rewrite filter_filter_andb. f_equal. apply filter_ext_eq. intros x.
    destruct (w_id x =? wm_workspace_id wm) eqn:E; [|apply andb_false_r].
    apply String.eqb_eq in E. rewrite E. now rewrite Hk.
Qed.

Lemma removeMember_owner_recorded u ws m :
  maintains owner_recorded (removeMember u ws m).
Proof.
  unfold removeMember. maintain. apply keeps_delete_workspace_member.
Qed.

Lemma removeWorkspaceMember_owner_recorded u ws m :
  maintains owner_recorded (removeWorkspaceMember u ws m).
Proof.
  unfold removeWorkspaceMember. maintain.
  apply keeps_delete_workspace_member.
Qed.

Lemma deleteWorkspace_owner_recorded u ws :
  maintains owner_recorded (deleteWorkspace u ws).
Proof. unfold deleteWorkspace. maintain. apply keeps_delete_workspace. Qed.
Lemma filter_key_set_role role ws u (q : workspace_members_row -> bool) rows :
  (forall wm, q (set_role_where role ws u wm) = q wm) ->
  filter q (map (set_role_where role ws u) rows)
  = map (set_role_where role ws u) (filter q rows).
Proof.
  intros Hq. induction rows as [|x rows IH]; [reflexivity|].
  cbn [map filter]. rewrite Hq. destruct (q x); cbn [map]; now rewrite IH.
Qed.

Lemma unique_members_set_role role ws u rows :
  unique_members rows ->
  unique_members (map (set_role_where role ws u) rows).
Proof.
  intros H ws' u'. specialize (H ws' u').
  rewrite filter_key_set_role.
  - now rewrite length_map.
  - intros wm. destruct (set_role_where_keys role ws u wm) as [K1 K2].
    now rewrite K1, K2.
Qed.

Lemma updateMemberRole_owner_recorded w userId workspaceId memberId role :
  owner_recorded (store w) ->
  owner_recorded
    (store (world_of (updateMemberRole userId workspaceId memberId role w))).
Proof.
  intros (H1 & H2 & H3).
  destruct (updateMemberRole_store w userId workspaceId memberId role)
    as [Hst|(Ha & _ & _ & Hst)]; rewrite Hst; [now repeat split|].
  split; [exact H1|]. split.
  - cbn [workspace_members set_workspace_members].
    now apply unique_members_set_role.
  - intros wm Hin Hr. cbn [workspace_members set_workspace_members] in Hin.
    apply in_map_iff in Hin. destruct Hin as (wm0 & Hf & Hin0).
    unfold set_role_where in Hf.
    destruct ((wm_workspace_id wm0 =? workspaceId)
              && (wm_user_id wm0 =? memberId)).
    + subst wm. cbn [wm_role] in Hr. subst role. discriminate.
    + subst wm. exact (H3 wm0 Hin0 Hr).
Qed.

(** What POST / of the workspace routes leaves in the store, whatever the
    storage layer does. *)
Lemma createWorkspace_store w userId ok name :
  let id := uuid_generate_v4 w (clock w) in
  let row := {| w_id := id; w_name := name; w_owner_id := userId |} in
  let created := set_workspaces (workspaces (store w) ++ [row]) (store w) in
  store (world_of (createWorkspace userId ok name w)) = store w
  \/ (existsb (fun x => w_id x =? id) (workspaces (store w)) = false
      /\ (store (world_of (createWorkspace userId ok name w)) = created
          \/ (existsb (fun wm => (wm_workspace_id wm =? id)
                                 && (wm_user_id wm =? userId))
                      (workspace_members (store w)) = false
              /\ store (world_of (createWorkspace userId ok name w))
                 = set_workspace_members
                     (workspace_members (store w)
                        ++ [{| wm_workspace_id := id; wm_user_id := userId;
                               wm_role := "owner"; wm_invited_by := None |}])
                     created))).
Proof.
  intros id row created.
  remember (createWorkspace userId ok name w) as o eqn:Eo.
  unfold createWorkspace in Eo. unfold try_catch at 1 in Eo.
  destruct ok; cbn [negb] in Eo; [|subst o; now left].
  unfold bind at 1 in Eo. unfold next_uuid at 1 in Eo. fold id in Eo.
  unfold bind at 1 in Eo. rewrite db_query_eq in Eo.
  destruct (faults w (clock w) Workspaces); [subst o; now left|].
  unfold insert_workspace at 1 in Eo.
  destruct (existsb (fun x => w_id x =? id) (workspaces (store w))) eqn:Ef;
    [subst o; now left|].
  fold row in Eo. fold created in Eo.
  unfold bind at 1 in Eo. rewrite db_query_eq in Eo.
  cbn [faults clock with_store tick store] in Eo.
  destruct (faults w (S (clock w)) WorkspaceMembers).
  { subst o. right. split; [reflexivity|]. now left. }
  unfold insert_workspace_member at 1 in Eo.
  change (workspace_members created) with (workspace_members (store w)) in Eo.
  cbn [w_id row] in Eo.
  destruct (existsb _ (workspace_members (store w))) eqn:Em.
  { subst o. right. split; [reflexivity|]. now left. }
  unfold bind at 1 in Eo. cbn [logger ret] in Eo.
  subst o. right. split; [reflexivity|]. right. split; [reflexivity|].
  reflexivity.
Qed.

Lemma select_owner_id_app ws rows d d' :
  workspaces d' = workspaces d ++ rows ->
  select_owner_id ws d'
  = select_owner_id ws d
      ++ map w_owner_id (filter (fun x => w_id x =? ws) rows).
Proof.
  intros H. unfold select_owner_id. now rewrite H, filter_app, map_app.
Qed.

Lemma select_owner_id_exists ws d o :
  select_owner_id ws d = [o] ->
  existsb (fun x => w_id x =? ws) (workspaces d) = true.
Proof.
  unfold select_owner_id. intros H.
  destruct (filter _ (workspaces d)) as [|x l] eqn:E; [discriminate|].
  assert (Hin : In x (filter (fun x => w_id x =? ws) (workspaces d)))
    by (rewrite E; now left).
  apply filter_In in Hin. apply existsb_exists. now exists x.
Qed.

Lemma createWorkspace_owner_recorded w userId ok name :
  owner_recorded (store w) ->
  owner_recorded (store (world_of (createWorkspace userId ok name w))).
Proof.
  intros (H1 & H2 & H3).
  pose proof (createWorkspace_store w userId ok name) as H. cbv zeta in H.
  set (id := uuid_generate_v4 w (clock w)) in *.
  assert (Hold : existsb (fun x => w_id x =? id) (workspaces (store w)) = false
                 ->
                 forall d', workspaces d'
                            = workspaces (store w)
                                ++ [{| w_id := id; w_name := name;
                                       w_owner_id := userId |}] ->
                 forall wm, In wm (workspace_members (store w)) ->
                            wm_role wm = "owner" ->
                            select_owner_id (wm_workspace_id wm) d'
                            = [wm_user_id wm]).
  { intros Hfresh d' Hd' wm Hin Hr.
    rewrite (@select_owner_id_app (wm_workspace_id wm) _ _ _ Hd'),
      (H3 wm Hin Hr).
    cbn [filter w_id].
    destruct (id =? wm_workspace_id wm) eqn:E; [|reflexivity].
    apply String.eqb_eq in E.
    pose proof (@select_owner_id_exists _ _ _ (H3 wm Hin Hr)) as Hex.
    rewrite <- E in Hex. congruence. }
  assert (Hnd : existsb (fun x => w_id x =? id) (workspaces (store w)) = false
                -> NoDup (map w_id (workspaces (store w)
                                      ++ [{| w_id := id; w_name := name;
                                             w_owner_id := userId |}]))).
  { intros Hfresh. rewrite map_app. cbn [map w_id].
    apply NoDup_app; [exact H1|repeat constructor; intros []|].
    intros x Hx [<-|[]]. apply in_map_iff in Hx.
    destruct Hx as (y & Hy & Hin).
    assert (existsb (fun x => w_id x =? id) (workspaces (store w)) = true).
    { apply existsb_exists. exists y. split; [exact Hin|].
      now apply String.eqb_eq. }
    congruence. }
  destruct H as [Hst|[Hfresh [Hst|[Hm Hst]]]]; rewrite Hst.
  - now repeat split.
  - split; [now apply Hnd|]. split; [exact H2|].
    intros wm Hin Hr. now apply (Hold Hfresh).
  - split; [now apply Hnd|]. split.
    + cbn [workspace_members set_workspace_members]. intros ws u.
      rewrite filter_app_single.
      cbn [wm_workspace_id wm_user_id]. rewrite length_app.
      specialize (H2 ws u).
      destruct ((id =? ws) && (userId =? u)) eqn:E; cbn [List.length];
        [|lia].
      apply andb_true_iff in E. destruct E as [E1 E2].
      apply String.eqb_eq in E1, E2. subst ws u.
      rewrite (@filter_none _ _ (workspace_members (store w))); [cbn; lia|].
      intros wm Hin.
      destruct ((wm_workspace_id wm =? id) && (wm_user_id wm =? userId))
        eqn:E; [|reflexivity].
      assert (existsb (fun wm => (wm_workspace_id wm =? id)
                                 && (wm_user_id wm =? userId))
                      (workspace_members (store w)) = true)
        by (apply existsb_exists; now exists wm).
      congruence.
    + intros wm Hin Hr. cbn [workspace_members set_workspace_members] in Hin.
      apply in_app_iff in Hin. destruct Hin as [Hin|[<-|[]]].
      * now apply (Hold Hfresh).
      * cbn [wm_workspace_id wm_user_id].
        erewrite (@select_owner_id_app id _ (store w)); [|reflexivity].
        cbn [filter w_id]. rewrite String.eqb_refl. cbn [map w_owner_id].
        unfold select_owner_id.
        rewrite (@filter_none _ (fun x => w_id x =? id)); [reflexivity|].
        intros x Hx. destruct (w_id x =? id) eqn:E; [|reflexivity].
        assert (existsb (fun x => w_id x =? id) (workspaces (store w)) = true)
          by (apply existsb_exists; now exists x).
        congruence.
Qed.
(** The wrapper [try { block } catch (e) { ROLLBACK; throw e } finally
    { release }] commits nothing by itself. *)
Lemma transaction_wrapper_store A (block : M A) w :
  store (world_of (try_finally
                     (try_catch block (fun e => client_ROLLBACK ;;; throw e))
                     client_release w))
  = store (world_of (block w)).
Proof.
  unfold try_finally, try_catch.
  destruct (block w) as [a w'|e w']; [reflexivity|].
  unfold bind, client_ROLLBACK, bind, round_trip.
  destruct (faults w' (clock w') Transaction); reflexivity.
Qed.

Lemma transfer_block_store userId workspaceId newOwnerId w :
  let block : M response :=
    client_BEGIN ;;;
    client_query Workspaces
      (update_workspace_owner newOwnerId workspaceId) ;;;
    client_query WorkspaceMembers
      (update_member_role "owner" workspaceId newOwnerId) ;;;
    client_query WorkspaceMembers
      (update_member_role "admin" workspaceId userId) ;;;
    client_COMMIT ;;;
    ret (Send 200 (MessageBody "Propriété transférée avec succès")) in
  store (world_of (block w)) = store w
  \/ store (world_of (block w))
     = transfer_commits userId workspaceId newOwnerId (store w).
Proof.
  intros block. remember (block w) as o eqn:Eo. subst block.
  unfold bind at 1 in Eo. unfold client_BEGIN in Eo. unfold bind at 1 in Eo.
  rewrite round_trip_eq in Eo.
  destruct (faults w (clock w) Transaction); [subst o; now left|].
  set (w1 := with_txn (Some (store (tick w))) (tick w)) in Eo.
  unfold bind at 1 in Eo. unfold update_workspace_owner in Eo.
  rewrite (@client_query_eq _ Workspaces _ w1 (store w) eq_refl) in Eo.
  destruct (faults w1 (clock w1) Workspaces); [subst o; now left|].
  unfold writing at 1 in Eo.
  match type of Eo with
  | context [with_txn (Some ?t) (tick w1)] =>
      set (t2 := t) in Eo; set (w2 := with_txn (Some t2) (tick w1)) in Eo
  end.
  unfold bind at 1 in Eo. unfold update_member_role at 1 in Eo.
  rewrite (@client_query_eq _ WorkspaceMembers _ w2 t2 eq_refl) in Eo.
  destruct (faults w2 (clock w2) WorkspaceMembers); [subst o; now left|].
  unfold writing at 1 in Eo.
  match type of Eo with
  | context [with_txn (Some ?t) (tick w2)] =>
      set (t3 := t) in Eo; set (w3 := with_txn (Some t3) (tick w2)) in Eo
  end.
  unfold bind at 1 in Eo. unfold update_member_role at 1 in Eo.
  rewrite (@client_query_eq _ WorkspaceMembers _ w3 t3 eq_refl) in Eo.
  destruct (faults w3 (clock w3) WorkspaceMembers); [subst o; now left|].
  unfold writing at 1 in Eo.
  match type of Eo with
  | context [with_txn (Some ?t) (tick w3)] =>
      set (t4 := t) in Eo; set (w4 := with_txn (Some t4) (tick w3)) in Eo
  end.
  unfold bind at 1 in Eo. unfold client_COMMIT in Eo. unfold bind at 1 in Eo.
  rewrite round_trip_eq in Eo.
  destruct (faults w4 (clock w4) Transaction); [subst o; now left|].
  subst o. right. reflexivity.
Qed.

(** What the transfer-ownership route leaves in the store, whatever the
    storage layer does. *)
Lemma transferOwnership_store w userId workspaceId ok newOwnerId :
  store (world_of (transferOwnership userId workspaceId ok newOwnerId w))
  = store w
  \/ ((exists more,
          select_member_role workspaceId userId (store w) = "owner" :: more)
      /\ store (world_of (transferOwnership userId workspaceId ok
                            newOwnerId w))
         = transfer_commits userId workspaceId newOwnerId (store w)).
Proof.
  remember (transferOwnership userId workspaceId ok newOwnerId w) as o eqn:Eo.
  unfold transferOwnership, guarded, checkWorkspaceAccess in Eo.
  unfold bind at 1 in Eo. unfold try_catch at 1 in Eo. cbn [js_or] in Eo.
  destruct (workspaceId =? EmptyString) eqn:Ew; cbn [truthy] in Eo;
    rewrite ?Ew in Eo; [subst o; now left|].
  unfold bind at 1 in Eo. rewrite db_query_reading_eq in Eo.
  destruct (faults w (clock w) WorkspaceMembers); [subst o; now left|].
  destruct (select_member_role workspaceId userId (store w))
    as [|workspaceRole more] eqn:Esel; [subst o; now left|].
  cbn [ret] in Eo. unfold try_catch at 1 in Eo.
  destruct (workspaceRole =? "owner") eqn:Er; cbn [negb] in Eo;
    [|subst o; now left].
  apply String.eqb_eq in Er. subst workspaceRole.
  destruct ok; cbn [negb] in Eo; [|subst o; now left].
  unfold bind at 1 in Eo. rewrite db_query_reading_eq in Eo.
  change (faults (tick w)) with (faults w) in Eo.
  destruct (faults w (clock (tick w)) WorkspaceMembers); [subst o; now left|].
  change (store (tick w)) with (store w) in Eo.
  destruct (select_member_role workspaceId newOwnerId (store w))
    as [|r0 rs]; [subst o; now left|].
  unfold bind at 1 in Eo. unfold pool_connect in Eo.
  rewrite round_trip_eq in Eo.
  destruct (faults (tick (tick w)) (clock (tick (tick w))) Pool);
    [subst o; now left|].
  match type of Eo with
  | o = match try_finally (try_catch ?b ?h) ?r ?w0 with _ => _ end =>
      pose proof (transaction_wrapper_store b w0) as Hwrap;
      pose proof (transfer_block_store userId workspaceId newOwnerId w0)
        as Hblock;
      destruct (try_finally (try_catch b h) r w0) as [a wf|e wf]
  end.
  - cbv zeta in Hblock. cbn [world_of] in Hwrap. subst o. cbn [world_of].
    rewrite Hwrap.
    destruct Hblock as [Hb|Hb];
      [left|right; split; [now exists more|]]; exact Hb.
  - cbv zeta in Hblock. cbn [world_of] in Hwrap. subst o.
    cbn [world_of bind logger ret]. unfold bind. cbn [logger ret world_of store].
    rewrite Hwrap.
    destruct Hblock as [Hb|Hb];
      [left|right; split; [now exists more|]]; exact Hb.
Qed.
Lemma select_member_role_In ws u d role more :
  select_member_role ws u d = role :: more ->
  exists wm, In wm (workspace_members d)
             /\ wm_workspace_id wm = ws /\ wm_user_id wm = u
             /\ wm_role wm = role.
Proof.
  unfold select_member_role. intros H.
  destruct (filter _ (workspace_members d)) as [|wm l] eqn:E; [discriminate|].
  assert (Hin : In wm (filter (fun wm => (wm_workspace_id wm =? ws)
                                         && (wm_user_id wm =? u))
                         (workspace_members d)))
    by (rewrite E; now left).
  apply filter_In in Hin. destruct Hin as [Hin Hk].
  apply andb_true_iff in Hk. destruct Hk as [K1 K2].
  apply String.eqb_eq in K1, K2. cbn [map] in H. injection H as Hr _.
  now exists wm.
Qed.

Lemma select_owner_id_transfer ws' ws new rows d :
  select_owner_id ws'
    (set_workspaces
       (map (fun x =>
               if w_id x =? ws
               then {| w_id := w_id x; w_name := w_name x;
                       w_owner_id := new |}
               else x)
            (workspaces d)) rows)
  = if ws' =? ws then map (fun _ => new) (select_owner_id ws d)
    else select_owner_id ws' d.
Proof.
  unfold select_owner_id. cbn [workspaces set_workspaces].
  destruct (ws' =? ws) eqn:E.
  - apply String.eqb_eq in E. subst ws'. rewrite map_map.
    induction (workspaces d) as [|x l IH]; [reflexivity|].
    cbn [map filter]. destruct (w_id x =? ws) eqn:Ex; cbn [w_id].
    + rewrite Ex. cbn [map w_owner_id]. now rewrite IH.
    + rewrite Ex. exact IH.
  - induction (workspaces d) as [|x l IH]; [reflexivity|].
    cbn [map filter]. destruct (w_id x =? ws) eqn:Ex; cbn [w_id].
    + apply String.eqb_eq in Ex. rewrite Ex, (String.eqb_sym ws ws'), E.
      exact IH.
    + destruct (w_id x =? ws'); cbn [map]; now rewrite IH.
Qed.

Lemma transfer_commits_owner_recorded userId workspaceId newOwnerId d more :
  owner_recorded d ->
  select_member_role workspaceId userId d = "owner" :: more ->
  owner_recorded (transfer_commits userId workspaceId newOwnerId d).
Proof.
  intros (H1 & H2 & H3) Hreq.
  destruct (select_member_role_In _ _ _ Hreq)
    as (wm0 & Hin0 & Hws0 & Hu0 & Hr0).
  pose proof (H3 wm0 Hin0 Hr0) as Hown. rewrite Hws0, Hu0 in Hown.
  unfold transfer_commits. split; [|split].
  - cbn [workspaces set_workspaces set_workspace_members].
    rewrite map_map.
    rewrite (@map_ext _ _ _ w_id); [exact H1|].
    intros x. now destruct (w_id x =? workspaceId).
  - cbn [workspace_members set_workspace_members].
    now apply unique_members_set_role, unique_members_set_role.
  - intros wm Hin Hr.
    cbn [workspace_members set_workspace_members] in Hin.
    apply in_map_iff in Hin. destruct Hin as (wm1 & Hf1 & Hin).
    apply in_map_iff in Hin. destruct Hin as (wm2 & Hf2 & Hin).
    change (select_owner_id (wm_workspace_id wm)
              (set_workspace_members ?m ?x))
      with (select_owner_id (wm_workspace_id wm) x).
    rewrite select_owner_id_transfer.
    destruct (set_role_where_keys "admin" workspaceId userId wm1) as [A1 A2].
    destruct (set_role_where_keys "owner" workspaceId newOwnerId wm2)
      as [B1 B2].
    pose proof (set_role_where_role "admin" workspaceId userId wm1) as RA.
    pose proof (set_role_where_role "owner" workspaceId newOwnerId wm2) as RB.
    rewrite Hf1 in A1, A2, RA. rewrite Hf2 in B1, B2, RB.
    rewrite B1 in A1. rewrite B2 in A2. rewrite B1, B2 in RA.
    rewrite Hr in RA.
    destruct ((wm_workspace_id wm2 =? workspaceId)
              && (wm_user_id wm2 =? userId)) eqn:Ku; [discriminate|].
    rewrite A1, A2.
    destruct (wm_workspace_id wm2 =? workspaceId) eqn:Ews.
    + cbn [andb] in Ku, RB. rewrite Hown. cbn [map].
      destruct (wm_user_id wm2 =? newOwnerId) eqn:Kn.
      * apply String.eqb_eq in Kn. now rewrite Kn.
      * rewrite <- RA in RB. symmetry in RB.
        pose proof (H3 wm2 Hin RB) as Ho2.
        apply String.eqb_eq in Ews. rewrite Ews, Hown in Ho2.
        injection Ho2 as Ho2. rewrite <- Ho2, String.eqb_refl in Ku.
        discriminate.
    + cbn [andb] in RB. rewrite <- RA in RB. symmetry in RB.
      exact (H3 wm2 Hin RB).
Qed.

Lemma transferOwnership_owner_recorded w userId workspaceId ok newOwnerId :
  owner_recorded (store w) ->
  owner_recorded
    (store (world_of (transferOwnership userId workspaceId ok newOwnerId w))).
Proof.
  intros H.
  destruct (transferOwnership_store w userId workspaceId ok newOwnerId)
    as [Hst|((more & Hreq) & Hst)]; rewrite Hst; [exact H|].
  now apply (@transfer_commits_owner_recorded _ _ _ _ more).
Qed.

(** A workspace whose ownership is recorded consistently has at most one
    member with the role 'owner'. *)
Lemma owner_recorded_unique d ws :
  owner_recorded d ->
  List.length (owners ws d) <= 1
  /\ forall u, In u (owners ws d) -> select_owner_id ws d = [u].
Proof.
  intros (H1 & H2 & H3).
  assert (Hall : forall u, In u (owners ws d) -> select_owner_id ws d = [u]).
  { intros u Hin. unfold owners in Hin. apply in_map_iff in Hin.
    destruct Hin as (wm & Hu & Hin). apply filter_In in Hin.
    destruct Hin as [Hin Hk]. apply andb_true_iff in Hk.
    destruct Hk as [K1 K2]. apply String.eqb_eq in K1, K2.
    rewrite <- K1, <- Hu. now apply H3. }
  split; [|exact Hall].
  destruct (owners ws d) as [|o rest] eqn:Eo; [cbn; lia|].
  pose proof (Hall o (or_introl eq_refl)) as Ho.
  specialize (H2 ws o). unfold owners in Eo.
  assert (Hsub : filter (fun wm => (wm_workspace_id wm =? ws)
                                   && (wm_role wm =? "owner"))
                        (workspace_members d)
                 = filter (fun wm => wm_role wm =? "owner")
                     (filter (fun wm => (wm_workspace_id wm =? ws)
                                        && (wm_user_id wm =? o))
                             (workspace_members d))).
  { rewrite filter_filter_andb. apply filter_ext_in. intros wm Hin.
    destruct (wm_workspace_id wm =? ws) eqn:K1; [|reflexivity].
    destruct (wm_role wm =? "owner") eqn:K2; [|now rewrite !andb_false_r].
    apply String.eqb_eq in K1, K2.
    pose proof (H3 wm Hin K2) as Hw. rewrite K1, Ho in Hw.
    injection Hw as Hw. now rewrite <- Hw, String.eqb_refl. }
  rewrite Hsub in Eo.
  pose proof (filter_length_le (fun wm => wm_role wm =? "owner")
                (filter (fun wm => (wm_workspace_id wm =? ws)
                                   && (wm_user_id wm =? o))
                        (workspace_members d))) as Hle.
  rewrite <- (length_map wm_user_id) in Hle. rewrite Eo in Hle.
  cbn [List.length] in *. lia.
Qed.
Lemma serve_owner_recorded c w :
  idle w -> owner_recorded (store w) ->
  owner_recorded (store (world_of (serve c w))).
Proof.
  intros Hi H.
  assert (Hholds : holds owner_recorded w).
  { split; [exact H|]. unfold idle in Hi. now rewrite Hi. }
  assert (Hsame : forall (m : M response),
             (forall W Mb, maintains (membership_is W Mb) m) ->
             owner_recorded (store (world_of (m w)))).
  { intros m Hm. destruct (untouched_run Hi Hm) as [Hw Hmb].
    exact (@owner_recorded_ext _ _ Hw Hmb H). }
  destruct c; cbn [serve].
  - now apply createWorkspace_owner_recorded.
  - now apply updateMemberRole_owner_recorded.
  - exact (proj1 (@removeMember_owner_recorded _ _ _ w Hholds)).
  - now apply transferOwnership_owner_recorded.
  - apply Hsame. intros. apply createRole_membership.
  - apply Hsame. intros. apply updateRole_membership.
  - apply Hsame. intros. apply deleteRole_membership.
  - apply Hsame. intros. apply assignRole_membership.
  - apply Hsame. intros. apply removeRole_membership.
  - apply Hsame. intros. apply setBoardPermission_membership.
  - apply Hsame. intros. apply removeBoardPermission_membership.
  - apply Hsame. intros. apply setProjectPermission_membership.
  - apply Hsame. intros. apply removeProjectPermission_membership.
  - apply Hsame. intros. apply addGroupMember_membership.
  - apply Hsame. intros. apply removeGroupMember_membership.
Qed.

(** X24. Ownership stays consistent with the record, and there is never
    more than one owner.  Start from a store in which workspace ids and
    (workspace, user) membership keys are unique and every member holding
    'owner' is the owner the workspace records.  After any sequence of
    requests to the modelled routes, whatever the storage layer does, the
    same holds; hence every workspace has at most one member holding
    'owner', and such a member is the recorded owner. *)
Theorem at_most_one_owner (d0 d : DB) :
  owner_recorded d0 ->
  served_from d0 d ->
  owner_recorded d
  /\ forall workspaceId,
       List.length (owners workspaceId d) <= 1
       /\ forall u, In u (owners workspaceId d) ->
                    select_owner_id workspaceId d = [u].
Proof.
  intros H0 Hs.
  assert (H : owner_recorded d).
  { induction Hs as [|d c w Hs IH Hst Hi|d u ws m w Hs IH Hst Hi
                     |d u ws w Hs IH Hst Hi].
    - exact H0.
    - apply serve_owner_recorded; [exact Hi|now rewrite Hst].
    - refine (proj1 (@removeWorkspaceMember_owner_recorded u ws m w _)).
      split; [now rewrite Hst|]. unfold idle in Hi. now rewrite Hi.
    - refine (proj1 (@deleteWorkspace_owner_recorded u ws w _)).
      split; [now rewrite Hst|]. unfold idle in Hi. now rewrite Hi. }
  split; [exact H|]. intros ws. now apply owner_recorded_unique.
Qed.

Lemma tenant_owner_recorded : owner_recorded tenant.
Proof.
  split; [|split].
  - cbn. repeat constructor. intros [].
  - intros ws u. cbn [tenant workspace_members filter wm_workspace_id
                      wm_user_id].
    destruct (acme =? ws); cbn [andb]; [|cbn; lia].
    destruct (alice =? u) eqn:Ea, (bob =? u) eqn:Eb, (carol =? u) eqn:Ec;
      cbn [List.length]; try lia;
      rewrite ?String.eqb_eq in *; subst; discriminate.
  - intros wm [<-|[<-|[<-|[]]]]; cbn; intros Hr;
      [reflexivity|discriminate|discriminate].
Qed.

Lemma at_most_one_owner_witness :
  let d :=
    store (world_of (serve (TransferOwnership alice acme true bob)
                       (quiet some_ids tenant))) in
  owner_recorded d
  /\ forall workspaceId,
       List.length (owners workspaceId d) <= 1
       /\ forall u, In u (owners workspaceId d) ->
                    select_owner_id workspaceId d = [u].
Proof.
  exact (@at_most_one_owner tenant _ tenant_owner_recorded
           (@served_call tenant tenant
              (TransferOwnership alice acme true bob)
              (quiet some_ids tenant) (served_none tenant) eq_refl eq_refl)).
Defined.

Lemma keeps_insert_audit_log L row :
  keeps (audit_extends L) (insert_audit_log row).
Proof.
  apply keeps_writing. intros d [suffix H]. exists (suffix ++ [row]).
  cbn [permission_audit_logs set_permission_audit_logs].
  now rewrite H, app_assoc.
Qed.

Lemma serve_audit_extends L c : maintains (audit_extends L) (serve c).
Proof.
  destruct c; cbn [serve];
    unfold createWorkspace, updateMemberRole, removeMember, transferOwnership,
      createRole, updateRole, updateRole_block, deleteRole, assignRole,
      removeRole, setBoardPermission, removeBoardPermission,
      setProjectPermission, removeProjectPermission, addGroupMember,
      removeGroupMember;
    maintain;
    try apply keeps_insert_audit_log;
    keeps_untouched.
Qed.

(** X25. The audit table is append-only under the fifteen routes that
    [serve] dispatches (workspace creation, member role update and removal,
    ownership transfer, and the role, override and group-member routes):
    whatever the request and whatever the storage layer does, the entries
    that were in permission_audit_logs before a request are still there
    afterwards, unchanged and in the same order, followed by what the
    request added.  Deleting the workspace is the exception: its entries go
    with it. *)
Theorem audit_log_append_only (c : call) (w : world) :
  idle w ->
  exists suffix,
    permission_audit_logs (store (world_of (serve c w)))
    = permission_audit_logs (store w) ++ suffix.
Proof.
  intros Hi.
  destruct (@serve_audit_extends (permission_audit_logs (store w)) c w)
    as [H _]; [|exact H].
  split.
  - exists []. now rewrite app_nil_r.
  - unfold idle in Hi. now rewrite Hi.
Qed.

Lemma audit_log_append_only_witness :
  exists suffix,
    permission_audit_logs
      (store (world_of (serve (AssignRole alice carol acme budget_manager)
                          (quiet some_ids tenant))))
    = permission_audit_logs tenant ++ suffix.
Proof.
  exact (@audit_log_append_only (AssignRole alice carol acme budget_manager)
           (quiet some_ids tenant) eq_refl).
Defined.



(** ** CSV export and temporary passwords *)

Lemma append_assoc_s (a b c : string) :
  ((a ++ b) ++ c = a ++ b ++ c)%string.
Proof.
  induction a as [|x a IH]; [reflexivity|]. cbn. now rewrite IH.
Qed.

Lemma append_nil_r_s (a : string) : (a ++ EmptyString = a)%string.
Proof. induction a as [|x a IH]; [reflexivity|]. cbn. now rewrite IH. Qed.

(** Reading an escaped value up to its closing quote. *)
Lemma read_escaped v : forall field rest record records,
  read_quoted_csv (replace_quotes v ++ dquote ++ rest) InQuotes field record
    records
  = read_quoted_csv rest QuoteSeen (field ++ v)%string record records.
Proof.
  induction v as [|c v IH]; intros field rest record records.
  - cbn. now rewrite append_nil_r_s.
  - cbn [replace_quotes].
    destruct (Ascii.eqb c (ascii_of_nat 34)) eqn:E.
    + apply Ascii.eqb_eq in E. subst c.
      change ((String (ascii_of_nat 34)
                 (String (ascii_of_nat 34) (replace_quotes v)))
              ++ dquote ++ rest)%string
        with (String (ascii_of_nat 34)
                (String (ascii_of_nat 34)
                   (replace_quotes v ++ dquote ++ rest))).
      cbn [read_quoted_csv Ascii.eqb Bool.eqb ascii_of_nat ascii_of_pos
           ascii_of_N].
      rewrite (IH (field ++ dquote)%string). f_equal.
      now rewrite append_assoc_s.
    + change (String c (replace_quotes v) ++ dquote ++ rest)%string
        with (String c (replace_quotes v ++ dquote ++ rest)).
      cbn [read_quoted_csv]. rewrite E.
      rewrite (IH (field ++ String c EmptyString)%string). f_equal.
      now rewrite append_assoc_s.
Qed.

Lemma read_value v rest record records :
  read_quoted_csv (csv_value v ++ rest) FieldStart EmptyString record records
  = read_quoted_csv rest QuoteSeen v record records.
Proof.
  unfold csv_value. rewrite !append_assoc_s.
  change (dquote ++ replace_quotes v ++ dquote ++ rest)%string
    with (String (ascii_of_nat 34) (replace_quotes v ++ dquote ++ rest)).
  cbn [read_quoted_csv Ascii.eqb Bool.eqb ascii_of_nat ascii_of_pos
       ascii_of_N].
  now rewrite read_escaped.
Qed.

Lemma concat_cons sep x (xs : list string) :
  xs <> [] ->
  String.concat sep (x :: xs) = (x ++ sep ++ String.concat sep xs)%string.
Proof. destruct xs; [contradiction|reflexivity]. Qed.

(** Reading one line of quoted values, up to the last closing quote. *)
Lemma read_line fs : forall f rest record records,
  read_quoted_csv
    (String.concat "," (map csv_value (fs ++ [f])) ++ rest)
    FieldStart EmptyString record records
  = read_quoted_csv rest QuoteSeen f (record ++ fs) records.
Proof.
  induction fs as [|v fs IH]; intros f rest record records.
  - cbn [app map String.concat]. rewrite read_value. now rewrite app_nil_r.
  - cbn [app map]. rewrite concat_cons.
    2:{ destruct fs; discriminate. }
    rewrite !append_assoc_s, read_value.
    change ("," ++ String.concat "," (map csv_value (fs ++ [f])) ++ rest)%string
      with (String (ascii_of_nat 44)
              (String.concat "," (map csv_value (fs ++ [f])) ++ rest)).
    cbn [read_quoted_csv Ascii.eqb Bool.eqb ascii_of_nat ascii_of_pos
         ascii_of_N].
    rewrite IH. now rewrite <- app_assoc.
Qed.

Lemma read_lines rs : forall fs f rest records,
  (forall r, In r rs -> r <> []) ->
  read_quoted_csv
    (String.concat newline
       (map (fun r => String.concat "," (map csv_value r))
            (rs ++ [fs ++ [f]])) ++ rest)
    FieldStart EmptyString [] records
  = read_quoted_csv rest QuoteSeen f fs (records ++ rs).
Proof.
  induction rs as [|r rs IH]; intros fs f rest records Hne.
  - cbn [app map String.concat]. rewrite read_line. now rewrite app_nil_r.
  - cbn [app map]. rewrite concat_cons.
    2:{ destruct rs; discriminate. }
    destruct (@exists_last _ r) as (fs0 & f0 & ->);
      [apply Hne; now left|].
    rewrite !append_assoc_s, read_line.
    match goal with
    | |- read_quoted_csv (newline ++ ?t)%string _ _ _ _ = _ =>
        change (newline ++ t)%string with (String (ascii_of_nat 10) t)
    end.
    cbn [read_quoted_csv Ascii.eqb Bool.eqb ascii_of_nat ascii_of_pos
         ascii_of_N app].
    rewrite IH by (intros r' Hr'; apply Hne; now right).
    now rewrite <- app_assoc.
Qed.

Lemma read_written_records rows :
  rows <> [] ->
  (forall r, In r rows -> r <> []) ->
  read_quoted_csv
    (String.concat newline
       (map (fun r => String.concat "," (map csv_value r)) rows))
    FieldStart EmptyString [] []
  = Some rows.
Proof.
  intros Hrows Hne.
  destruct (@exists_last _ rows Hrows) as (rs & r & ->).
  destruct (@exists_last _ r) as (fs & f & ->).
  { apply Hne, in_or_app. right. now left. }
  rewrite <- (append_nil_r_s (String.concat newline _)).
  rewrite read_lines.
  - reflexivity.
  - intros r' Hr'. apply Hne, in_or_app. now left.
Qed.

Lemma append_inv_head_s (a b c : string) :
  (a ++ b = a ++ c)%string -> b = c.
Proof.
  induction a as [|x a IH]; cbn; [auto|]. intros H. injection H as H. auto.
Qed.

Lemma csv_unfold headers row exportData :
  csv headers (row :: exportData)
  = (bom ++ String.concat "," headers ++ newline
       ++ String.concat newline
            (map (fun r => String.concat "," (map csv_value r))
                 (map (fun row => map row headers) (row :: exportData))))%string.
Proof.
  unfold csv. cbv zeta. rewrite concat_cons by discriminate.
  rewrite map_map.
  rewrite (@map_ext _ _ (fun x : string -> string =>
                           String.concat "," (map csv_value (map x headers)))
             (csv_line headers)); [reflexivity|].
  intros r. unfold csv_line. now rewrite map_map.
Qed.

(** X27. The CSV export loses nothing of the values.  For a non-empty list
    of headers and at least one row, the text sent is the byte-order mark,
    the header line and a line feed, followed by data lines that a reader of
    quoted CSV fields reads back as exactly the cell strings of the rows,
    whatever double quotes, commas or line feeds the values contain.
    Hence two exports under the same headers that send the same text have
    the same cells. *)
Theorem csv_export_round_trip (headers : list string)
  (exportData : list (string -> string)) :
  headers <> [] ->
  (exportData <> [] ->
   exists data,
     csv headers exportData
     = (bom ++ String.concat "," headers ++ newline ++ data)%string
     /\ read_quoted_csv data FieldStart EmptyString [] []
        = Some (map (fun row => map row headers) exportData))
  /\ (forall other,
        csv headers exportData = csv headers other ->
        map (fun row => map row headers) exportData
        = map (fun row => map row headers) other).
Proof.
  intros Hh.
  assert (Hread : forall d, d <> [] ->
    read_quoted_csv
      (String.concat newline
         (map (fun r => String.concat "," (map csv_value r))
              (map (fun row => map row headers) d)))
      FieldStart EmptyString [] []
    = Some (map (fun row : string -> string => map row headers) d)).
  { intros d Hd. apply read_written_records.
    - destruct d; [contradiction|discriminate].
    - intros r Hr. apply in_map_iff in Hr. destruct Hr as (row & <- & _).
      destruct headers; [contradiction|discriminate]. }
  split.
  - intros Hd. destruct exportData as [|row rows]; [contradiction|].
    eexists. split; [apply csv_unfold|]. now apply Hread.
  - intros other Heq.
    destruct exportData as [|row rows], other as [|row' rows'].
    + reflexivity.
    + exfalso. rewrite csv_unfold in Heq. unfold csv in Heq.
      cbn [map String.concat] in Heq.
      apply append_inv_head_s in Heq.
      rewrite <- (append_nil_r_s (String.concat "," headers)) in Heq at 1.
      apply append_inv_head_s in Heq. discriminate.
    + exfalso. rewrite csv_unfold in Heq. unfold csv in Heq.
      cbn [map String.concat] in Heq.
      apply append_inv_head_s in Heq.
      rewrite <- (append_nil_r_s (String.concat "," headers)) in Heq at 2.
      apply append_inv_head_s in Heq. discriminate.
    + rewrite !csv_unfold in Heq.
      do 3 apply append_inv_head_s in Heq.
      assert (N1 : row :: rows <> []) by discriminate.
      assert (N2 : row' :: rows' <> []) by discriminate.
      assert (H1 := Hread (row :: rows) N1).
      assert (H2 := Hread (row' :: rows') N2).
      rewrite Heq, H2 in H1. congruence.
Qed.

Lemma csv_export_round_trip_witness :
  let row := fun h : string =>
    if h =? "Nom"
    then ("dit " ++ dquote ++ "oui" ++ dquote ++ ", puis non")%string
    else "Sprint" in
  exists data,
    csv ["Nom"; "Groupe"] [row]
    = (bom ++ String.concat "," ["Nom"; "Groupe"] ++ newline ++ data)%string
    /\ read_quoted_csv data FieldStart EmptyString [] []
       = Some [[("dit " ++ dquote ++ "oui" ++ dquote ++ ", puis non")%string;
                "Sprint"]].
Proof.
  cbv zeta.
  assert (Hh : ["Nom"; "Groupe"] <> []) by discriminate.
  refine (proj1 (@csv_export_round_trip ["Nom"; "Groupe"] [_] Hh) _).
  discriminate.
Defined.

Lemma length_append_s (a b : string) :
  String.length (a ++ b) = String.length a + String.length b.
Proof. induction a as [|x a IH]; [reflexivity|]. cbn. now rewrite IH. Qed.

Lemma list_ascii_append_s (a b : string) :
  list_ascii_of_string (a ++ b)
  = list_ascii_of_string a ++ list_ascii_of_string b.
Proof. induction a as [|x a IH]; [reflexivity|]. cbn. now rewrite IH. Qed.

Lemma charAt_in_range s : forall i,
  i < String.length s ->
  exists c, charAt s i = String c EmptyString
            /\ In c (list_ascii_of_string s).
Proof.
  unfold charAt. induction s as [|x s IH]; intros i Hi; [cbn in Hi; lia|].
  destruct i as [|i]; cbn [String.get].
  - exists x. split; [reflexivity|now left].
  - cbn [String.length] in Hi.
    destruct (IH i) as (c & Hc & Hin); [lia|].
    exists c. split; [exact Hc|now right].
Qed.

Lemma temp_password_loop_shape random n : forall i password,
  (forall j, i <= j < i + n ->
             random j < String.length temp_password_chars) ->
  String.length (temp_password_loop n i random password)
  = String.length password + n
  /\ forall c,
       In c (list_ascii_of_string (temp_password_loop n i random password)) ->
       In c (list_ascii_of_string password)
       \/ In c (list_ascii_of_string temp_password_chars).
Proof.
  induction n as [|n IH]; intros i password Hr.
  - cbn [temp_password_loop]. split; [lia|auto].
  - cbn [temp_password_loop].
    destruct (@charAt_in_range temp_password_chars (random i))
      as (c0 & Hc0 & Hin0); [apply Hr; lia|].
    rewrite Hc0.
    destruct (IH (S i) (password ++ String c0 EmptyString)%string)
      as [Hlen Hchars]; [intros j Hj; apply Hr; lia|].
    split.
    + rewrite Hlen, length_append_s. cbn [String.length]. lia.
    + intros c Hc. apply Hchars in Hc. destruct Hc as [Hc|Hc]; [|now right].
      rewrite list_ascii_append_s in Hc. apply in_app_iff in Hc.
      destruct Hc as [Hc|[<-|[]]]; [now left|now right].
Qed.

(** X28. A temporary password has ten characters, each taken from the
    alphabet of the generator, whatever the random source yields within
    its range (a value below the length of the alphabet in each of the ten
    iterations); in particular it contains none of the characters I, O, l,
    o, 0 and 1, which the alphabet leaves out. *)
Theorem generateTempPassword_shape (random : nat -> nat) :
  (forall i, i < 10 -> random i < String.length temp_password_chars) ->
  String.length (generateTempPassword random) = 10
  /\ (forall c, In c (list_ascii_of_string (generateTempPassword random)) ->
                In c (list_ascii_of_string temp_password_chars))
  /\ (forall c, In c (list_ascii_of_string (generateTempPassword random)) ->
                ~ In c (list_ascii_of_string "IOlo01")).
Proof.
  intros Hr. unfold generateTempPassword.
  destruct (@temp_password_loop_shape random 10 0 EmptyString)
    as [Hlen Hchars]; [intros j Hj; apply Hr; lia|].
  assert (Hall : forall c,
             In c (list_ascii_of_string
                     (temp_password_loop 10 0 random EmptyString)) ->
             In c (list_ascii_of_string temp_password_chars)).
  { intros c Hc. destruct (Hchars c Hc) as [[]|H]. exact H. }
  split; [exact Hlen|]. split; [exact Hall|].
  intros c Hc Hbad. apply Hall in Hc.
  cbn in Hbad.
  repeat (destruct Hbad as [<-|Hbad];
          [cbn in Hc; repeat (destruct Hc as [Hc|Hc]; [discriminate|]);
           exact Hc|]).
  exact Hbad.
Qed.

Lemma generateTempPassword_shape_witness :
  String.length (generateTempPassword (fun i => 5 * i)) = 10.
Proof.
  refine (proj1 (@generateTempPassword_shape (fun i => 5 * i) _)).
  intros i Hi. cbn [String.length temp_password_chars]. lia.
Defined.

(** ** More on ownership transfer and on removing members *)

(** The wrapper [try { block } catch (e) { ROLLBACK; throw e } finally
    { release }] returns what the block returns and throws when it throws,
    and commits nothing by itself. *)
Lemma transaction_wrapper_outcome A (block : M A) w :
  match block w with
  | Done a w' =>
      exists w'',
        try_finally (try_catch block (fun e => client_ROLLBACK ;;; throw e))
          client_release w = Done a w''
        /\ store w'' = store w'
  | Thrown _ w' =>
      exists e' w'',
        try_finally (try_catch block (fun e => client_ROLLBACK ;;; throw e))
          client_release w = Thrown e' w''
        /\ store w'' = store w'
  end.
Proof.
  unfold try_finally, try_catch.
  destruct (block w) as [a w'|e w'].
  - eexists. split; reflexivity.
  - unfold bind, client_ROLLBACK, bind, round_trip.
    destruct (faults w' (clock w') Transaction); cbn;
      eexists; eexists; split; reflexivity.
Qed.

Lemma transfer_block_outcome userId workspaceId newOwnerId w :
  let block : M response :=
    client_BEGIN ;;;
    client_query Workspaces
      (update_workspace_owner newOwnerId workspaceId) ;;;
    client_query WorkspaceMembers
      (update_member_role "owner" workspaceId newOwnerId) ;;;
    client_query WorkspaceMembers
      (update_member_role "admin" workspaceId userId) ;;;
    client_COMMIT ;;;
    ret (Send 200 (MessageBody "Propriété transférée avec succès")) in
  (exists e w', block w = Thrown e w' /\ store w' = store w)
  \/ (exists w',
         block w
         = Done (Send 200 (MessageBody "Propriété transférée avec succès")) w'
         /\ store w'
            = transfer_commits userId workspaceId newOwnerId (store w)).
Proof.
  intros block. remember (block w) as o eqn:Eo. subst block.
  unfold bind at 1 in Eo. unfold client_BEGIN in Eo. unfold bind at 1 in Eo.
  rewrite round_trip_eq in Eo.
  destruct (faults w (clock w) Transaction);
    [subst o; left; eexists; eexists; split; reflexivity|].
  set (w1 := with_txn (Some (store (tick w))) (tick w)) in Eo.
  unfold bind at 1 in Eo. unfold update_workspace_owner in Eo.
  rewrite (@client_query_eq _ Workspaces _ w1 (store w) eq_refl) in Eo.
  destruct (faults w1 (clock w1) Workspaces);
    [subst o; left; eexists; eexists; split; reflexivity|].
  unfold writing at 1 in Eo.
  match type of Eo with
  | context [with_txn (Some ?t) (tick w1)] =>
      set (t2 := t) in Eo; set (w2 := with_txn (Some t2) (tick w1)) in Eo
  end.
  unfold bind at 1 in Eo. unfold update_member_role at 1 in Eo.
  rewrite (@client_query_eq _ WorkspaceMembers _ w2 t2 eq_refl) in Eo.
  destruct (faults w2 (clock w2) WorkspaceMembers);
    [subst o; left; eexists; eexists; split; reflexivity|].
  unfold writing at 1 in Eo.
  match type of Eo with
  | context [with_txn (Some ?t) (tick w2)] =>
      set (t3 := t) in Eo; set (w3 := with_txn (Some t3) (tick w2)) in Eo
  end.
  unfold bind at 1 in Eo. unfold update_member_role at 1 in Eo.
  rewrite (@client_query_eq _ WorkspaceMembers _ w3 t3 eq_refl) in Eo.
  destruct (faults w3 (clock w3) WorkspaceMembers);
    [subst o; left; eexists; eexists; split; reflexivity|].
  unfold writing at 1 in Eo.
  match type of Eo with
  | context [with_txn (Some ?t) (tick w3)] =>
      set (t4 := t) in Eo; set (w4 := with_txn (Some t4) (tick w3)) in Eo
  end.
  unfold bind at 1 in Eo. unfold client_COMMIT in Eo. unfold bind at 1 in Eo.
  rewrite round_trip_eq in Eo.
  destruct (faults w4 (clock w4) Transaction);
    [subst o; left; eexists; eexists; split; reflexivity|].
  subst o. right. eexists. split; reflexivity.
Qed.

(** X29. The transfer of ownership is all or nothing, and the answer says
    which.  Whatever the request and whatever the storage layer does,
    either the answer is 200, the requester held 'owner', the new owner was
    a member, and the store is the one the transaction commits (new
    recorded owner, 'owner' for the new owner, 'admin' for the requester);
    or the answer is not 200 and the store is as before. *)
Theorem transferOwnership_all_or_nothing (w : world)
  (userId workspaceId : uuid) (ok : bool) (newOwnerId : uuid) :
  let run := transferOwnership userId workspaceId ok newOwnerId w in
  let done := Send 200 (MessageBody "Propriété transférée avec succès") in
  (value_of run = Some done
   /\ store (world_of run)
      = transfer_commits userId workspaceId newOwnerId (store w)
   /\ (exists more,
          select_member_role workspaceId userId (store w) = "owner" :: more)
   /\ select_member_role workspaceId newOwnerId (store w) <> [])
  \/ (value_of run <> Some done /\ store (world_of run) = store w).
Proof.
  intros run done. subst run done.
  remember (transferOwnership userId workspaceId ok newOwnerId w) as o eqn:Eo.
  unfold transferOwnership, guarded, checkWorkspaceAccess in Eo.
  unfold bind at 1 in Eo. unfold try_catch at 1 in Eo. cbn [js_or] in Eo.
  destruct (workspaceId =? EmptyString) eqn:Ew; cbn [truthy] in Eo;
    rewrite ?Ew in Eo; [subst o; right; split; [discriminate|reflexivity]|].
  unfold bind at 1 in Eo. rewrite db_query_reading_eq in Eo.
  destruct (faults w (clock w) WorkspaceMembers);
    [subst o; right; split; [discriminate|reflexivity]|].
  destruct (select_member_role workspaceId userId (store w))
    as [|workspaceRole more] eqn:Esel;
    [subst o; right; split; [discriminate|reflexivity]|].
  cbn [ret] in Eo. unfold try_catch at 1 in Eo.
  destruct (workspaceRole =? "owner") eqn:Er; cbn [negb] in Eo;
    [|subst o; right; split; [discriminate|reflexivity]].
  apply String.eqb_eq in Er. subst workspaceRole.
  destruct ok; cbn [negb] in Eo;
    [|subst o; right; split; [discriminate|reflexivity]].
  unfold bind at 1 in Eo. rewrite db_query_reading_eq in Eo.
  change (faults (tick w)) with (faults w) in Eo.
  destruct (faults w (clock (tick w)) WorkspaceMembers);
    [subst o; right; split; [discriminate|reflexivity]|].
  change (store (tick w)) with (store w) in Eo.
  destruct (select_member_role workspaceId newOwnerId (store w))
    as [|r0 rs] eqn:Enew;
    [subst o; right; split; [discriminate|reflexivity]|].
  unfold bind at 1 in Eo. unfold pool_connect in Eo.
  rewrite round_trip_eq in Eo.
  destruct (faults (tick (tick w)) (clock (tick (tick w))) Pool);
    [subst o; right; split; [discriminate|reflexivity]|].
  match type of Eo with
  | o = match try_finally (try_catch ?b ?h) ?r ?w0 with _ => _ end =>
      pose proof (transaction_wrapper_outcome b w0) as Hwrap;
      pose proof (transfer_block_outcome userId workspaceId newOwnerId w0)
        as Hblock
  end.
  cbv zeta in Hblock.
  destruct Hblock as [(e & w' & Hb & Hst)|(w' & Hb & Hst)];
    rewrite Hb in Hwrap.
  - destruct Hwrap as (e' & w'' & Hw & Hst'). rewrite Hw in Eo.
    subst o. right. split; [discriminate|].
    cbn [world_of bind logger ret]. unfold bind.
    cbn [logger ret world_of store]. now rewrite Hst', Hst.
  - destruct Hwrap as (w'' & Hw & Hst'). rewrite Hw in Eo.
    subst o. left. cbn [value_of world_of].
    split; [reflexivity|]. split; [now rewrite Hst', Hst|].
    split; [now exists more|discriminate].
Qed.

(** X30. Through either removal route, a requester who is not owner or
    admin of the workspace removes nobody but themself: for any other
    target the store is left as it is, whatever the storage layer does, and
    with every statement answered the answer is 403, "Permission
    insuffisante" for a member and "Accès au workspace non autorisé" for a
    non-member. *)
Theorem plain_member_removes_only_self (w : world)
  (userId workspaceId memberId : uuid) :
  not_admin (select_member_role workspaceId userId (store w)) = true ->
  memberId <> userId ->
  store (world_of (removeMember userId workspaceId memberId w)) = store w
  /\ store (world_of (removeWorkspaceMember userId workspaceId memberId w))
     = store w
  /\ (fault_free w -> workspaceId <> EmptyString ->
      let refusal :=
        Send 403
          (ErrorBody
             match select_member_role workspaceId userId (store w) with
             | [] => "Accès au workspace non autorisé"
             | _ :: _ => "Permission insuffisante"
             end) in
      value_of (removeMember userId workspaceId memberId w) = Some refusal
      /\ value_of (removeWorkspaceMember userId workspaceId memberId w)
         = Some refusal).
Proof.
  intros Hna Hother. apply String.eqb_neq in Hother.
  assert (Hgate : forall role more,
             select_member_role workspaceId userId (store w) = role :: more ->
             negb (memberId =? userId) && negb (includes owner_or_admin role)
             = true).
  { intros role more Hsel. rewrite Hsel in Hna. cbn [not_admin] in Hna.
    now rewrite Hother, Hna. }
  split; [|split].
  - remember (removeMember userId workspaceId memberId w) as o eqn:Eo.
    unfold removeMember, guarded, checkWorkspaceAccess in Eo.
    unfold bind at 1 in Eo. unfold try_catch at 1 in Eo. cbn [js_or] in Eo.
    destruct (workspaceId =? EmptyString) eqn:Ew; cbn [truthy] in Eo;
      rewrite ?Ew in Eo; [now subst o|].
    unfold bind at 1 in Eo. rewrite db_query_reading_eq in Eo.
    destruct (faults w (clock w) WorkspaceMembers); [now subst o|].
    destruct (select_member_role workspaceId userId (store w))
      as [|role more] eqn:Esel; [now subst o|].
    cbn [ret] in Eo. unfold try_catch in Eo.
    rewrite (Hgate role more eq_refl) in Eo. now subst o.
  - remember (removeWorkspaceMember userId workspaceId memberId w)
      as o eqn:Eo.
    unfold removeWorkspaceMember, guarded, checkWorkspaceAccess in Eo.
    unfold bind at 1 in Eo. unfold try_catch at 1 in Eo. cbn [js_or] in Eo.
    destruct (workspaceId =? EmptyString) eqn:Ew; cbn [truthy] in Eo;
      rewrite ?Ew in Eo; [now subst o|].
    unfold bind at 1 in Eo. rewrite db_query_reading_eq in Eo.
    destruct (faults w (clock w) WorkspaceMembers); [now subst o|].
    destruct (select_member_role workspaceId userId (store w))
      as [|role more] eqn:Esel; [now subst o|].
    cbn [ret] in Eo. unfold try_catch in Eo.
    rewrite (Hgate role more eq_refl) in Eo. now subst o.
  - intros Hff Hne refusal. subst refusal.
    apply String.eqb_neq in Hne. split.
    + remember (removeMember userId workspaceId memberId w) as o eqn:Eo.
      unfold removeMember, guarded, checkWorkspaceAccess in Eo.
      unfold bind at 1 in Eo. unfold try_catch at 1 in Eo.
      cbn [js_or] in Eo. rewrite Hne in Eo. cbn [truthy] in Eo.
      rewrite Hne in Eo. unfold bind at 1 in Eo.
      rewrite db_query_reading_ok in Eo by assumption.
      destruct (select_member_role workspaceId userId (store w))
        as [|role more] eqn:Esel; [now subst o|].
      cbn [ret] in Eo. unfold try_catch in Eo.
      rewrite (Hgate role more eq_refl) in Eo. now subst o.
    + remember (removeWorkspaceMember userId workspaceId memberId w)
        as o eqn:Eo.
      unfold removeWorkspaceMember, guarded, checkWorkspaceAccess in Eo.
      unfold bind at 1 in Eo. unfold try_catch at 1 in Eo.
      cbn [js_or] in Eo. rewrite Hne in Eo. cbn [truthy] in Eo.
      rewrite Hne in Eo. unfold bind at 1 in Eo.
      rewrite db_query_reading_ok in Eo by assumption.
      destruct (select_member_role workspaceId userId (store w))
        as [|role more] eqn:Esel; [now subst o|].
      cbn [ret] in Eo. unfold try_catch in Eo.
      rewrite (Hgate role more eq_refl) in Eo. now subst o.
Qed.

Lemma plain_member_removes_only_self_witness :
  store (world_of (removeMember bob acme carol (quiet some_ids tenant)))
  = tenant
  /\ value_of (removeWorkspaceMember bob acme carol (quiet some_ids tenant))
     = Some (Send 403 (ErrorBody "Permission insuffisante")).
Proof.
  assert (Hother : carol <> bob) by discriminate.
  assert (Hne : acme <> EmptyString) by discriminate.
  pose proof (@plain_member_removes_only_self (quiet some_ids tenant) bob
                acme carol eq_refl Hother) as H.
  destruct H as (Hst & _ & Hv).
  split; [exact Hst|].
  exact (proj2 (Hv (fault_free_quiet some_ids tenant) Hne)).
Defined.
